(** * Availability monitoring core of the Duesseldorf appointment checker

    A shallow embedding of the extractor ([appointment_checker.py]), the
    probe orchestration ([check_appointments]), the services
    ([subscription_service.py], [check_service.py], [scheduler.py],
    [notification_service.py]) and the tables of [models.py], together with
    the properties of the specification that are settled against them. *)

From Stdlib Require Import String Ascii.
From Stdlib Require Import ZArith NArith List Bool Lia.
Import ListNotations.

Set Implicit Arguments.

(* ================================================================== *)
(** ** Python [str]: sequences of Unicode code points                  *)
(* ================================================================== *)

Module Py.

(** A Python [str] is a sequence of code points. *)
Definition str : Type := list N.

(** ASCII literals of the source, written as Rocq strings. *)
Definition lit (s : string) : str :=
  map N_of_ascii (list_ascii_of_string s).

Fixpoint str_eqb (a b : str) : bool :=
  match a, b with
  | [], [] => true
  | x :: a', y :: b' => N.eqb x y && str_eqb a' b'
  | _, _ => false
  end.

(** The Unicode character database is not part of the repository.  On the
    Basic Latin block the classes are written out below; beyond it they are
    read from these tables. *)
Class Unicode : Type := {
  uni_decimal : N -> bool;  (* Py_UNICODE_ISDECIMAL *)
  uni_alnum : N -> bool;    (* isalpha, isdigit or isnumeric *)
  uni_space : N -> bool;    (* Py_UNICODE_ISSPACE *)
  uni_lower : str -> str    (* str.lower of a non-ASCII string *)
}.

(** Tables that know nothing beyond Basic Latin; they are only consulted on
    code points from 128 on. *)
Definition basic_latin : Unicode :=
  {| uni_decimal := fun _ => false;
     uni_alnum := fun _ => false;
     uni_space := fun _ => false;
     uni_lower := fun s => s |}.

Definition is_ascii (c : N) : bool := (c <? 128)%N.

Section Classes.
Context {U : Unicode}.

(** [\d] of a [str] pattern. *)
Definition is_digit (c : N) : bool :=
  if is_ascii c then (48 <=? c)%N && (c <=? 57)%N else uni_decimal c.

Definition ascii_alpha (c : N) : bool :=
  ((65 <=? c)%N && (c <=? 90)%N) || ((97 <=? c)%N && (c <=? 122)%N).

(** [\w] of a [str] pattern: alphanumeric or underscore. *)
Definition is_word (c : N) : bool :=
  is_digit c
  || (if is_ascii c then ascii_alpha c else uni_alnum c)
  || (c =? 95)%N.

(** [str.isspace] on one code point. *)
Definition is_space (c : N) : bool :=
  if is_ascii c
  then ((9 <=? c)%N && (c <=? 13)%N) || ((28 <=? c)%N && (c <=? 32)%N)
  else uni_space c.

Definition ascii_lower (c : N) : N :=
  if (65 <=? c)%N && (c <=? 90)%N then (c + 32)%N else c.

(** [str.lower]. *)
Definition lower (s : str) : str :=
  if forallb is_ascii s then map ascii_lower s else uni_lower s.

Fixpoint lstrip (s : str) : str :=
  match s with
  | c :: s' => if is_space c then lstrip s' else s
  | [] => []
  end.

(** [str.strip] with no argument. *)
Definition strip (s : str) : str := rev (lstrip (rev (lstrip s))).

End Classes.

Fixpoint startswith (s p : str) : bool :=
  match p, s with
  | [], _ => true
  | x :: p', y :: s' => N.eqb x y && startswith s' p'
  | _ :: _, [] => false
  end.

(** [needle in hay]. *)
Fixpoint contains (needle hay : str) : bool :=
  startswith hay needle
  || match hay with
     | [] => false
     | _ :: hay' => contains needle hay'
     end.

(** [str.zfill]. *)
Definition zfill (width : nat) (s : str) : str :=
  if (width <=? length s)%nat then s
  else
    let fill := repeat 48%N (width - length s) in
    match s with
    | c :: r => if (c =? 43)%N || (c =? 45)%N then c :: fill ++ r else fill ++ s
    | [] => fill
    end.

(** [not s] for an optional string: [None] and [""] are falsy. *)
Definition falsy (o : option str) : bool :=
  match o with
  | None => true
  | Some [] => true
  | Some (_ :: _) => false
  end.

End Py.

Import Py.

Arguments is_digit {U} c : simpl never.
Arguments is_word {U} c : simpl never.
Arguments is_space {U} c : simpl never.

(* ================================================================== *)
(** ** The two regular expressions of the extractor                    *)
(* ================================================================== *)

Module Re.

Section Matcher.
Context {U : Unicode}.

Definition word_at (o : option N) : bool :=
  match o with
  | Some c => is_word c
  | None => false
  end.

(** [\b] between the character before the position and the rest. *)
Definition at_boundary (prev : option N) (rest : str) : bool :=
  xorb (word_at prev) (word_at (hd_error rest)).

(** [\d{1,2}], greedy: the alternatives in the order they are tried. *)
Definition digits_1_2 (s : str) : list (str * str) :=
  match s with
  | a :: r =>
      if is_digit a then
        match r with
        | b :: r' =>
            if is_digit b then [([a; b], r'); ([a], r)] else [([a], r)]
        | [] => [([a], r)]
        end
      else []
  | [] => []
  end.

(** [\d{n}]. *)
Fixpoint digits_n (n : nat) (s : str) : option (str * str) :=
  match n with
  | O => Some ([], s)
  | S n' =>
      match s with
      | c :: r =>
          if is_digit c then
            match digits_n n' r with
            | Some (ds, r') => Some (c :: ds, r')
            | None => None
            end
          else None
      | [] => None
      end
  end.

(** A literal character. *)
Definition chr (c : N) (s : str) : option str :=
  match s with
  | x :: r => if (x =? c)%N then Some r else None
  | [] => None
  end.

Fixpoint first_some {A B} (f : A -> option B) (l : list A) : option B :=
  match l with
  | [] => None
  | a :: l' =>
      match f a with
      | Some b => Some b
      | None => first_some f l'
      end
  end.

Definition last_of (s : str) : option N :=
  match rev s with
  | c :: _ => Some c
  | [] => None
  end.

(** [\b(\d{1,2}:\d{2})\b] tried at one position; the result is group 1. *)
Definition time_here (prev : option N) (s : str) : option str :=
  if at_boundary prev s then
    first_some
      (fun '(h, r1) =>
         match chr 58 r1 with
         | Some r2 =>
             match digits_n 2 r2 with
             | Some (m, r3) =>
                 if at_boundary (last_of m) r3
                 then Some (h ++ 58%N :: m) else None
             | None => None
             end
         | None => None
         end)
      (digits_1_2 s)
  else None.

(** [\b(\d{1,2})\.(\d{1,2})\.(\d{4})\b] tried at one position; the result
    is groups 1, 2 and 3. *)
Definition date_here (prev : option N) (s : str)
  : option (str * str * str) :=
  if at_boundary prev s then
    first_some
      (fun '(d, r1) =>
         match chr 46 r1 with
         | Some r2 =>
             first_some
               (fun '(m, r3) =>
                  match chr 46 r3 with
                  | Some r4 =>
                      match digits_n 4 r4 with
                      | Some (y, r5) =>
                          if at_boundary (last_of y) r5
                          then Some (d, m, y) else None
                      | None => None
                      end
                  | None => None
                  end)
               (digits_1_2 r2)
         | None => None
         end)
      (digits_1_2 s)
  else None.

(** [re.search]: the leftmost position at which the pattern matches. *)
Fixpoint search {A} (here : option N -> str -> option A)
         (prev : option N) (s : str) : option A :=
  match here prev s with
  | Some r => Some r
  | None =>
      match s with
      | [] => None
      | c :: s' => search here (Some c) s'
      end
  end.

End Matcher.

End Re.

(* ================================================================== *)
(** ** appointment_checker.py: parsing                                 *)
(* ================================================================== *)

Section Parsing.
Context {U : Unicode}.

(** [AppointmentChecker._parse_datetime_from_text] *)
Definition _parse_datetime_from_text (text : str)
  : option str * option str :=
  match text with
  | [] => (None, None)
  | _ :: _ =>
      let date_match :=
        match Re.search Re.date_here None text with
        | Some (d, m, y) => Some (d ++ 46%N :: m ++ 46%N :: y)
        | None => None
        end in
      let time_match := Re.search Re.time_here None text in
      (date_match, time_match)
  end.

(** [AppointmentChecker._parse_german_date] *)
Definition _parse_german_date (text : str) : option str :=
  match text with
  | [] => None
  | _ :: _ =>
      match Re.search Re.date_here None text with
      | Some (d, m, y) =>
          let day := zfill 2 d in
          let month := zfill 2 m in
          let year := y in
          Some (year ++ 45%N :: month ++ 45%N :: day)
      | None => None
      end
  end.

End Parsing.

(* ================================================================== *)
(** ** Exceptions and the pages the browser hands back                 *)
(* ================================================================== *)

(** The exceptions the modelled code distinguishes: Playwright's
    [TimeoutError], Telegram's [TelegramError], the [UnboundLocalError] of
    reading a local that was never assigned, and any other [Exception]. *)
Inductive exn : Type :=
| PlaywrightTimeout (msg : str)
| TelegramError (msg : str)
| UnboundLocalError (name : str)
| OtherException (msg : str).

(** [str(e)] *)
Definition exn_str (e : exn) : str :=
  match e with
  | PlaywrightTimeout m => m
  | TelegramError m => m
  | UnboundLocalError n =>
      lit "cannot access local variable '" ++ n
      ++ lit "' where it is not associated with a value"
  | OtherException m => m
  end.

(** A call into the browser, the store or the transport returns or raises. *)
Inductive outcome (A : Type) : Type :=
| Ok (a : A)
| Raise (e : exn).
Arguments Ok {A} a.
Arguments Raise {A} e.

(** What the locators of [_extract_appointment_slots] find on a page. *)
Record Button : Type := {
  button_text_content : outcome (option str)
}.

Record Header : Type := {
  header_text_content : outcome (option str);
  aria_controls : outcome (option str);
  (* buttons under [header.locator("+ div")] *)
  sibling_buttons : outcome (list Button)
}.

Record Page : Type := {
  content : outcome str;
  (* [page.locator("h3.ui-accordion-header")] *)
  date_headers : outcome (list Header);
  (* buttons under [page.locator("#" + panel_id)] *)
  panel_buttons : str -> outcome (list Button);
  (* [page.screenshot(path=..)] for a file label; the path written *)
  screenshot : str -> outcome str
}.

Record AppointmentSlot : Type := {
  slot_date : option str;
  slot_time : option str;
  slot_location : option str;
  slot_raw_text : str
}.

Record CheckResult : Type := {
  status : str;
  available : bool;
  appointments : list AppointmentSlot;
  screenshot_path : option str;
  error_message : option str;
  checked_at : Z;
  service_name : str;
  category_name : str
}.

Definition with_screenshot (r : CheckResult) (p : option str) : CheckResult :=
  {| status := status r; available := available r;
     appointments := appointments r; screenshot_path := p;
     error_message := error_message r; checked_at := checked_at r;
     service_name := service_name r; category_name := category_name r |}.

(** [AppointmentChecker.NO_APPOINTMENT_PATTERNS]; 252 is u-umlaut. *)
Definition NO_APPOINTMENT_PATTERNS : list str :=
  [ lit "Zurzeit sind keine Termine frei";
    lit "Zurzeit sind keine Termine verf" ++ 252%N :: lit "gbar";
    lit "Leider sind derzeit keine Termine verf" ++ 252%N :: lit "gbar";
    lit "Es sind zurzeit keine Termine verf" ++ 252%N :: lit "gbar";
    lit "Aktuell sind keine Termine buchbar";
    lit "Keine Zeiten verf" ++ 252%N :: lit "gbar";
    lit "keine freien Termine" ].

(* ================================================================== *)
(** ** appointment_checker.py: extraction                              *)
(* ================================================================== *)

Section Extractor.
Context {U : Unicode}.

(** The inner loop of [_extract_appointment_slots] over the time buttons of
    one panel.  The result is the list of appointments so far and, when a
    browser call raised, the exception that ends the extraction. *)
Fixpoint time_buttons_loop (parsed_date date_text : str)
         (buttons : list Button) (acc : list AppointmentSlot)
  : list AppointmentSlot * option exn :=
  match buttons with
  | [] => (acc, None)
  | button :: rest =>
      match button_text_content button with
      | Raise e => (acc, Some e)
      | Ok time_text =>
          match time_text with
          | None | Some [] => time_buttons_loop parsed_date date_text rest acc
          | Some ((_ :: _) as raw) =>
              let time_text := strip raw in
              let parsed_time := snd (_parse_datetime_from_text time_text) in
              if falsy parsed_time
              then time_buttons_loop parsed_date date_text rest acc
              else
                let appointment :=
                  {| slot_date := Some parsed_date;
                     slot_time := parsed_time;
                     slot_location := None;
                     slot_raw_text := date_text ++ 32%N :: time_text |} in
                time_buttons_loop parsed_date date_text rest
                                  (acc ++ [appointment])
          end
      end
  end.

(** The panel of a header: by [aria-controls] when it is set, else the
    next sibling. *)
Definition panel_of (page : Page) (header : Header) (panel_id : option str)
  : outcome (list Button) :=
  match panel_id with
  | Some ((_ :: _) as id) => panel_buttons page id
  | _ => sibling_buttons header
  end.

(** The outer loop over the date headers. *)
Fixpoint headers_loop (page : Page) (headers : list Header)
         (acc : list AppointmentSlot)
  : list AppointmentSlot * option exn :=
  match headers with
  | [] => (acc, None)
  | header :: rest =>
      match header_text_content header with
      | Raise e => (acc, Some e)
      | Ok None | Ok (Some []) => headers_loop page rest acc
      | Ok (Some ((_ :: _) as raw)) =>
          let date_text := strip raw in
          match _parse_german_date date_text with
          | None | Some [] => headers_loop page rest acc
          | Some ((_ :: _) as parsed_date) =>
              match aria_controls header with
              | Raise e => (acc, Some e)
              | Ok panel_id =>
                  match panel_of page header panel_id with
                  | Raise e => (acc, Some e)
                  | Ok buttons =>
                      match time_buttons_loop parsed_date date_text
                                              buttons acc with
                      | (acc', Some e) => (acc', Some e)
                      | (acc', None) => headers_loop page rest acc'
                      end
                  end
              end
          end
      end
  end.

(** [AppointmentChecker._extract_appointment_slots]: whatever is raised
    inside is caught and the appointments gathered so far are returned. *)
Definition _extract_appointment_slots (page : Page) : list AppointmentSlot :=
  match date_headers page with
  | Raise _ => []
  | Ok [] => []
  | Ok ((_ :: _) as headers) => fst (headers_loop page headers [])
  end.

(** The loop over [NO_APPOINTMENT_PATTERNS]. *)
Fixpoint no_appointment_pattern (patterns : list str) (html : str)
  : option str :=
  match patterns with
  | [] => None
  | pattern :: rest =>
      if contains (lower pattern) (lower html) then Some pattern
      else no_appointment_pattern rest html
  end.

(** [AppointmentChecker._detect_and_extract_appointments]; [now] is the
    clock read when the [CheckResult] is built. *)
Definition _detect_and_extract_appointments
           (now : Z) (page : Page) (service category : str)
  : outcome CheckResult :=
  match content page with
  | Raise e => Raise e
  | Ok html =>
      match no_appointment_pattern NO_APPOINTMENT_PATTERNS html with
      | Some _ =>
          Ok {| status := lit "no_appointments"; available := false;
                appointments := []; screenshot_path := None;
                error_message := None; checked_at := now;
                service_name := service; category_name := category |}
      | None =>
          match _extract_appointment_slots page with
          | (_ :: _) as found =>
              Ok {| status := lit "appointments_found"; available := true;
                    appointments := found; screenshot_path := None;
                    error_message := None; checked_at := now;
                    service_name := service; category_name := category |}
          | [] =>
              Ok {| status := lit "unknown"; available := false;
                    appointments := []; screenshot_path := None;
                    error_message :=
                      Some (lit "Could not detect appointments or confirm unavailability");
                    checked_at := now;
                    service_name := service; category_name := category |}
          end
      end
  end.

(** [AppointmentChecker._save_screenshot] *)
Definition _save_screenshot (page : Page) (label : str) : str :=
  match screenshot page label with
  | Ok filepath => filepath
  | Raise _ => []
  end.

(** [AppointmentChecker._save_error_screenshot] *)
Definition _save_error_screenshot (page : Page) (error_type : str)
  : option str :=
  Some (_save_screenshot page (lit "error_" ++ error_type)).

End Extractor.

(* ================================================================== *)
(** ** appointment_checker.py: one probe                               *)
(* ================================================================== *)

(** What the outside world does during one attempt. *)
Record Session : Type := {
  playwright_start : outcome unit;   (* entering [async_playwright()] *)
  launch : outcome unit;             (* [p.chromium.launch] *)
  new_page : outcome unit;           (* [browser.new_page] *)
  navigate : outcome unit;           (* [_navigate_to_service] *)
  networkidle : outcome unit;        (* [page.wait_for_load_state] *)
  terminal : Page;                   (* the page reached *)
  close : outcome unit;              (* [browser.close] *)
  result_clock : Z                   (* the clock when the result is built *)
}.

(** The locals of [check_appointments] that its handlers look at. *)
Record Locals : Type := {
  browser_bound : bool;   (* [browser] is no longer [None] *)
  page_bound : bool       (* [page] has been assigned *)
}.

Record Attempt : Type := {
  returned : outcome CheckResult;
  browser_launched : bool;
  browser_closed : bool    (* [browser.close()] was awaited *)
}.

Section Probe.
Context {U : Unicode}.

(** The [try] block of [check_appointments]. *)
Definition attempt_body (e : Session) (category service : str)
  : outcome CheckResult * Locals :=
  match playwright_start e with
  | Raise x => (Raise x, {| browser_bound := false; page_bound := false |})
  | Ok _ =>
  match launch e with
  | Raise x => (Raise x, {| browser_bound := false; page_bound := false |})
  | Ok _ =>
  match new_page e with
  | Raise x => (Raise x, {| browser_bound := true; page_bound := false |})
  | Ok _ =>
  let bound := {| browser_bound := true; page_bound := true |} in
  match navigate e with
  | Raise x => (Raise x, bound)
  | Ok _ =>
  match networkidle e with
  | Raise x => (Raise x, bound)
  | Ok _ =>
  match _detect_and_extract_appointments (result_clock e) (terminal e)
                                         service category with
  | Raise x => (Raise x, bound)
  | Ok result =>
      let screenshot_path := _save_screenshot (terminal e) (status result) in
      (Ok (with_screenshot result (Some screenshot_path)), bound)
  end end end end end end.

Definition error_result (e : Session) (msg : str) (shot : option str)
           (category service : str) : CheckResult :=
  {| status := lit "error"; available := false; appointments := [];
     screenshot_path := shot; error_message := Some msg;
     checked_at := result_clock e;
     service_name := service; category_name := category |}.

(** The two [except] clauses.  Both read the local [page] first. *)
Definition attempt_handlers (e : Session) (x : exn) (l : Locals)
           (category service : str) : outcome CheckResult :=
  if page_bound l then
    match x with
    | PlaywrightTimeout m =>
        Ok (error_result e (lit "Timeout: " ++ m)
              (_save_error_screenshot (terminal e) (lit "timeout"))
              category service)
    | _ =>
        Ok (error_result e (exn_str x)
              (_save_error_screenshot (terminal e) (lit "error"))
              category service)
    end
  else Raise (UnboundLocalError (lit "page")).

(** [AppointmentChecker.check_appointments] *)
Definition check_appointments (e : Session) (category service : str)
           (quantity : Z) : Attempt :=
  let '(r, l) := attempt_body e category service in
  let handled :=
    match r with
    | Ok result => Ok result
    | Raise x => attempt_handlers e x l category service
    end in
  (* finally *)
  if browser_bound l then
    {| returned := match close e with
                   | Ok _ => handled
                   | Raise x => Raise x
                   end;
       browser_launched := true;
       browser_closed := true |}
  else
    {| returned := handled;
       browser_launched := false;
       browser_closed := false |}.

End Probe.

(* ================================================================== *)
(** ** models.py: the tables                                           *)
(* ================================================================== *)

Open Scope Z_scope.

(** Instants are microseconds on the clock of [datetime.now()]; a
    [timedelta] is a number of microseconds. *)
Definition timedelta_hours (h : Z) : Z := h * 3600000000.

Inductive CheckStatus : Type :=
| SUCCESS | NO_APPOINTMENTS | APPOINTMENTS_FOUND | ERROR | TIMEOUT | UNKNOWN.

Definition CheckStatus_value (s : CheckStatus) : str :=
  match s with
  | SUCCESS => lit "success"
  | NO_APPOINTMENTS => lit "no_appointments"
  | APPOINTMENTS_FOUND => lit "appointments_found"
  | ERROR => lit "error"
  | TIMEOUT => lit "timeout"
  | UNKNOWN => lit "unknown"
  end.

(** [CheckStatus(value)]: lookup by value, [ValueError] when there is none. *)
Definition CheckStatus_of (v : str) : outcome CheckStatus :=
  match find (fun s => str_eqb (CheckStatus_value s) v)
             [SUCCESS; NO_APPOINTMENTS; APPOINTMENTS_FOUND; ERROR; TIMEOUT; UNKNOWN] with
  | Some s => Ok s
  | None => Raise (OtherException (v ++ lit " is not a valid CheckStatus"))
  end.

(** The columns the modelled services read or write.  Where two tables have
    a column of the same name the field carries the table in its name. *)
Record User : Type := {
  user_pk : Z;              (* [User.id] *)
  telegram_id : Z
}.

Record Service : Type := {
  service_pk : Z;           (* [Service.id] *)
  category : str;
  service_name_of : str;    (* [Service.service_name] *)
  base_url : str;
  total_checks : Z;
  last_appointments_at : option Z
}.

Record Subscription : Type := {
  sub_id : Z;               (* [Subscription.id] *)
  user_id : Z;
  service_id : Z;
  active : bool;
  interval_hours : Z;
  quantity : Z;
  notify_telegram : bool;
  last_checked_at : option Z
}.

Record Check : Type := {
  check_id : Z;             (* [Check.id] *)
  subscription_id : Z;
  check_status : CheckStatus;             (* [Check.status] *)
  check_available : bool;                 (* [Check.available] *)
  appointment_count : Z;
  check_screenshot_path : option str;     (* [Check.screenshot_path] *)
  check_error_message : option str;       (* [Check.error_message] *)
  check_checked_at : Z                    (* [Check.checked_at] *)
}.

Record Appointment : Type := {
  appointment_id : Z;       (* [Appointment.id] *)
  appointment_check_id : Z; (* [Appointment.check_id] *)
  appointment_date : str;
  appointment_time : str;
  location : str;
  raw_text : str;
  notified : bool
}.

(** The rendered text of a notification, field by field in the order the
    f-strings put them. *)
Record Message : Type := {
  msg_service : str;
  msg_category : str;
  msg_found : nat;                        (* [len(appointments)] *)
  msg_lines : list (nat * str * str);     (* index, date, time *)
  msg_more : option nat;                  (* "... and n more" *)
  msg_base_url : str;
  msg_checked_at : Z
}.

Record Notification : Type := {
  notification_id : Z;         (* [Notification.id] *)
  notification_user_id : Z;    (* [Notification.user_id] *)
  notification_check_id : Z;   (* [Notification.check_id] *)
  notification_type : option str;         (* [nullable=False], no default *)
  notification_message : option Message;
  sent_at : Z;
  success : bool;
  notification_error : option str
}.

Record DB : Type := {
  users : list User;
  services : list Service;
  subscriptions : list Subscription;
  checks : list Check;
  appointment_rows : list Appointment;
  notifications : list Notification
}.

(** The next value of an autoincrement primary key. *)
Definition next_pk {A} (pk : A -> Z) (rows : list A) : Z :=
  1 + fold_right (fun r m => Z.max (pk r) m) 0 rows.

Definition set_subscriptions (db : DB) (l : list Subscription) : DB :=
  {| users := users db; services := services db; subscriptions := l;
     checks := checks db; appointment_rows := appointment_rows db;
     notifications := notifications db |}.

(** [UPDATE ... WHERE id = pk] *)
Definition update_where {A} (pk : A -> Z) (id : Z) (f : A -> A) (rows : list A)
  : list A :=
  map (fun r => if pk r =? id then f r else r) rows.

(* ================================================================== *)
(** ** subscription_service.py                                         *)
(* ================================================================== *)

Definition reactivate (interval_hours0 quantity0 : Z) (notify_telegram0 : bool)
           (existing : Subscription) : Subscription :=
  {| sub_id := sub_id existing; user_id := user_id existing;
     service_id := service_id existing;
     active := true;
     interval_hours := interval_hours0;
     quantity := quantity0;
     notify_telegram := notify_telegram0;
     last_checked_at := last_checked_at existing |}.

Definition subscription_by_id (id : Z) (l : list Subscription)
  : option Subscription :=
  find (fun s => sub_id s =? id) l.

(** The foreign keys of [subscriptions], [users.id] and [services.id]: the
    store enforces them on an insert. *)
Definition references_exist (db : DB) (user_id0 service_id0 : Z) : bool :=
  existsb (fun u => user_pk u =? user_id0) (users db)
  && existsb (fun s => service_pk s =? service_id0) (services db).

(** [SubscriptionService.create_subscription] *)
Definition create_subscription (db : DB) (user_id0 service_id0 : Z)
           (interval_hours0 quantity0 : Z) (notify_telegram0 : bool)
  : DB * option Subscription :=
  match find (fun s => (user_id s =? user_id0) && (service_id s =? service_id0))
             (subscriptions db) with
  | Some existing =>
      let db' :=
        if negb (active existing) then
          set_subscriptions db
            (update_where sub_id (sub_id existing)
               (reactivate interval_hours0 quantity0 notify_telegram0)
               (subscriptions db))
        else db in
      (db', subscription_by_id (sub_id existing) (subscriptions db'))
  | None =>
      if references_exist db user_id0 service_id0 then
        let subscription :=
          {| sub_id := next_pk sub_id (subscriptions db);
             user_id := user_id0; service_id := service_id0;
             active := true;
             interval_hours := interval_hours0;
             quantity := quantity0;
             notify_telegram := notify_telegram0;
             last_checked_at := None |} in
        let db' := set_subscriptions db (subscriptions db ++ [subscription]) in
        (db', subscription_by_id (sub_id subscription) (subscriptions db'))
      else
        (* the commit raises IntegrityError, the session is rolled back and
           the [except] clause returns [None] *)
        (db, None)
  end.

(** The test of the loop of [get_subscriptions_due_for_check]. *)
Definition is_due (now : Z) (sub : Subscription) : bool :=
  match last_checked_at sub with
  | None => true
  | Some last =>
      let time_since_check := now - last in
      time_since_check >=? timedelta_hours (interval_hours sub)
  end.

(** [SubscriptionService.get_subscriptions_due_for_check] *)
Definition get_subscriptions_due_for_check (now : Z) (db : DB)
  : list Subscription :=
  filter (is_due now) (filter active (subscriptions db)).

(* ================================================================== *)
(** ** check_service.py                                                *)
(* ================================================================== *)

(** What the outside world does during one run of a subscription check: the
    browser session, and the clock read by the error branch. *)
Record ProbeEnv : Type := {
  session : Session;
  handler_clock : Z
}.

(** [x or ""] *)
Definition or_empty (o : option str) : str :=
  match o with
  | Some s => s
  | None => []
  end.

(** The [Appointment] rows added for the slots of a result. *)
Fixpoint appointment_records (check_pk next : Z) (slots : list AppointmentSlot)
  : list Appointment :=
  match slots with
  | [] => []
  | apt_slot :: rest =>
      {| appointment_id := next;
         appointment_check_id := check_pk;
         appointment_date := or_empty (slot_date apt_slot);
         appointment_time := or_empty (slot_time apt_slot);
         location := or_empty (slot_location apt_slot);
         raw_text := slot_raw_text apt_slot;
         notified := false |}
      :: appointment_records check_pk (next + 1) rest
  end.

Definition set_last_checked_at (t : Z) (s : Subscription) : Subscription :=
  {| sub_id := sub_id s; user_id := user_id s; service_id := service_id s;
     active := active s; interval_hours := interval_hours s;
     quantity := quantity s; notify_telegram := notify_telegram s;
     last_checked_at := Some t |}.

Definition count_check (was_available : bool) (t : Z) (s : Service) : Service :=
  {| service_pk := service_pk s; category := category s;
     service_name_of := service_name_of s; base_url := base_url s;
     total_checks := total_checks s + 1;
     last_appointments_at :=
       if was_available then Some t else last_appointments_at s |}.

Definition add_check (db : DB) (c : Check) : DB :=
  {| users := users db; services := services db;
     subscriptions := subscriptions db;
     checks := checks db ++ [c];
     appointment_rows := appointment_rows db;
     notifications := notifications db |}.

Section CheckService.
Context {U : Unicode}.

(** The [with] block of [run_subscription_check]: what it commits and
    returns, or the exception that leaves it (the session rolls back). *)
Definition run_subscription_check_body (e : Session) (db : DB)
           (subscription_id0 : Z) : outcome (DB * option Check) :=
  match find (fun s => (sub_id s =? subscription_id0) && active s)
             (subscriptions db) with
  | None => Ok (db, None)
  | Some subscription =>
      match find (fun s => service_pk s =? service_id subscription) (services db),
            find (fun u => user_pk u =? user_id subscription) (users db) with
      | Some service, Some user =>
          match returned (check_appointments e (category service)
                            (service_name_of service) (quantity subscription)) with
          | Raise x => Raise x
          | Ok result =>
              match CheckStatus_of (status result) with
              | Raise x => Raise x
              | Ok st =>
                  let check :=
                    {| check_id := next_pk check_id (checks db);
                       subscription_id := sub_id subscription;
                       check_status := st;
                       check_available := available result;
                       appointment_count :=
                         Z.of_nat (length (appointments result));
                       check_screenshot_path := screenshot_path result;
                       check_error_message := error_message result;
                       check_checked_at := checked_at result |} in
                  let db' :=
                    {| users := users db;
                       services :=
                         update_where service_pk (service_pk service)
                           (count_check (available result) (check_checked_at check))
                           (services db);
                       subscriptions :=
                         update_where sub_id (sub_id subscription)
                           (set_last_checked_at (check_checked_at check))
                           (subscriptions db);
                       checks := checks db ++ [check];
                       appointment_rows :=
                         appointment_rows db
                         ++ appointment_records (check_id check)
                              (next_pk appointment_id (appointment_rows db))
                              (appointments result);
                       notifications := notifications db |} in
                  Ok (db', find (fun c => check_id c =? check_id check) (checks db'))
              end
          end
      | _, _ =>
          Raise (OtherException (lit "'NoneType' object has no attribute"))
      end
  end.

(** [CheckService.run_subscription_check] *)
Definition run_subscription_check (env : ProbeEnv) (db : DB)
           (subscription_id0 : Z) : DB * outcome (option Check) :=
  match run_subscription_check_body (session env) db subscription_id0 with
  | Ok (db', r) => (db', Ok r)
  | Raise e =>
      (* Try to save error state *)
      let check :=
        {| check_id := next_pk check_id (checks db);
           subscription_id := subscription_id0;
           check_status := ERROR;
           check_available := false;
           appointment_count := 0;
           check_screenshot_path := None;
           check_error_message := Some (exn_str e);
           check_checked_at := handler_clock env |} in
      (add_check db check, Ok (Some check))
  end.

End CheckService.

(* ================================================================== *)
(** ** scheduler.py                                                    *)
(* ================================================================== *)

(** What one turn of the loop of the tick writes to the log. *)
Inductive TickLog : Type :=
| LogFound (id : Z) (count : Z)
| LogNoAppointments (id : Z)
| LogError (id : Z) (e : exn).

Definition logged_id (l : TickLog) : Z :=
  match l with
  | LogFound id _ => id
  | LogNoAppointments id => id
  | LogError id _ => id
  end.

(** [sessionmaker(autocommit=False, autoflush=False, bind=self.engine)] of
    [database.py]. *)
Record SessionSettings : Type := {
  autocommit : bool;
  autoflush : bool;
  expire_on_commit : bool
}.

(** [Database.SessionLocal]: [expire_on_commit] is not given and keeps its
    default. *)
Definition SessionLocal : SessionSettings :=
  {| autocommit := false; autoflush := false; expire_on_commit := true |}.

(** Reading a column of a row after the [with] block of [get_session] that
    loaded it was left.  [get_session] commits and closes the session on the
    way out; with [expire_on_commit] the commit expires the row, and an
    expired row without a session cannot be loaded again. *)
Definition attribute (settings : SessionSettings) {A B : Type}
           (column : A -> B) (row : A) : outcome B :=
  if expire_on_commit settings
  then Raise (OtherException
                (lit "DetachedInstanceError: Instance is not bound to a Session; attribute refresh operation cannot proceed"))
  else Ok (column row).

Definition and_next {A B : Type} (m : outcome A) (k : A -> outcome B)
  : outcome B :=
  match m with
  | Ok a => k a
  | Raise e => Raise e
  end.

Section Scheduler.
(** The settings of the sessions the rows come from. *)
Variable settings : SessionSettings.
(** [self.check_service.run_subscription_check], which may raise. *)
Variable run_check : DB -> Z -> DB * outcome (option Check).

(** The [try] block of one turn of the loop: the store after it, and the
    line it logs or the exception that leaves it. *)
Definition turn_body (subscription : Subscription) (db : DB)
  : DB * outcome TickLog :=
  match attribute settings sub_id subscription with
  | Raise e => (db, Raise e)
  | Ok id =>
      let '(db1, r) := run_check db id in
      (db1,
       match r with
       | Raise e => Raise e
       | Ok None =>
           and_next (attribute settings sub_id subscription)
                    (fun id' => Ok (LogNoAppointments id'))
       | Ok (Some check) =>
           and_next (attribute settings check_available check)
             (fun available0 =>
                if available0 then
                  and_next (attribute settings appointment_count check)
                    (fun count0 =>
                       and_next (attribute settings sub_id subscription)
                                (fun id' => Ok (LogFound id' count0)))
                else
                  and_next (attribute settings sub_id subscription)
                           (fun id' => Ok (LogNoAppointments id')))
       end)
  end.

(** One turn: the [try] block and its handler, which reads
    [subscription.id] for its message. *)
Definition turn (subscription : Subscription) (db : DB)
  : DB * outcome TickLog :=
  let '(db1, r) := turn_body subscription db in
  (db1,
   match r with
   | Ok line => Ok line
   | Raise e =>
       and_next (attribute settings sub_id subscription)
                (fun id => Ok (LogError id e))
   end).

(** The [for] loop of the tick, with the exception that leaves it, if
    any; [asyncio.sleep(2)] between two turns changes nothing in the
    store. *)
Fixpoint check_loop (due : list Subscription) (db : DB)
  : DB * list TickLog * option exn :=
  match due with
  | [] => (db, [], None)
  | subscription :: rest =>
      match turn subscription db with
      | (db1, Raise e) => (db1, [], Some e)
      | (db1, Ok line) =>
          let '(db2, log, raised) := check_loop rest db1 in
          (db2, line :: log, raised)
      end
  end.

(** [SchedulerService._check_all_due_subscriptions]: the store after the
    tick, the lines of the turns that were completed, and the exception
    the outer [except] caught and logged, if any. *)
Definition _check_all_due_subscriptions (now : Z) (db : DB)
  : DB * list TickLog * option exn :=
  match get_subscriptions_due_for_check now db with
  | [] => (db, [], None)
  | (_ :: _) as due_subscriptions => check_loop due_subscriptions db
  end.

End Scheduler.

(* ================================================================== *)
(** ** notification_service.py                                         *)
(* ================================================================== *)

Fixpoint numbered (idx : nat) (l : list Appointment) : list (nat * str * str) :=
  match l with
  | [] => []
  | apt :: rest =>
      (idx, appointment_date apt, appointment_time apt) :: numbered (S idx) rest
  end.

(** The message built by [send_appointment_notification]. *)
Definition render (service : Service) (check : Check)
           (appointments0 : list Appointment) : Message :=
  {| msg_service := service_name_of service;
     msg_category := category service;
     msg_found := length appointments0;
     msg_lines := numbered 1 (firstn 15 appointments0);
     msg_more :=
       if (15 <? length appointments0)%nat
       then Some (length appointments0 - 15)%nat else None;
     msg_base_url := base_url service;
     msg_checked_at := check_checked_at check |}.

(** [session.add(notification); session.commit()]: the column
    [notification_type] is declared [nullable=False]. *)
Definition insert_notification (db : DB) (n : Notification) : outcome DB :=
  match notification_type n with
  | None =>
      Raise (OtherException
               (lit "NOT NULL constraint failed: notifications.notification_type"))
  | Some _ =>
      Ok {| users := users db; services := services db;
            subscriptions := subscriptions db; checks := checks db;
            appointment_rows := appointment_rows db;
            notifications := notifications db ++ [n] |}
  end.

(** The messages the transport has accepted, with their chat ids. *)
Definition Outbox : Type := list (Z * Message).

(** [check.subscription.service] *)
Definition service_of_check (db : DB) (check : Check) : option Service :=
  match subscription_by_id (subscription_id check) (subscriptions db) with
  | Some sub => find (fun s => service_pk s =? service_id sub) (services db)
  | None => None
  end.

(** [NotificationService.send_appointment_notification]; [send_message] is
    the bot, [now] the clock of [sent_at]. *)
Definition send_appointment_notification
           (send_message : Z -> Message -> outcome unit) (now : Z)
           (db : DB) (outbox : Outbox)
           (user : User) (check : Check) (appointments0 : list Appointment)
  : DB * Outbox * bool :=
  match service_of_check db check with
  | None => (db, outbox, false)
  | Some service =>
      let message := render service check appointments0 in
      match send_message (telegram_id user) message with
      | Ok _ =>
          let outbox' := outbox ++ [(telegram_id user, message)] in
          match insert_notification db
                  {| notification_id := next_pk notification_id (notifications db);
                     notification_user_id := user_pk user;
                     notification_check_id := check_id check;
                     notification_type := None;
                     notification_message := Some message;
                     sent_at := now; success := true;
                     notification_error := None |} with
          | Ok db' => (db', outbox', true)
          | Raise _ => (db, outbox', false)
          end
      | Raise (TelegramError m) =>
          match insert_notification db
                  {| notification_id := next_pk notification_id (notifications db);
                     notification_user_id := user_pk user;
                     notification_check_id := check_id check;
                     notification_type := None;
                     notification_message := Some message;
                     sent_at := now; success := false;
                     notification_error := Some m |} with
          | Ok db' => (db', outbox, false)
          | Raise _ => (db, outbox, false)
          end
      | Raise _ => (db, outbox, false)
      end
  end.

(* ================================================================== *)
(** ** Predicates of the specification                                 *)
(* ================================================================== *)

(** [UniqueConstraint('user_id', 'service_id', name='uix_user_service')] *)
Definition uix_user_service (db : DB) : Prop :=
  NoDup (map (fun s => (user_id s, service_id s)) (subscriptions db)).

(** The primary key of [subscriptions]. *)
Definition subscriptions_pk (db : DB) : Prop :=
  NoDup (map sub_id (subscriptions db)).

(** The character before the position reached after reading [pre]. *)
Definition prev_of (prev : option N) (pre : str) : option N :=
  fold_left (fun _ c => Some c) pre prev.

(** A one-digit day or month padded to two digits. *)
Definition two_digits (s : str) : str :=
  match s with
  | [a] => [48%N; a]
  | _ => s
  end.

Section Shapes.
Context {U : Unicode}.

(** Day, month and year as the pattern reads them: one or two digits, one
    or two digits, four digits. *)
Definition date_shape (d m y : str) : Prop :=
  forallb is_digit d = true /\ (length d = 1 \/ length d = 2)%nat
  /\ forallb is_digit m = true /\ (length m = 1 \/ length m = 2)%nat
  /\ forallb is_digit y = true /\ length y = 4%nat.

(** The text contains [D.M.YYYY] standing between word boundaries. *)
Definition has_date_pattern (text : str) : Prop :=
  exists pre d m y post,
    text = pre ++ d ++ 46%N :: m ++ 46%N :: y ++ post
    /\ date_shape d m y
    /\ Re.word_at (prev_of None pre) = false
    /\ Re.word_at (hd_error post) = false.

(** Hour and minutes as the pattern reads them. *)
Definition time_shape (h m : str) : Prop :=
  forallb is_digit h = true /\ (length h = 1 \/ length h = 2)%nat
  /\ forallb is_digit m = true /\ length m = 2%nat.

(** [run_subscription_check] with the world of each subscription. *)
Definition probe (env : Z -> ProbeEnv) (db : DB) (id : Z) : DB * outcome (option Check) :=
  run_subscription_check (env id) db id.

End Shapes.

(** The rows a check looks up: ids and [active] flags. *)
Definition probe_keys (db : DB) : list (Z * bool) :=
  map (fun s => (sub_id s, active s)) (subscriptions db).

(** The (date, time) pairs already sent to a chat. *)
Definition notified_pairs (chat : Z) (outbox : Outbox) : list (str * str) :=
  flat_map (fun '(c, m) =>
              if c =? chat then map (fun '(_, d, t) => (d, t)) (msg_lines m)
              else [])
           outbox.

Definition pair_eqb (a b : str * str) : bool :=
  str_eqb (fst a) (fst b) && str_eqb (snd a) (snd b).

(** The deduplication the specification asks for: what is forwarded is the
    part of the appointments that was not sent to the chat before. *)
Definition forwards_only_new
           (send_message : Z -> Message -> outcome unit) (now : Z)
           (db : DB) (outbox : Outbox)
           (user : User) (check : Check) (appointments0 : list Appointment)
  : Prop :=
  let '(_, outbox', _) :=
    send_appointment_notification send_message now db outbox user check appointments0 in
  map (fun '(_, d, t) => (d, t))
      (flat_map (fun '(_, m) => msg_lines m) (skipn (length outbox) outbox'))
  = filter (fun p => negb (existsb (pair_eqb p)
                                   (notified_pairs (telegram_id user) outbox)))
           (map (fun a => (appointment_date a, appointment_time a)) appointments0).

(* ================================================================== *)
(** ** Pages, sessions and stores used in the examples                 *)
(* ================================================================== *)

Definition page_of (html : str) (headers : list Header) : Page :=
  {| content := Ok html;
     date_headers := Ok headers;
     panel_buttons := fun _ => Ok [];
     screenshot := fun label => Ok (label ++ lit ".png") |}.

Definition blank_page : Page := page_of [] [].

(** A header "Montag, 01.01.2030" whose panel offers "10:00". *)
Definition stray_header : Header :=
  {| header_text_content := Ok (Some (lit "Montag, 01.01.2030"));
     aria_controls := Ok None;
     sibling_buttons := Ok [ {| button_text_content := Ok (Some (lit "10:00")) |} ] |}.

(** A header without a date. *)
Definition undated_header : Header :=
  {| header_text_content := Ok (Some (lit " Termine "));
     aria_controls := Ok None;
     sibling_buttons := Ok [ {| button_text_content := Ok (Some (lit "10:00")) |} ] |}.

(** A page with the first negative phrase and the stray header. *)
Definition stale_page : Page :=
  page_of (lit "<p>Zurzeit sind keine Termine frei</p><h3>Montag, 01.01.2030</h3>")
          [stray_header].

(** A page with one date header and one time button. *)
Definition one_button_page (date_text time_text : str) : Page :=
  page_of []
    [ {| header_text_content := Ok (Some date_text);
         aria_controls := Ok None;
         sibling_buttons := Ok [ {| button_text_content := Ok (Some time_text) |} ] |} ].

Definition session_with (nav : outcome unit) (p : Page) (t : Z) : Session :=
  {| playwright_start := Ok tt; launch := Ok tt; new_page := Ok tt;
     navigate := nav; networkidle := Ok tt;
     terminal := p; close := Ok tt; result_clock := t |}.

(** A session in which the browser cannot be launched, as on a host without
    a display (the default configuration has [headless] off). *)
Definition launch_fails : Session :=
  {| playwright_start := Ok tt;
     launch := Raise (OtherException (lit "Executable doesn't exist"));
     new_page := Ok tt; navigate := Ok tt; networkidle := Ok tt;
     terminal := blank_page; close := Ok tt; result_clock := 0 |}.

Definition sample_service : Service :=
  {| service_pk := 1; category := lit "Abholung"; service_name_of := lit "Abholung F";
     base_url := lit "https://termine.duesseldorf.de/select2?md=3";
     total_checks := 0; last_appointments_at := None |}.

Definition sample_user : User := {| user_pk := 1; telegram_id := 1001 |}.

Definition watch (id : Z) (last : option Z) : Subscription :=
  {| sub_id := id; user_id := id; service_id := 1; active := true;
     interval_hours := 1; quantity := 1; notify_telegram := true;
     last_checked_at := last |}.

Definition one_watch_db : DB :=
  {| users := [ {| user_pk := 1; telegram_id := 1001 |} ];
     services := [sample_service];
     subscriptions := [watch 1 None];
     checks := []; appointment_rows := []; notifications := [] |}.

Definition three_watch_db : DB :=
  {| users := [ {| user_pk := 1; telegram_id := 1001 |};
                {| user_pk := 2; telegram_id := 1002 |};
                {| user_pk := 3; telegram_id := 1003 |} ];
     services := [sample_service];
     subscriptions := [watch 1 None; watch 2 None; watch 3 None];
     checks := []; appointment_rows := []; notifications := [] |}.

(** The first watch sees the negative phrase, the second times out during
    navigation, the third finds a slot. *)
Definition three_watch_env (id : Z) : ProbeEnv :=
  {| session :=
       if id =? 1 then session_with (Ok tt) stale_page 10
       else if id =? 2 then
         session_with (Raise (PlaywrightTimeout (lit "Timeout 10000ms exceeded")))
                      blank_page 20
       else session_with (Ok tt)
              (page_of (lit "<h3>Montag, 01.01.2030</h3>") [stray_header]) 30;
     handler_clock := 99 |}.

(** As before, but for the second watch the browser cannot be launched. *)
Definition second_cannot_launch (id : Z) : ProbeEnv :=
  if id =? 2 then {| session := launch_fails; handler_clock := 25 |}
  else three_watch_env id.

(** A store whose only subscription was cancelled. *)
Definition lapsed_db : DB :=
  {| users := [ {| user_pk := 7; telegram_id := 1007 |} ];
     services := [sample_service];
     subscriptions :=
       [ {| sub_id := 5; user_id := 7; service_id := 1; active := false;
            interval_hours := 1; quantity := 1; notify_telegram := true;
            last_checked_at := Some 30 |} ];
     checks := []; appointment_rows := []; notifications := [] |}.

Definition sample_check : Check :=
  {| check_id := 1; subscription_id := 1; check_status := APPOINTMENTS_FOUND;
     check_available := true; appointment_count := 1;
     check_screenshot_path := None; check_error_message := None;
     check_checked_at := 30 |}.

Definition sample_appointment : Appointment :=
  {| appointment_id := 1; appointment_check_id := 1;
     appointment_date := lit "2025-11-18"; appointment_time := lit "14:00";
     location := []; raw_text := lit "Dienstag, 18.11.2025 14:00";
     notified := false |}.

Definition checked_db : DB :=
  {| users := [sample_user]; services := [sample_service];
     subscriptions := [watch 1 (Some 30)];
     checks := [sample_check]; appointment_rows := [sample_appointment];
     notifications := [] |}.

(** The settings of a session factory made with [expire_on_commit=False],
    whose rows stay loaded after the session is closed. *)
Definition kept_loaded : SessionSettings :=
  {| autocommit := false; autoflush := false; expire_on_commit := false |}.

Definition always_delivers : Z -> Message -> outcome unit := fun _ _ => Ok tt.

(** The store and outbox after the slot was sent once. *)
Definition sent_once : DB * Outbox * bool :=
  send_appointment_notification always_delivers 40 checked_db []
                                sample_user sample_check [sample_appointment].

(* ================================================================== *)
(** ** subscription_service.py: the other operations                   *)
(* ================================================================== *)

(** [SubscriptionService.get_user_subscriptions] *)
Definition get_user_subscriptions (db : DB) (user_id0 : Z) (active_only : bool)
  : list Subscription :=
  let query := filter (fun s => user_id s =? user_id0) (subscriptions db) in
  if active_only then filter active query else query.

(** [SubscriptionService.get_subscription] *)
Definition get_subscription (db : DB) (subscription_id0 : Z)
  : option Subscription :=
  subscription_by_id subscription_id0 (subscriptions db).

Definition deactivate (s : Subscription) : Subscription :=
  {| sub_id := sub_id s; user_id := user_id s; service_id := service_id s;
     active := false; interval_hours := interval_hours s;
     quantity := quantity s; notify_telegram := notify_telegram s;
     last_checked_at := last_checked_at s |}.

(** [SubscriptionService.delete_subscription] *)
Definition delete_subscription (db : DB) (subscription_id0 : Z) : DB * bool :=
  match subscription_by_id subscription_id0 (subscriptions db) with
  | None => (db, false)
  | Some subscription =>
      (set_subscriptions db
         (update_where sub_id (sub_id subscription) deactivate (subscriptions db)),
       true)
  end.

(** [SubscriptionService.get_all_active_subscriptions] *)
Definition get_all_active_subscriptions (db : DB) : list Subscription :=
  filter active (subscriptions db).

(* ================================================================== *)
(** ** scheduler.py: manual checks, start and stop                     *)
(* ================================================================== *)

(** [SchedulerService.check_subscription_now] *)
Definition check_subscription_now
           (run_check : DB -> Z -> DB * outcome (option Check))
           (db : DB) (subscription_id0 : Z) : DB * option Check :=
  match run_check db subscription_id0 with
  | (db', Ok check) => (db', check)
  | (db', Raise _) => (db', None)
  end.

(** The calls [SchedulerService] makes on its [AsyncIOScheduler]. *)
Inductive SchedulerCall : Type :=
| AddJob (id : str)     (* [add_job(..., id=.., replace_existing=True)] *)
| Start                 (* [scheduler.start()] *)
| Shutdown.             (* [scheduler.shutdown()] *)

Record SchedulerState : Type := {
  running : bool;                      (* [self.running] *)
  scheduler_calls : list SchedulerCall (* in the order they were made *)
}.

(** [SchedulerService.__init__] *)
Definition new_scheduler : SchedulerState :=
  {| running := false; scheduler_calls := [] |}.

(** [SchedulerService.start] *)
Definition start (st : SchedulerState) : SchedulerState :=
  if running st then st
  else {| running := true;
          scheduler_calls :=
            scheduler_calls st ++ [AddJob (lit "check_subscriptions"); Start] |}.

(** [SchedulerService.stop] *)
Definition stop (st : SchedulerState) : SchedulerState :=
  if negb (running st) then st
  else {| running := false;
          scheduler_calls := scheduler_calls st ++ [Shutdown] |}.

Inductive SchedulerCommand : Type := DoStart | DoStop.

Definition run_command (st : SchedulerState) (c : SchedulerCommand)
  : SchedulerState :=
  match c with
  | DoStart => start st
  | DoStop => stop st
  end.

(** Whether [Start] and [Shutdown] alternate in a sequence of calls, for a
    scheduler that is [started] or not before them: [None] when a [Start]
    meets a started scheduler or a [Shutdown] a stopped one, and otherwise
    whether the scheduler is started after the calls. *)
Fixpoint replay (started : bool) (calls : list SchedulerCall) : option bool :=
  match calls with
  | [] => Some started
  | AddJob _ :: rest => replay started rest
  | Start :: rest => if started then None else replay true rest
  | Shutdown :: rest => if started then replay false rest else None
  end.

(* ================================================================== *)
(** ** Predicates for the further properties                           *)
(* ================================================================== *)

(** What every [CheckResult] handed back by [check_appointments] satisfies:
    one of four statuses, [available] exactly for [appointments_found],
    which is exactly when there are appointments, an error message exactly
    for [error] and [unknown], and the names of the request. *)
Definition result_invariant (service category : str) (r : CheckResult) : Prop :=
  In (status r) [lit "no_appointments"; lit "appointments_found";
                 lit "unknown"; lit "error"]
  /\ (available r = true <-> status r = lit "appointments_found")
  /\ (available r = true <-> appointments r <> [])
  /\ (error_message r = None
      <-> status r = lit "no_appointments" \/ status r = lit "appointments_found")
  /\ service_name r = service /\ category_name r = category.

(** A session whose navigation runs into a timeout. *)
Definition timeout_session : Session :=
  session_with (Raise (PlaywrightTimeout (lit "Timeout 10000ms exceeded")))
               blank_page 20.

(** The check stored for the third watch of [three_watch_db], whose page
    offers one slot. *)
Definition slot_check : Check :=
  {| check_id := 1; subscription_id := 3;
     check_status := APPOINTMENTS_FOUND; check_available := true;
     appointment_count := 1;
     check_screenshot_path := Some (lit "appointments_found.png");
     check_error_message := None; check_checked_at := 30 |}.


Section SlotShape.
Context {U : Unicode}.

(** A slot as the extractor builds it: the date is a date read by the date
    pattern, written year, month, day with month and day padded; the time is
    a token read by the time pattern, as written; there is no location. *)
Definition slot_well_formed (s : AppointmentSlot) : Prop :=
  (exists d m y,
      date_shape d m y
      /\ slot_date s = Some (y ++ 45%N :: two_digits m ++ 45%N :: two_digits d))
  /\ (exists h mi, time_shape h mi /\ slot_time s = Some (h ++ 58%N :: mi))
  /\ slot_location s = None.

End SlotShape.

(** A header whose text cannot be read. *)
Definition unreadable_header : Header :=
  {| header_text_content := Raise (PlaywrightTimeout (lit "Timeout 30000ms exceeded"));
     aria_controls := Ok None;
     sibling_buttons := Ok [] |}.

(* ================================================================== *)
(** ** appointment_checker.py: driving the booking form                *)
(* ================================================================== *)

(** The calls the driver makes on the page, with their arguments. *)
Inductive Action : Type :=
| Goto (url : str)                               (* [page.goto] *)
| ClickRole (name : str) (timeout : option Z)    (* [get_by_role("button", name=..).click] *)
| ClickText (text : str) (timeout : Z)           (* [get_by_text(.., exact=True).click] *)
| ClickRow (has_text : str)                      (* [locator("li").filter(has_text=..).first.click] *)
| WaitForTimeout (ms : Z)                        (* [page.wait_for_timeout] *)
| ExpectVisible (selector : str) (timeout : Z)   (* [expect(spin).to_be_visible] *)
| Fill (text : str)                              (* [spin.fill] *)
| TypeText (text : str)                          (* [spin.type] *)
| Press (key : str)                              (* [spin.press] *)
| ExpectEnabled (name : str) (timeout : Z)       (* [expect(weiter).to_be_enabled] *)
| WaitForLoadState (state : str)                 (* [page.wait_for_load_state] *)
| Count (selector : str)                         (* [page.locator(..).count] *)
| ClickFirst (selector : str).                   (* [popup.first.click] *)

(** The site: what a call does after the calls made so far, and how many
    elements a selector matches then. *)
Record Site : Type := {
  react : list Action -> Action -> outcome unit;
  matches : list Action -> str -> outcome nat
}.

(** A piece of the driver: from the calls made so far to the calls made
    after it and its result. *)
Definition Step (A : Type) : Type := list Action -> list Action * outcome A.

Definition done {A} (a : A) : Step A := fun tr => (tr, Ok a).

Definition and_then {A B} (m : Step A) (k : A -> Step B) : Step B :=
  fun tr =>
    match m tr with
    | (tr', Ok a) => k a tr'
    | (tr', Raise e) => (tr', Raise e)
    end.

Notation "m ;;; k" := (and_then m (fun _ => k))
  (at level 61, right associativity).

Definition perform (site : Site) (a : Action) : Step unit :=
  fun tr => (tr ++ [a], react site tr a).

Definition count (site : Site) (selector : str) : Step nat :=
  fun tr => (tr ++ [Count selector], matches site tr selector).

(** [str(n)] for an [int]. *)
Fixpoint decimal_digits (u : Decimal.uint) : str :=
  match u with
  | Decimal.Nil => []
  | Decimal.D0 u' => 48%N :: decimal_digits u'
  | Decimal.D1 u' => 49%N :: decimal_digits u'
  | Decimal.D2 u' => 50%N :: decimal_digits u'
  | Decimal.D3 u' => 51%N :: decimal_digits u'
  | Decimal.D4 u' => 52%N :: decimal_digits u'
  | Decimal.D5 u' => 53%N :: decimal_digits u'
  | Decimal.D6 u' => 54%N :: decimal_digits u'
  | Decimal.D7 u' => 55%N :: decimal_digits u'
  | Decimal.D8 u' => 56%N :: decimal_digits u'
  | Decimal.D9 u' => 57%N :: decimal_digits u'
  end.

Definition str_of_int (n : Z) : str :=
  match Z.to_int n with
  | Decimal.Pos u => decimal_digits u
  | Decimal.Neg u => 45%N :: decimal_digits u
  end.

Definition cookie_buttons : list str :=
  [lit "Akzeptieren"; lit "Alle akzeptieren"; lit "Zustimmen"; lit "OK"].

(** 228 is a-umlaut. *)
Definition popup_buttons : list str :=
  [lit "button:has-text('OK')"; lit "button:has-text('Fortfahren')";
   lit "button:has-text('Best" ++ 228%N :: lit "tigen')"].

Section Driver.
Variable site : Site.

(** The loop of [_handle_cookie_consent]: a button that cannot be clicked,
    or the wait after it, is passed over. *)
Fixpoint consent_loop (buttons : list str) : Step unit :=
  fun tr =>
    match buttons with
    | [] => (tr, Ok tt)
    | button_text :: rest =>
        match (perform site (ClickRole button_text (Some 3000)) ;;;
               perform site (WaitForTimeout 500)) tr with
        | (tr', Ok _) => (tr', Ok tt)
        | (tr', Raise _) => consent_loop rest tr'
        end
    end.

(** [AppointmentChecker._handle_cookie_consent] *)
Definition _handle_cookie_consent : Step unit := consent_loop cookie_buttons.

(** The loop of [_handle_popup]. *)
Fixpoint popup_loop (selectors : list str) : Step unit :=
  fun tr =>
    match selectors with
    | [] => (tr, Ok tt)
    | selector :: rest =>
        match count site selector tr with
        | (tr1, Ok n) =>
            if (0 <? n)%nat then
              match (perform site (ClickFirst selector) ;;;
                     perform site (WaitForTimeout 500)) tr1 with
              | (tr2, Ok _) => (tr2, Ok tt)
              | (tr2, Raise _) => popup_loop rest tr2
              end
            else popup_loop rest tr1
        | (tr1, Raise _) => popup_loop rest tr1
        end
    end.

(** [AppointmentChecker._handle_popup] *)
Definition _handle_popup : Step unit := popup_loop popup_buttons.

(** [AppointmentChecker._set_quantity] *)
Definition _set_quantity (quantity0 : Z) : Step unit :=
  perform site (ExpectVisible (lit "input[type=number]") 10000) ;;;
  perform site (Fill []) ;;;
  perform site (TypeText (str_of_int quantity0)) ;;;
  perform site (Press (lit "Tab")).

(** [AppointmentChecker._navigate_to_service] *)
Definition _navigate_to_service (url category0 service0 : str) (quantity0 : Z)
  : Step unit :=
  perform site (Goto url) ;;;
  _handle_cookie_consent ;;;
  perform site (ClickText category0 10000) ;;;
  perform site (WaitForTimeout 500) ;;;
  perform site (ClickRow service0) ;;;
  perform site (WaitForTimeout 300) ;;;
  _set_quantity quantity0 ;;;
  perform site (ExpectEnabled (lit "Weiter") 10000) ;;;
  perform site (ClickRole (lit "Weiter") None) ;;;
  perform site (WaitForLoadState (lit "domcontentloaded")) ;;;
  _handle_popup ;;;
  perform site (ClickRole (lit "Weiter") (Some 10000)) ;;;
  perform site (WaitForLoadState (lit "domcontentloaded")).

End Driver.

(** The calls of a run that got through, around the optional ones for the
    cookie banner and the popup. *)
Definition form_calls (url category0 service0 : str) (quantity0 : Z)
           (consent popup : list Action) : list Action :=
  [Goto url] ++ consent
  ++ [ClickText category0 10000; WaitForTimeout 500;
      ClickRow service0; WaitForTimeout 300;
      ExpectVisible (lit "input[type=number]") 10000;
      Fill []; TypeText (str_of_int quantity0); Press (lit "Tab");
      ExpectEnabled (lit "Weiter") 10000; ClickRole (lit "Weiter") None;
      WaitForLoadState (lit "domcontentloaded")]
  ++ popup
  ++ [ClickRole (lit "Weiter") (Some 10000);
      WaitForLoadState (lit "domcontentloaded")].

(** A site without cookie banner and popup where everything else works. *)
Definition plain_site : Site :=
  {| react := fun _ a =>
                match a with
                | ClickRole _ (Some 3000) => Raise (PlaywrightTimeout (lit "Timeout 3000ms exceeded"))
                | _ => Ok tt
                end;
     matches := fun _ _ => Ok 0%nat |}.

(** The same site when the category is not on the page. *)
Definition site_without_category : Site :=
  {| react := fun _ a =>
                match a with
                | ClickRole _ (Some 3000) => Raise (PlaywrightTimeout (lit "Timeout 3000ms exceeded"))
                | ClickText _ _ => Raise (PlaywrightTimeout (lit "Timeout 10000ms exceeded"))
                | _ => Ok tt
                end;
     matches := fun _ _ => Ok 0%nat |}.

Section DriverSpec.
Variable site : Site.

(** A piece of the driver only adds calls to those made before it. *)
Definition extends {A} (m : Step A) : Prop :=
  forall tr, exists calls, fst (m tr) = tr ++ calls.

(** When a piece of the driver raises, the call made last is the one
    that raised. *)
Definition stops_at_failure {A} (m : Step A) : Prop :=
  forall tr tr' e,
    m tr = (tr', Raise e) ->
    exists calls a,
      tr' = tr ++ calls ++ [a] /\ react site (tr ++ calls) a = Raise e.

End DriverSpec.

(** A site whose cookie banner has the button "Alle akzeptieren" only. *)
Definition banner_site : Site :=
  {| react := fun _ a =>
                match a with
                | ClickRole name (Some 3000) =>
                    if str_eqb name (lit "Alle akzeptieren") then Ok tt
                    else Raise (PlaywrightTimeout (lit "Timeout 3000ms exceeded"))
                | _ => Ok tt
                end;
     matches := fun _ _ => Ok 0%nat |}.

(** Two users, the first of whom watches the one service. *)
Definition two_user_db : DB :=
  {| users := [ {| user_pk := 1; telegram_id := 1001 |};
                {| user_pk := 2; telegram_id := 1002 |} ];
     services := [sample_service];
     subscriptions := [watch 1 None];
     checks := []; appointment_rows := []; notifications := [] |}.

(** Two watches, the second of which was checked five microseconds before
    the time 100. *)
Definition mixed_watch_db : DB :=
  {| users := [ {| user_pk := 1; telegram_id := 1001 |};
                {| user_pk := 2; telegram_id := 1002 |} ];
     services := [sample_service];
     subscriptions := [watch 1 None; watch 2 (Some 95)];
     checks := []; appointment_rows := []; notifications := [] |}.

(** The number of appointments a message leaves out. *)
Definition left_out (m : Message) : nat :=
  match msg_more m with
  | Some k => k
  | None => 0%nat
  end.

(* ================================================================== *)
(** ** bot/handlers.py: keyboards and callbacks                        *)
(* ================================================================== *)

(** An inline keyboard: the buttons with their text and callback data. *)
Definition Keyboard : Type := list (str * str).

(** What the bot answers.  The texts are those of the source; only their
    variable parts are kept. *)
Inductive Reply : Type :=
| UserNotFound                     (* "User not found. Please use /start first." *)
| NoServicesAvailable              (* "No services available at the moment." *)
| SelectCategory (keyboard : Keyboard)
| NoServicesFound                  (* "No services found in this category." *)
| SelectService (category0 : str) (keyboard : Keyboard)
| SubscriptionCancelled            (* "Subscription cancelled successfully." *)
| FailedToCancel.                  (* "Failed to cancel subscription." *)

(** The handler [button_callback] passes a callback to, with its
    argument. *)
Inductive Route : Type :=
| Cancelled                                 (* "Cancelled." *)
| ShowServicesInCategory (category0 : str)  (* [_show_services_in_category] *)
| CreateSubscription (service_id0 : Z)      (* [_create_subscription] *)
| HandleUnsubscribe (subscription_id0 : Z)  (* [_handle_unsubscribe] *)
| HandleManualCheck (subscription_id0 : Z)  (* [_handle_manual_check] *)
| NoHandler.                                (* no branch applies *)

Section Callbacks.
(** The builtin [int] on a [str]. *)
Variable int : str -> outcome Z.

Definition with_int (s : str) (k : Z -> Route) : outcome Route :=
  match int s with
  | Ok n => Ok (k n)
  | Raise e => Raise e
  end.

(** The dispatch of [BotHandlers.button_callback] on [query.data]. *)
Definition button_callback (data : str) : outcome Route :=
  if str_eqb data (lit "cancel") then Ok Cancelled
  else if startswith data (lit "cat_") then
    Ok (ShowServicesInCategory (skipn 4 data))
  else if startswith data (lit "srv_") then
    with_int (skipn 4 data) CreateSubscription
  else if startswith data (lit "unsub_") then
    with_int (skipn 6 data) HandleUnsubscribe
  else if startswith data (lit "check_") then
    with_int (skipn 6 data) HandleManualCheck
  else Ok NoHandler.

End Callbacks.





(** [categories[category]] *)
Definition services_of_category (category0 : str) (services0 : list Service)
  : list Service :=
  filter (fun s => str_eqb (category s) category0) services0.


(** The text of the button that leads back: an arrow (11013, 65039) and
    "Back". *)
Definition back_text : str := 11013%N :: 65039%N :: lit " Back".

(** [BotHandlers._show_services_in_category]; [services0] are the rows of
    [services] with [active] set. *)
Definition _show_services_in_category (services0 : list Service)
           (category0 : str) : Reply :=
  match services_of_category category0 services0 with
  | [] => NoServicesFound
  | (_ :: _) as found =>
      SelectService category0
        (map (fun service =>
                (firstn 60 (service_name_of service),
                 lit "srv_" ++ str_of_int (service_pk service)))
             (firstn 20 found)
         ++ [(back_text, lit "back_categories")])
  end.

(** [BotHandlers._handle_unsubscribe] *)
Definition _handle_unsubscribe (db : DB) (subscription_id0 : Z) : DB * Reply :=
  let '(db', success0) := delete_subscription db subscription_id0 in
  (db', if success0 then SubscriptionCancelled else FailedToCancel).

(** A reader of ASCII decimal numerals with an optional minus sign, in
    the place of [int] in the examples. *)
Definition ascii_int (s : str) : outcome Z :=
  let digits := match s with 45%N :: r => r | _ => s end in
  if negb (forallb (fun c => (48 <=? c)%N && (c <=? 57)%N) digits)
     || match digits with [] => true | _ => false end
  then Raise (OtherException (lit "invalid literal for int() with base 10"))
  else
    let n := fold_left (fun acc c => 10 * acc + Z.of_N (c - 48)) digits 0 in
    Ok (match s with 45%N :: _ => - n | _ => n end).

(** A category of the default data; 228 is a-umlaut. *)
Definition long_category : str :=
  lit "Umschreibung ausl" ++ 228%N
  :: lit "ndische Fahrerlaubnis / Dienstfahrerlaubnis".

Definition long_category_service : Service :=
  {| service_pk := 2; category := long_category;
     service_name_of := lit "Umschreibung (EU+EWR)";
     base_url := lit "https://termine.duesseldorf.de/select2?md=3";
     total_checks := 0; last_appointments_at := None |}.

(* ================================================================== *)
(** ** user_service.py                                                 *)
(* ================================================================== *)

Inductive UserPlan : Type := FREE | PREMIUM | ADMIN.

(** A row of [users] with the columns the service writes. *)
Record UserRow : Type := {
  row_id : Z;
  row_telegram_id : Z;
  username : option str;
  first_name : option str;
  last_name : option str;
  plan : UserPlan;
  user_active : bool
}.

(** [a or b] on optional strings. *)
Definition or_else (a b : option str) : option str :=
  if falsy a then b else a.

(** The assignments of the update branch.  [user.last_active] is no column
    of the table ([last_activity] is), so nothing of it reaches the row. *)
Definition refresh_names (username0 first_name0 last_name0 : option str)
           (user : UserRow) : UserRow :=
  {| row_id := row_id user; row_telegram_id := row_telegram_id user;
     username := or_else username0 (username user);
     first_name := or_else first_name0 (first_name user);
     last_name := or_else last_name0 (last_name user);
     plan := plan user; user_active := user_active user |}.

(** [UserService.get_user_by_telegram_id] *)
Definition get_user_by_telegram_id (rows : list UserRow) (telegram_id0 : Z)
  : option UserRow :=
  find (fun u => row_telegram_id u =? telegram_id0) rows.

(** [UserService.create_or_update_user] without further keyword
    arguments, as [start_command] calls it. *)
Definition create_or_update_user (rows : list UserRow) (telegram_id0 : Z)
           (username0 first_name0 last_name0 : option str)
  : list UserRow * UserRow :=
  match find (fun u => row_telegram_id u =? telegram_id0) rows with
  | Some user =>
      let user' := refresh_names username0 first_name0 last_name0 user in
      (update_where row_id (row_id user)
                    (refresh_names username0 first_name0 last_name0) rows,
       user')
  | None =>
      let user :=
        {| row_id := next_pk row_id rows; row_telegram_id := telegram_id0;
           username := username0; first_name := first_name0;
           last_name := last_name0; plan := FREE; user_active := true |} in
      (rows ++ [user], user)
  end.

Definition set_user_active (b : bool) (user : UserRow) : UserRow :=
  {| row_id := row_id user; row_telegram_id := row_telegram_id user;
     username := username user; first_name := first_name user;
     last_name := last_name user; plan := plan user; user_active := b |}.

(** [UserService.deactivate_user] *)
Definition deactivate_user (rows : list UserRow) (telegram_id0 : Z)
  : list UserRow * bool :=
  match find (fun u => row_telegram_id u =? telegram_id0) rows with
  | None => (rows, false)
  | Some user =>
      (update_where row_id (row_id user) (set_user_active false) rows, true)
  end.

(** The two constraints of [users]: the primary key and the unique
    [telegram_id]. *)
Definition users_unique (rows : list UserRow) : Prop :=
  NoDup (map row_id rows) /\ NoDup (map row_telegram_id rows).

Definition sample_account : UserRow :=
  {| row_id := 1; row_telegram_id := 1001; username := Some (lit "anna");
     first_name := Some (lit "Anna"); last_name := None;
     plan := PREMIUM; user_active := true |}.

(* ================================================================== *)
(** ** tests/test_all_services.py: file names                          *)
(* ================================================================== *)

(** The class [[a-zA-Z0-9_\-]]. *)
Definition safe_char (c : N) : bool :=
  ((97 <=? c)%N && (c <=? 122)%N) || ((65 <=? c)%N && (c <=? 90)%N)
  || ((48 <=? c)%N && (c <=? 57)%N) || (c =? 95)%N || (c =? 45)%N.

(** [ServiceTester._sanitize_filename] *)
Definition _sanitize_filename (name : str) : str :=
  let safe := map (fun c => if safe_char c then c else 95%N) name in
  firstn 100 safe.

(** A site that shows the popup with the button "Fortfahren". *)
Definition popup_site : Site :=
  {| react := fun _ _ => Ok tt;
     matches := fun _ selector =>
                  if str_eqb selector (lit "button:has-text('Fortfahren')")
                  then Ok 1%nat else Ok 0%nat |}.

(* ================================================================== *)
(** * Properties                                                       *)
(* ================================================================== *)

(** ** Lists of rows *)

Section Rows.
Variables (A K : Type) (key : A -> K) (p : A -> bool) (k0 : K).
Hypothesis p_key : forall r, p r = true <-> key r = k0.

Lemma find_unique_key (l : list A) (x : A) :
  NoDup (map key l) -> In x l -> key x = k0 -> find p l = Some x.
Proof.
  induction l as [|r l IH]; simpl; intros Hnd Hin Hk; [contradiction|].
  apply NoDup_cons_iff in Hnd as [Hnotin Hnd'].
  destruct Hin as [->|Hin].
  - apply p_key in Hk. now rewrite Hk.
  - destruct (p r) eqn:Hp.
    + exfalso. apply Hnotin. apply p_key in Hp. rewrite Hp, <- Hk.
      now apply in_map.
    + now apply IH.
Qed.

Lemma find_none_key (l : list A) :
  find p l = None -> ~ In k0 (map key l).
Proof.
  intros Hf Hin. apply in_map_iff in Hin as (r & Hr & Hin).
  apply (find_none _ _ Hf) in Hin. apply p_key in Hr. congruence.
Qed.
End Rows.

Lemma update_where_length {A} (pk : A -> Z) id f (l : list A) :
  length (update_where pk id f l) = length l.
Proof. apply length_map. Qed.

Lemma update_where_map {A B} (pk : A -> Z) (g : A -> B) id f (l : list A) :
  (forall r, g (f r) = g r) ->
  map g (update_where pk id f l) = map g l.
Proof.
  intros Hg. unfold update_where. rewrite map_map. apply map_ext.
  intros r. destruct (pk r =? id); auto.
Qed.

Lemma update_where_In {A} (pk : A -> Z) id f (l : list A) (r : A) :
  In r (update_where pk id f l) ->
  exists r0, In r0 l
             /\ ((pk r0 <> id /\ r = r0) \/ (pk r0 = id /\ r = f r0)).
Proof.
  unfold update_where. rewrite in_map_iff. intros (r0 & Hr & Hin).
  exists r0. split; [assumption|].
  destruct (pk r0 =? id) eqn:E; [right|left].
  - apply Z.eqb_eq in E. auto.
  - apply Z.eqb_neq in E. auto.
Qed.

Lemma update_where_In_row {A} (pk : A -> Z) id f (l : list A) (r : A) :
  In r l -> In (if pk r =? id then f r else r) (update_where pk id f l).
Proof. intros H. unfold update_where. apply in_map_iff. eauto. Qed.

Lemma next_pk_fresh {A} (pk : A -> Z) (l : list A) :
  forall r, In r l -> pk r < next_pk pk l.
Proof.
  unfold next_pk.
  induction l as [|a l IH]; cbn [fold_right In]; intros r Hin; [contradiction|].
  destruct Hin as [->|Hin].
  - pose proof (Z.le_max_l (pk r) (fold_right (fun r m => Z.max (pk r) m) 0 l)). lia.
  - specialize (IH r Hin).
    pose proof (Z.le_max_r (pk a) (fold_right (fun r m => Z.max (pk r) m) 0 l)). lia.
Qed.

Lemma next_pk_not_in {A} (pk : A -> Z) (l : list A) :
  ~ In (next_pk pk l) (map pk l).
Proof.
  intros Hin. apply in_map_iff in Hin as (r & Hr & Hin).
  apply (next_pk_fresh pk) in Hin. lia.
Qed.

Lemma NoDup_snoc {A} (l : list A) (x : A) :
  NoDup l -> ~ In x l -> NoDup (l ++ [x]).
Proof.
  intros Hnd Hx. apply NoDup_app; [assumption|repeat constructor; auto|].
  intros a Ha [<-|[]]. contradiction.
Qed.

(** ** Due subscriptions (subscription_service.py) *)

Lemma is_due_spec (now : Z) (sub : Subscription) :
  is_due now sub = true <->
  (last_checked_at sub = None \/
   exists last, last_checked_at sub = Some last
                /\ now - last >= timedelta_hours (interval_hours sub)).
Proof.
  unfold is_due. destruct (last_checked_at sub) as [last|].
  - rewrite Z.geb_le. split.
    + intros H. right. exists last. split; [reflexivity|lia].
    + intros [H|(l & Hl & H)]; [discriminate|]. injection Hl as <-. lia.
  - split; auto.
Qed.

(** C1: a subscription is selected by the due computation exactly when it is
    an active row and either it was never checked or the time since
    [last_checked_at] is at least its interval; at exactly the interval it is
    due, one microsecond earlier it is not. *)
Theorem due_for_check_iff (now : Z) (db : DB) :
  (forall sub,
      In sub (get_subscriptions_due_for_check now db) <->
      In sub (subscriptions db) /\ active sub = true /\
      (last_checked_at sub = None \/
       exists last, last_checked_at sub = Some last
                    /\ now - last >= timedelta_hours (interval_hours sub)))
  /\ (forall sub last,
         let checked := set_last_checked_at last sub in
         let boundary := last + timedelta_hours (interval_hours sub) in
         is_due boundary checked = true /\ is_due (boundary - 1) checked = false).
Proof.
  split.
  - intros sub. unfold get_subscriptions_due_for_check.
    rewrite !filter_In, is_due_spec. tauto.
  - intros sub last checked boundary. unfold is_due, checked, boundary. simpl.
    split; [apply Z.geb_le; lia|].
    destruct (_ >=? _) eqn:E; [|reflexivity].
    apply Z.geb_le in E. lia.
Qed.

(** ** One subscription per user and service (subscription_service.py) *)

Lemma same_pair_key (u s : Z) (r : Subscription) :
  (user_id r =? u) && (service_id r =? s) = true
  <-> (user_id r, service_id r) = (u, s).
Proof.
  rewrite andb_true_iff, !Z.eqb_eq. split.
  - intros [-> ->]. reflexivity.
  - intros H. injection H. auto.
Qed.

Lemma refetch_updated (l : list Subscription) (x : Subscription) f :
  NoDup (map sub_id l) -> In x l -> sub_id (f x) = sub_id x ->
  subscription_by_id (sub_id x) (update_where sub_id (sub_id x) f l) = Some (f x).
Proof.
  intros Hnd Hin Hf. unfold subscription_by_id.
  induction l as [|r l IH]; simpl in *; [contradiction|].
  inversion Hnd as [|? ? Hnotin Hnd']; subst.
  destruct Hin as [->|Hin].
  - rewrite Z.eqb_refl, Hf, Z.eqb_refl. reflexivity.
  - destruct (sub_id r =? sub_id x) eqn:E.
    + exfalso. apply Hnotin. apply Z.eqb_eq in E. rewrite E. now apply in_map.
    + rewrite E. now apply IH.
Qed.

(** C10: [create_subscription] keeps at most one row per user and service.
    When a row for the pair exists no row is inserted.  An inactive one is
    reactivated: the row returned, which is the row of the store, has the
    id and the [last_checked_at] of the old one, is active and carries the
    given interval, quantity and notification flag, and it takes the place
    of the old one, the other rows being kept.  An active one is returned
    as it is and the store is left alone. *)
Theorem create_subscription_unique
        (db : DB) (u s interval qty : Z) (notify : bool) :
  subscriptions_pk db -> uix_user_service db ->
  let '(db', r) := create_subscription db u s interval qty notify in
  uix_user_service db' /\ subscriptions_pk db'
  /\ forall existing,
      In existing (subscriptions db) ->
      user_id existing = u -> service_id existing = s ->
      length (subscriptions db') = length (subscriptions db)
      /\ (active existing = true -> db' = db /\ r = Some existing)
      /\ (active existing = false ->
          exists row,
            r = Some row
            /\ In row (subscriptions db')
            /\ sub_id row = sub_id existing
            /\ user_id row = u /\ service_id row = s
            /\ active row = true
            /\ interval_hours row = interval
            /\ quantity row = qty
            /\ notify_telegram row = notify
            /\ last_checked_at row = last_checked_at existing
            /\ (forall other, In other (subscriptions db') ->
                              other = row
                              \/ (In other (subscriptions db)
                                  /\ other <> existing))
            /\ (forall other, In other (subscriptions db) ->
                              other <> existing ->
                              In other (subscriptions db'))).
Proof.
  intros Hpk Hux. unfold create_subscription.
  destruct (find _ (subscriptions db)) as [found|] eqn:Hfind.
  - (* a row for the pair exists *)
    pose proof (find_some _ _ Hfind) as [Hin Hkey].
    apply same_pair_key in Hkey.
    assert (Hsame : forall existing, In existing (subscriptions db) ->
                user_id existing = u -> service_id existing = s ->
                existing = found).
    { intros ex Hex Hu Hs.
      pose proof (@find_unique_key _ _ (fun r => (user_id r, service_id r))
                    _ (u, s) (same_pair_key u s) _ ex Hux Hex) as H.
      rewrite Hfind in H. symmetry. injection H; auto. now rewrite Hu, Hs. }
    assert (Hbyid : forall r0, In r0 (subscriptions db) ->
                sub_id r0 = sub_id found -> r0 = found).
    { intros r0 Hr0 Hid. unfold subscriptions_pk in Hpk.
      pose proof (@find_unique_key _ _ sub_id (fun r => sub_id r =? sub_id found)
                    (sub_id found) (fun r => Z.eqb_eq _ _) _ r0 Hpk Hr0 Hid) as H1.
      pose proof (@find_unique_key _ _ sub_id (fun r => sub_id r =? sub_id found)
                    (sub_id found) (fun r => Z.eqb_eq _ _) _ found Hpk Hin eq_refl) as H2.
      congruence. }
    destruct (active found) eqn:Hact; simpl.
    + split; [assumption|]. split; [assumption|].
      intros ex Hex Hu Hs. rewrite (Hsame ex Hex Hu Hs).
      split; [reflexivity|]. split.
      * intros _. split; [reflexivity|].
        unfold subscription_by_id.
        apply (@find_unique_key _ _ sub_id _ (sub_id found)); auto.
        intros r. apply Z.eqb_eq.
      * congruence.
    + split.
      { unfold uix_user_service. simpl.
        rewrite update_where_map; [assumption|reflexivity]. }
      split.
      { unfold subscriptions_pk. simpl.
        rewrite update_where_map; [assumption|reflexivity]. }
      intros ex Hex Hu Hs. rewrite (Hsame ex Hex Hu Hs).
      split; [apply update_where_length|]. split; [congruence|].
      intros _.
      assert (Hre : subscription_by_id (sub_id found)
                      (update_where sub_id (sub_id found)
                         (reactivate interval qty notify) (subscriptions db))
                    = Some (reactivate interval qty notify found))
        by (apply refetch_updated; auto).
      exists (reactivate interval qty notify found).
      split; [exact Hre|]. split.
      { unfold subscription_by_id in Hre. apply find_some in Hre. tauto. }
      injection Hkey as Hu' Hs'.
      split; [reflexivity|]. split; [exact Hu'|]. split; [exact Hs'|].
      split; [reflexivity|]. split; [reflexivity|]. split; [reflexivity|].
      split; [reflexivity|]. split; [reflexivity|]. split.
      * intros other Hother.
        apply update_where_In in Hother as (r0 & Hr0 & [[Hne ->]|[Hid ->]]).
        -- right. split; [assumption|]. intros ->. now apply Hne.
        -- left. f_equal. now apply Hbyid.
      * intros other Hother Hne.
        pose proof (@update_where_In_row _ sub_id (sub_id found)
                      (reactivate interval qty notify) _ _ Hother) as H.
        destruct (sub_id other =? sub_id found) eqn:E; [|exact H].
        exfalso. apply Hne. apply Hbyid; [assumption|]. now apply Z.eqb_eq.
  - (* no row for the pair *)
    destruct (references_exist db u s).
    + (* one is inserted *)
      simpl. split.
      { unfold uix_user_service. simpl. rewrite map_app. simpl.
        apply NoDup_snoc; [assumption|].
        apply (@find_none_key _ _ (fun r => (user_id r, service_id r))
                              _ (u, s) (same_pair_key u s) _ Hfind). }
      split.
      { unfold subscriptions_pk. simpl. rewrite map_app. simpl.
        apply NoDup_snoc; [assumption|apply next_pk_not_in]. }
      intros ex Hex Hu Hs. exfalso.
      apply (find_none _ _ Hfind) in Hex.
      rewrite Hu, Hs, !Z.eqb_refl in Hex. discriminate.
    + (* the insert is refused *)
      split; [assumption|]. split; [assumption|].
      intros ex Hex Hu Hs. exfalso.
      apply (find_none _ _ Hfind) in Hex.
      rewrite Hu, Hs, !Z.eqb_refl in Hex. discriminate.
Qed.

Lemma create_subscription_unique_witness :
  let '(db', r) := create_subscription lapsed_db 7 1 6 2 false in
  uix_user_service db' /\ subscriptions_pk db'
  /\ forall existing,
      In existing (subscriptions lapsed_db) ->
      user_id existing = 7 -> service_id existing = 1 ->
      length (subscriptions db') = length (subscriptions lapsed_db)
      /\ (active existing = true -> db' = lapsed_db /\ r = Some existing)
      /\ (active existing = false ->
          exists row,
            r = Some row
            /\ In row (subscriptions db')
            /\ sub_id row = sub_id existing
            /\ user_id row = 7 /\ service_id row = 1
            /\ active row = true
            /\ interval_hours row = 6
            /\ quantity row = 2
            /\ notify_telegram row = false
            /\ last_checked_at row = last_checked_at existing
            /\ (forall other, In other (subscriptions db') ->
                              other = row
                              \/ (In other (subscriptions lapsed_db)
                                  /\ other <> existing))
            /\ (forall other, In other (subscriptions lapsed_db) ->
                              other <> existing ->
                              In other (subscriptions db'))).
Proof.
  apply (@create_subscription_unique lapsed_db 7 1 6 2 false).
  - unfold subscriptions_pk. simpl. constructor; [intros []|constructor].
  - unfold uix_user_service. simpl. constructor; [intros []|constructor].
Defined.

(** Creating the subscription again reactivates the one row. *)
Example create_subscription_reactivates :
  map (fun s => (sub_id s, active s, interval_hours s, quantity s, notify_telegram s))
      (subscriptions (fst (create_subscription lapsed_db 7 1 6 2 false)))
  = [(5, true, 6, 2, false)].
Proof. reflexivity. Qed.

(** ** The date pattern (appointment_checker.py) *)

Section DatePattern.
Context {U : Unicode}.

Lemma digit_is_word (c : N) : is_digit c = true -> is_word c = true.
Proof. unfold is_word. intros ->. reflexivity. Qed.

Lemma dot_not_digit : is_digit 46 = false.
Proof. reflexivity. Qed.

Lemma digit_not_dot (c : N) : is_digit c = true -> (c =? 46)%N = false.
Proof.
  intros H. destruct (N.eqb_spec c 46) as [->|]; [|reflexivity].
  rewrite dot_not_digit in H. discriminate.
Qed.

Lemma digit_not_sign (c : N) :
  is_digit c = true -> (c =? 43)%N || (c =? 45)%N = false.
Proof.
  intros H.
  destruct (N.eqb_spec c 43) as [->|]; [discriminate H|].
  destruct (N.eqb_spec c 45) as [->|]; [discriminate H|]. reflexivity.
Qed.

Lemma zfill_two_digits (s : str) :
  forallb is_digit s = true -> (length s = 1 \/ length s = 2)%nat ->
  zfill 2 s = two_digits s.
Proof.
  intros Hd [Hl|Hl].
  - destruct s as [|a [|]]; try discriminate. simpl in Hd.
    apply andb_true_iff in Hd as [Ha _]. unfold zfill. simpl.
    now rewrite (digit_not_sign _ Ha).
  - destruct s as [|a [|b [|]]]; try discriminate. reflexivity.
Qed.

Lemma chr_Some (c : N) (s r : str) : Re.chr c s = Some r <-> s = c :: r.
Proof.
  unfold Re.chr. destruct s as [|x s]; [split; discriminate|].
  destruct (N.eqb_spec x c) as [->|Hne]; split; intros H.
  - injection H as ->. reflexivity.
  - injection H as ->. reflexivity.
  - discriminate.
  - injection H as H1 H2. contradiction.
Qed.

Lemma digits_n_sound (n : nat) (s ds r : str) :
  Re.digits_n n s = Some (ds, r) ->
  s = ds ++ r /\ length ds = n /\ forallb is_digit ds = true.
Proof.
  revert s ds r. induction n as [|n IH]; intros s ds r; simpl.
  - intros H. injection H as <- <-. auto.
  - destruct s as [|c s]; [discriminate|].
    destruct (is_digit c) eqn:Hc; [|discriminate].
    destruct (Re.digits_n n s) as [[ds' r']|] eqn:E; [|discriminate].
    intros H. injection H as <- <-.
    apply IH in E as (-> & Hl & Hd). simpl. rewrite Hc, Hd, Hl. auto.
Qed.

Lemma digits_n_complete (ds r : str) :
  forallb is_digit ds = true ->
  Re.digits_n (length ds) (ds ++ r) = Some (ds, r).
Proof.
  induction ds as [|c ds IH]; simpl; [reflexivity|].
  intros H. apply andb_true_iff in H as [-> H]. now rewrite IH.
Qed.

Lemma digits_1_2_In (s d r : str) :
  In (d, r) (Re.digits_1_2 s)
  <-> s = d ++ r /\ forallb is_digit d = true
      /\ (length d = 1 \/ length d = 2)%nat.
Proof.
  unfold Re.digits_1_2. split.
  - destruct s as [|a s]; [contradiction|].
    destruct (is_digit a) eqn:Ha; [|contradiction].
    destruct s as [|b s].
    + intros [H|[]]. injection H as <- <-. simpl. rewrite Ha. auto.
    + destruct (is_digit b) eqn:Hb.
      * intros [H|[H|[]]]; injection H as <- <-; simpl; rewrite Ha, ?Hb; auto.
      * intros [H|[]]. injection H as <- <-. simpl. rewrite Ha. auto.
  - intros (-> & Hd & [Hl|Hl]).
    + destruct d as [|a [|]]; try discriminate. simpl in *.
      apply andb_true_iff in Hd as [-> _].
      destruct r as [|b r]; [left; reflexivity|].
      destruct (is_digit b); [right|]; left; reflexivity.
    + destruct d as [|a [|b [|]]]; try discriminate. simpl in *.
      apply andb_true_iff in Hd as [-> Hd].
      apply andb_true_iff in Hd as [-> _]. left; reflexivity.
Qed.

Lemma first_some_Some {A B} (f : A -> option B) (l : list A) (b : B) :
  Re.first_some f l = Some b -> exists a, In a l /\ f a = Some b.
Proof.
  induction l as [|a l IH]; simpl; [discriminate|].
  destruct (f a) eqn:E.
  - intros H. injection H as <-. eauto.
  - intros H. destruct (IH H) as (a' & Hin & Ha'). eauto.
Qed.

Lemma first_some_None {A B} (f : A -> option B) (l : list A) :
  Re.first_some f l = None <-> forall a, In a l -> f a = None.
Proof.
  induction l as [|a l IH]; simpl; [tauto|].
  destruct (f a) eqn:E.
  - split; [discriminate|]. intros H. rewrite <- E. auto.
  - rewrite IH. split; [intros H a' [<-|Hin]; auto|auto].
Qed.

End DatePattern.

Section DateMatch.
Context {U : Unicode}.

Lemma word_at_first_digit (d rest : str) :
  forallb is_digit d = true -> d <> [] ->
  Re.word_at (hd_error (d ++ rest)) = true.
Proof.
  destruct d as [|a d]; [congruence|]. simpl. intros H _.
  apply andb_true_iff in H as [H _]. now apply digit_is_word.
Qed.

Lemma word_at_last_digit (y : str) :
  forallb is_digit y = true -> y <> [] -> Re.word_at (Re.last_of y) = true.
Proof.
  intros Hd Hne. unfold Re.last_of.
  destruct (rev y) as [|c r] eqn:E.
  - exfalso. apply Hne. apply (f_equal (@rev N)) in E.
    now rewrite rev_involutive in E.
  - simpl. apply digit_is_word.
    rewrite forallb_forall in Hd. apply Hd. apply in_rev. rewrite E. now left.
Qed.

Lemma nonempty_of_length (s : str) (n : nat) :
  length s = S n -> s <> [].
Proof. destruct s; [discriminate|congruence]. Qed.

Lemma one_or_two_nonempty (s : str) :
  (length s = 1 \/ length s = 2)%nat -> s <> [].
Proof. intros [H|H]; eapply nonempty_of_length; eauto. Qed.

(** What a match of the date pattern at one position looks like. *)
Lemma date_here_sound (prev : option N) (s d m y : str) :
  Re.date_here prev s = Some (d, m, y) ->
  exists post,
    s = d ++ 46%N :: m ++ 46%N :: y ++ post
    /\ date_shape d m y
    /\ Re.word_at prev = false
    /\ Re.word_at (hd_error post) = false.
Proof.
  unfold Re.date_here.
  destruct (Re.at_boundary prev s) eqn:Hb; [|discriminate].
  intros H. apply first_some_Some in H as ([d' r1] & Hin1 & H).
  apply digits_1_2_In in Hin1 as (-> & Hd & Hld).
  destruct (Re.chr 46 r1) as [r2|] eqn:E1; [|discriminate].
  apply chr_Some in E1 as ->.
  apply first_some_Some in H as ([m' r3] & Hin2 & H).
  apply digits_1_2_In in Hin2 as (-> & Hm & Hlm).
  destruct (Re.chr 46 r3) as [r4|] eqn:E2; [|discriminate].
  apply chr_Some in E2 as ->.
  destruct (Re.digits_n 4 r4) as [[y' r5]|] eqn:E3; [|discriminate].
  apply digits_n_sound in E3 as (-> & Hly & Hy).
  destruct (Re.at_boundary (Re.last_of y') r5) eqn:Hb2; [|discriminate].
  injection H as <- <- <-.
  exists r5. split; [reflexivity|].
  split; [unfold date_shape; auto 10|]. split.
  - unfold Re.at_boundary in Hb.
    rewrite word_at_first_digit in Hb; auto using one_or_two_nonempty.
    destruct (Re.word_at prev); [discriminate|reflexivity].
  - unfold Re.at_boundary in Hb2.
    rewrite word_at_last_digit in Hb2;
      eauto using nonempty_of_length.
    destruct (Re.word_at (hd_error r5)); [discriminate|reflexivity].
Qed.

(** After one or two digits and a dot only the alternative that stops at
    the dot can go on. *)
Lemma first_some_before_dot {B} (f : str * str -> option B) (d rest : str) :
  forallb is_digit d = true -> (length d = 1 \/ length d = 2)%nat ->
  (forall d' c r', is_digit c = true -> f (d', c :: r') = None) ->
  Re.first_some f (Re.digits_1_2 (d ++ 46%N :: rest)) = f (d, 46%N :: rest).
Proof.
  intros Hd [Hl|Hl] Hf.
  - destruct d as [|a [|]]; try discriminate. simpl in *.
    apply andb_true_iff in Hd as [-> _]. rewrite ?dot_not_digit. simpl.
    destruct (f _) eqn:E; first [reflexivity | symmetry; exact E].
  - destruct d as [|a [|b [|]]]; try discriminate. simpl in *.
    apply andb_true_iff in Hd as [-> Hd].
    apply andb_true_iff in Hd as [Hb _]. rewrite Hb. simpl.
    destruct (f _) eqn:E; [first [reflexivity | symmetry; exact E]|].
    rewrite Hf by assumption. first [reflexivity | symmetry; exact E].
Qed.

Lemma chr_dot_digit (c : N) (r : str) :
  is_digit c = true -> Re.chr 46 (c :: r) = None.
Proof. intros H. unfold Re.chr. now rewrite digit_not_dot. Qed.

(** Where the text has the shape, the pattern matches and the groups are
    day, month and year. *)
Lemma date_here_complete (prev : option N) (d m y post : str) :
  date_shape d m y ->
  Re.word_at prev = false ->
  Re.word_at (hd_error post) = false ->
  Re.date_here prev (d ++ 46%N :: m ++ 46%N :: y ++ post) = Some (d, m, y).
Proof.
  intros (Hd & Hld & Hm & Hlm & Hy & Hly) Hprev Hpost.
  unfold Re.date_here, Re.at_boundary.
  rewrite word_at_first_digit, Hprev; auto using one_or_two_nonempty.
  simpl xorb. cbv iota.
  rewrite first_some_before_dot; auto.
  2:{ intros d' c r' Hc. now rewrite chr_dot_digit. }
  simpl Re.chr. cbv beta iota.
  rewrite first_some_before_dot; auto.
  2:{ intros d' c r' Hc. now rewrite chr_dot_digit. }
  simpl Re.chr. cbv beta iota.
  rewrite <- Hly, digits_n_complete by assumption.
  rewrite word_at_last_digit, Hpost; eauto using nonempty_of_length.
Qed.

Lemma date_here_needs_digit (prev : option N) (c : N) (s : str) :
  is_digit c = false -> Re.date_here prev (c :: s) = None.
Proof.
  intros H. unfold Re.date_here.
  destruct (Re.at_boundary prev (c :: s)); [|reflexivity].
  simpl. now rewrite H.
Qed.

Lemma date_here_empty (prev : option N) : Re.date_here prev [] = None.
Proof. unfold Re.date_here. now destruct (Re.at_boundary prev []). Qed.

(** [re.search] finds nothing exactly when no position matches. *)
Lemma search_None {A} (here : option N -> str -> option A)
      (prev : option N) (s : str) :
  Re.search here prev s = None
  <-> forall pre suf, s = pre ++ suf -> here (prev_of prev pre) suf = None.
Proof.
  revert prev. induction s as [|a s IH]; intros prev; simpl.
  - destruct (here prev []) eqn:E.
    + split; [discriminate|]. intros H.
      specialize (H [] [] eq_refl). simpl in H. congruence.
    + split; [|reflexivity]. intros _ pre suf Hs.
      destruct pre; destruct suf; try discriminate. exact E.
  - destruct (here prev (a :: s)) eqn:E.
    + split; [discriminate|]. intros H.
      specialize (H [] (a :: s) eq_refl). simpl in H. congruence.
    + rewrite IH. split.
      * intros H pre suf Hs. destruct pre as [|c pre]; simpl in *.
        -- subst suf. exact E.
        -- injection Hs as <- ->. now apply H.
      * intros H pre suf Hs. apply (H (a :: pre) suf). now rewrite Hs.
Qed.

Lemma search_Some {A} (here : option N -> str -> option A)
      (prev : option N) (s : str) (r : A) :
  Re.search here prev s = Some r ->
  exists pre suf, s = pre ++ suf /\ here (prev_of prev pre) suf = Some r.
Proof.
  revert prev. induction s as [|a s IH]; intros prev; simpl.
  - destruct (here prev []) eqn:E; [|discriminate].
    intros H. injection H as <-. now exists [], [].
  - destruct (here prev (a :: s)) eqn:E.
    + intros H. injection H as <-. now exists [], (a :: s).
    + intros H. apply IH in H as (pre & suf & -> & H).
      now exists (a :: pre), suf.
Qed.

(** Positions inside a prefix without digits cannot start a date. *)
Lemma search_date_skips (prev : option N) (pre s : str) :
  forallb (fun c => negb (is_digit c)) pre = true ->
  Re.search Re.date_here prev (pre ++ s)
  = Re.search Re.date_here (prev_of prev pre) s.
Proof.
  revert prev. induction pre as [|c pre IH]; intros prev; simpl; [reflexivity|].
  intros H. apply andb_true_iff in H as [Hc H]. apply negb_true_iff in Hc.
  rewrite date_here_needs_digit by assumption. now apply IH.
Qed.

Lemma search_here {A} (here : option N -> str -> option A)
      (prev : option N) (s : str) (r : A) :
  here prev s = Some r -> Re.search here prev s = Some r.
Proof. intros H. destruct s; simpl; now rewrite H. Qed.

(** [_parse_german_date] answers [None] exactly on the texts without the
    pattern. *)
Lemma parse_german_date_None (text : str) :
  _parse_german_date text = None <-> ~ has_date_pattern text.
Proof.
  unfold _parse_german_date. split.
  - intros H (pre & d & m & y & post & Ht & Hshape & Hprev & Hpost).
    destruct text as [|c t]; [now destruct pre, d|].
    destruct (Re.search Re.date_here None (c :: t)) as [[[? ?] ?]|] eqn:E;
      [discriminate|].
    rewrite search_None in E. specialize (E pre _ Ht).
    rewrite date_here_complete in E; auto. discriminate.
  - intros Hno. destruct text as [|c text]; [reflexivity|].
    destruct (Re.search Re.date_here None (c :: text)) as [[[d m] y]|] eqn:E;
      [|reflexivity].
    exfalso. apply Hno. apply search_Some in E as (pre & suf & Ht & H).
    apply date_here_sound in H as (post & -> & Hshape & Hprev & Hpost).
    exists pre, d, m, y, post. auto.
Qed.

(** Whatever [_parse_german_date] answers is the year, month and day of a
    date standing in the text, in that order, month and day padded. *)
Lemma parse_german_date_Some (text iso : str) :
  _parse_german_date text = Some iso ->
  exists pre d m y post,
    text = pre ++ d ++ 46%N :: m ++ 46%N :: y ++ post
    /\ date_shape d m y
    /\ iso = y ++ 45%N :: two_digits m ++ 45%N :: two_digits d
    /\ length iso = 10%nat.
Proof.
  unfold _parse_german_date. destruct text as [|c text]; [discriminate|].
  destruct (Re.search Re.date_here None (c :: text)) as [[[d m] y]|] eqn:E;
    [|discriminate].
  intros H. injection H as <-.
  apply search_Some in E as (pre & suf & Ht & H).
  apply date_here_sound in H as (post & -> & Hshape & _).
  exists pre, d, m, y, post. split; [assumption|]. split; [assumption|].
  destruct Hshape as (Hd & Hld & Hm & Hlm & Hy & Hly).
  rewrite !zfill_two_digits by assumption. split; [reflexivity|].
  rewrite length_app, Hly. simpl. rewrite length_app. simpl.
  destruct Hld as [Hld|Hld], Hlm as [Hlm|Hlm];
    destruct d as [|? [|? [|]]]; try discriminate;
    destruct m as [|? [|? [|]]]; try discriminate; reflexivity.
Qed.

(** A weekday prefix, which has no digit and ends outside a word, followed
    by [D.M.YYYY]: the answer is the year, the month and the day, the last
    two padded to two digits. *)
Lemma parse_german_date_shape (pre d m y post : str) :
  forallb (fun c => negb (is_digit c)) pre = true ->
  Re.word_at (prev_of None pre) = false ->
  date_shape d m y ->
  Re.word_at (hd_error post) = false ->
  _parse_german_date (pre ++ d ++ 46%N :: m ++ 46%N :: y ++ post)
  = Some (y ++ 45%N :: two_digits m ++ 45%N :: two_digits d).
Proof.
  intros Hpre Hprev Hshape Hpost. unfold _parse_german_date.
  destruct (pre ++ d ++ 46%N :: m ++ 46%N :: y ++ post) as [|c t] eqn:E.
  - now destruct pre, d.
  - rewrite <- E, search_date_skips by assumption.
    rewrite (search_here _ _ _ (date_here_complete _ _ Hshape Hprev Hpost)).
    destruct Hshape as (Hd & Hld & Hm & Hlm & _).
    now rewrite !zfill_two_digits.
Qed.

End DateMatch.

Section HeaderFacts.
Context {U : Unicode}.

(** A header whose text has no date contributes nothing: the loop goes on
    with the next header and the same appointments. *)
Lemma header_without_date_is_skipped
      (page : Page) (header : Header) (rest : list Header)
      (acc : list AppointmentSlot) (raw : str) :
  header_text_content header = Ok (Some raw) ->
  _parse_german_date (strip raw) = None ->
  headers_loop page (header :: rest) acc = headers_loop page rest acc.
Proof.
  intros Ht Hp. simpl. rewrite Ht. destruct raw; [reflexivity|].
  now rewrite Hp.
Qed.

End HeaderFacts.

(** C9: a text made of a prefix without digits that ends outside a word (a
    weekday name and its separator, or nothing) followed by [D.M.YYYY] or
    [DD.MM.YYYY] parses to [YYYY-MM-DD] with day and month padded to two
    digits; "Dienstag, 18.11.2025" gives "2025-11-18" and "5.3.2026" gives
    "2026-03-05"; whatever is answered is such a normalisation of a date of
    the text; a text without the pattern parses to nothing, and the header
    carrying it is skipped without a slot. *)
Theorem german_date_parsing :
  (@_parse_german_date basic_latin (lit "Dienstag, 18.11.2025")
   = Some (lit "2025-11-18")
   /\ @_parse_german_date basic_latin (lit "5.3.2026") = Some (lit "2026-03-05"))
  /\ (forall (U : Unicode) (pre d m y post : str),
         forallb (fun c => negb (is_digit c)) pre = true ->
         Re.word_at (prev_of None pre) = false ->
         date_shape d m y ->
         Re.word_at (hd_error post) = false ->
         _parse_german_date (pre ++ d ++ 46%N :: m ++ 46%N :: y ++ post)
         = Some (y ++ 45%N :: two_digits m ++ 45%N :: two_digits d))
  /\ (forall (U : Unicode) (text iso : str),
         _parse_german_date text = Some iso ->
         exists pre d m y post,
           text = pre ++ d ++ 46%N :: m ++ 46%N :: y ++ post
           /\ date_shape d m y
           /\ iso = y ++ 45%N :: two_digits m ++ 45%N :: two_digits d
           /\ length iso = 10%nat)
  /\ (forall (U : Unicode) (text : str),
         ~ has_date_pattern text <-> _parse_german_date text = None)
  /\ (forall (U : Unicode) (page : Page) (header : Header) (rest : list Header)
             (acc : list AppointmentSlot) (raw : str),
         header_text_content header = Ok (Some raw) ->
         ~ has_date_pattern (strip raw) ->
         headers_loop page (header :: rest) acc = headers_loop page rest acc).
Proof.
  split; [split; vm_compute; reflexivity|].
  split; [intros; now apply parse_german_date_shape|].
  split; [intros U text iso; apply parse_german_date_Some|].
  split; [intros; symmetry; apply parse_german_date_None|].
  intros U page header rest acc raw Ht Hno.
  apply (header_without_date_is_skipped page header rest acc Ht).
  now apply parse_german_date_None.
Qed.

Lemma german_date_parsing_witness :
  @_parse_german_date basic_latin
    (lit "Dienstag, " ++ lit "18" ++ 46%N :: lit "11" ++ 46%N :: lit "2025" ++ [])
  = Some (lit "2025" ++ 45%N :: two_digits (lit "11") ++ 45%N :: two_digits (lit "18"))
  /\ @headers_loop basic_latin blank_page [undated_header; stray_header] []
     = @headers_loop basic_latin blank_page [stray_header] [].
Proof.
  destruct german_date_parsing as (_ & Hshape & _ & Hnone & Hskip).
  split.
  - apply (Hshape basic_latin); try reflexivity.
    repeat split; auto.
  - apply (Hskip basic_latin blank_page undated_header [stray_header] []
                 (lit " Termine ")); [reflexivity|].
    apply (Hnone basic_latin). vm_compute. reflexivity.
Defined.

(** ** The time pattern (appointment_checker.py) *)

Section TimeMatch.
Context {U : Unicode}.

Lemma colon_not_digit : is_digit 58 = false.
Proof. reflexivity. Qed.

Lemma chr_colon_digit (c : N) (r : str) :
  is_digit c = true -> Re.chr 58 (c :: r) = None.
Proof.
  intros H. unfold Re.chr.
  destruct (N.eqb_spec c 58) as [->|]; [|reflexivity].
  rewrite colon_not_digit in H. discriminate.
Qed.

Lemma first_some_before_colon {B} (f : str * str -> option B) (h rest : str) :
  forallb is_digit h = true -> (length h = 1 \/ length h = 2)%nat ->
  (forall h' c r', is_digit c = true -> f (h', c :: r') = None) ->
  Re.first_some f (Re.digits_1_2 (h ++ 58%N :: rest)) = f (h, 58%N :: rest).
Proof.
  intros Hd [Hl|Hl] Hf.
  - destruct h as [|a [|]]; try discriminate. simpl in *.
    apply andb_true_iff in Hd as [-> _]. rewrite ?colon_not_digit. simpl.
    destruct (f _) eqn:E; first [reflexivity | symmetry; exact E].
  - destruct h as [|a [|b [|]]]; try discriminate. simpl in *.
    apply andb_true_iff in Hd as [-> Hd].
    apply andb_true_iff in Hd as [Hb _]. rewrite Hb. simpl.
    destruct (f _) eqn:E; [first [reflexivity | symmetry; exact E]|].
    rewrite Hf by assumption. first [reflexivity | symmetry; exact E].
Qed.

(** A match of the time pattern returns hour, colon and minutes exactly as
    they stand in the text. *)
Lemma time_here_complete (prev : option N) (h m post : str) :
  time_shape h m ->
  Re.word_at prev = false ->
  Re.word_at (hd_error post) = false ->
  Re.time_here prev (h ++ 58%N :: m ++ post) = Some (h ++ 58%N :: m).
Proof.
  intros (Hh & Hlh & Hm & Hlm) Hprev Hpost.
  unfold Re.time_here, Re.at_boundary.
  rewrite word_at_first_digit, Hprev; auto using one_or_two_nonempty.
  simpl xorb. cbv iota.
  rewrite first_some_before_colon; auto.
  2:{ intros h' c r' Hc. now rewrite chr_colon_digit. }
  simpl Re.chr. cbv beta iota.
  rewrite <- Hlm, digits_n_complete by assumption.
  rewrite word_at_last_digit, Hpost; eauto using nonempty_of_length.
Qed.

Lemma time_here_sound (prev : option N) (s t : str) :
  Re.time_here prev s = Some t ->
  exists h m post,
    t = h ++ 58%N :: m /\ s = h ++ 58%N :: m ++ post /\ time_shape h m
    /\ Re.word_at prev = false /\ Re.word_at (hd_error post) = false.
Proof.
  unfold Re.time_here.
  destruct (Re.at_boundary prev s) eqn:Hb; [|discriminate].
  intros H. apply first_some_Some in H as ([h r1] & Hin1 & H).
  apply digits_1_2_In in Hin1 as (-> & Hh & Hlh).
  destruct (Re.chr 58 r1) as [r2|] eqn:E1; [|discriminate].
  apply chr_Some in E1 as ->.
  destruct (Re.digits_n 2 r2) as [[m r3]|] eqn:E3; [|discriminate].
  apply digits_n_sound in E3 as (-> & Hlm & Hm).
  destruct (Re.at_boundary (Re.last_of m) r3) eqn:Hb2; [|discriminate].
  injection H as <-.
  exists h, m, r3. split; [reflexivity|]. split; [reflexivity|].
  split; [unfold time_shape; auto|]. split.
  - unfold Re.at_boundary in Hb.
    rewrite word_at_first_digit in Hb; auto using one_or_two_nonempty.
    destruct (Re.word_at prev); [discriminate|reflexivity].
  - unfold Re.at_boundary in Hb2.
    rewrite word_at_last_digit in Hb2; eauto using nonempty_of_length.
    destruct (Re.word_at (hd_error r3)); [discriminate|reflexivity].
Qed.

(** The time of [_parse_datetime_from_text] is a token of the text,
    returned as written: with a one-digit hour it has four characters. *)
Lemma parsed_time_is_verbatim (text t : str) :
  snd (_parse_datetime_from_text text) = Some t ->
  exists pre h m post,
    text = pre ++ h ++ 58%N :: m ++ post /\ t = h ++ 58%N :: m
    /\ time_shape h m /\ length t = (length h + 3)%nat.
Proof.
  unfold _parse_datetime_from_text. destruct text as [|c text]; [discriminate|].
  cbn [snd]. intros H. apply search_Some in H as (pre & suf & Ht & H).
  apply time_here_sound in H as (h & m & post & -> & -> & Hs & _).
  exists pre, h, m, post. repeat split; auto; try apply Hs.
  destruct Hs as (_ & _ & _ & Hlm). rewrite length_app. simpl. lia.
Qed.

(** A button whose text has no time token adds no appointment. *)
Lemma button_without_time_is_skipped
      (parsed_date date_text : str) (button : Button) (rest : list Button)
      (acc : list AppointmentSlot) (raw : str) :
  button_text_content button = Ok (Some raw) ->
  snd (_parse_datetime_from_text (strip raw)) = None ->
  time_buttons_loop parsed_date date_text (button :: rest) acc
  = time_buttons_loop parsed_date date_text rest acc.
Proof.
  intros Ht Hp. simpl. rewrite Ht. destruct raw; [reflexivity|].
  now rewrite Hp.
Qed.

End TimeMatch.

(** C4: "14:30 Uhr" yields "14:30", but "9:05" yields "9:05", not "09:05":
    group 1 of the match is returned without padding, and the slot of a
    button labelled "9:05" carries that time. *)
Theorem parse_time_keeps_single_digit_hour :
  @_parse_datetime_from_text basic_latin (lit "14:30 Uhr") = (None, Some (lit "14:30"))
  /\ @_parse_datetime_from_text basic_latin (lit "9:05") = (None, Some (lit "9:05"))
  /\ snd (@_parse_datetime_from_text basic_latin (lit "9:05")) <> Some (lit "09:05")
  /\ map slot_time
         (@_extract_appointment_slots basic_latin
            (one_button_page (lit "5.3.2026") (lit "9:05")))
     = [Some (lit "9:05")].
Proof. vm_compute. repeat split. discriminate. Qed.

(** ** The negative phrases come first (appointment_checker.py) *)

Section ExtractorFacts.
Context {U : Unicode}.

Lemma no_appointment_pattern_matches (patterns : list str) (html : str) :
  (exists p, In p patterns /\ contains (lower p) (lower html) = true)
  <-> exists p, no_appointment_pattern patterns html = Some p.
Proof.
  induction patterns as [|q patterns IH]; simpl.
  - split; intros [p H]; [tauto|discriminate].
  - destruct (contains (lower q) (lower html)) eqn:E.
    + split; intros _; eauto.
    + rewrite <- IH. split.
      * intros (p & [->|Hin] & Hp); [congruence|eauto].
      * intros (p & Hin & Hp). eauto.
Qed.

Lemma no_appointment_pattern_none (patterns : list str) (html : str) :
  (forall p, In p patterns -> contains (lower p) (lower html) = false)
  <-> no_appointment_pattern patterns html = None.
Proof.
  induction patterns as [|q patterns IH]; simpl.
  - tauto.
  - destruct (contains (lower q) (lower html)) eqn:E.
    + split; [|discriminate]. intros H. specialize (H q (or_introl eq_refl)).
      congruence.
    + rewrite <- IH. split.
      * intros H p Hin. auto.
      * intros H p [<-|Hin]; auto.
Qed.

(** C2: when the text of the terminal page contains one of the configured
    phrases, compared in lower case, the extractor answers
    [no_appointments] with no slots, whatever date headers and time
    buttons the page carries: the answer does not read them. *)
Theorem negative_phrase_takes_priority
        (now : Z) (page : Page) (service category html : str) :
  content page = Ok html ->
  (exists phrase, In phrase NO_APPOINTMENT_PATTERNS
                  /\ contains (lower phrase) (lower html) = true) ->
  _detect_and_extract_appointments now page service category
  = Ok {| status := lit "no_appointments"; available := false;
          appointments := []; screenshot_path := None;
          error_message := None; checked_at := now;
          service_name := service; category_name := category |}.
Proof.
  intros Hc Hp. unfold _detect_and_extract_appointments. rewrite Hc.
  apply no_appointment_pattern_matches in Hp as [p ->]. reflexivity.
Qed.

(** C6: when no configured phrase matches and the page has no date header
    the extractor answers [unknown], with no slots, and that status is not
    the [no_appointments] one. *)
Theorem no_headers_is_unknown
        (now : Z) (page : Page) (service category html : str) :
  content page = Ok html ->
  (forall phrase, In phrase NO_APPOINTMENT_PATTERNS ->
                  contains (lower phrase) (lower html) = false) ->
  date_headers page = Ok [] ->
  exists r,
    _detect_and_extract_appointments now page service category = Ok r
    /\ status r = lit "unknown"
    /\ CheckStatus_of (status r) = Ok UNKNOWN
    /\ status r <> lit "no_appointments"
    /\ CheckStatus_of (status r) <> Ok NO_APPOINTMENTS
    /\ available r = false
    /\ appointments r = [].
Proof.
  intros Hc Hp Hh. unfold _detect_and_extract_appointments. rewrite Hc.
  apply no_appointment_pattern_none in Hp. rewrite Hp.
  unfold _extract_appointment_slots. rewrite Hh.
  eexists. split; [reflexivity|]. simpl.
  repeat split; try reflexivity; discriminate.
Qed.

End ExtractorFacts.

Lemma negative_phrase_takes_priority_witness :
  @_detect_and_extract_appointments basic_latin 0 stale_page (lit "s") (lit "c")
  = Ok {| status := lit "no_appointments"; available := false;
          appointments := []; screenshot_path := None;
          error_message := None; checked_at := 0;
          service_name := lit "s"; category_name := lit "c" |}.
Proof.
  apply (@negative_phrase_takes_priority basic_latin 0 stale_page (lit "s") (lit "c")
           (lit "<p>Zurzeit sind keine Termine frei</p><h3>Montag, 01.01.2030</h3>")).
  - reflexivity.
  - exists (lit "Zurzeit sind keine Termine frei").
    split; [left; reflexivity | vm_compute; reflexivity].
Defined.

(** Without the phrase the same markup yields the slot of the header. *)
Example stray_header_alone :
  exists r,
    @_detect_and_extract_appointments basic_latin 0
      (page_of (lit "<h3>Montag, 01.01.2030</h3>") [stray_header]) (lit "s") (lit "c")
    = Ok r
    /\ status r = lit "appointments_found"
    /\ map (fun a => (slot_date a, slot_time a)) (appointments r)
       = [(Some (lit "2030-01-01"), Some (lit "10:00"))].
Proof. eexists. split; [vm_compute; reflexivity|]. split; reflexivity. Qed.

Lemma no_headers_is_unknown_witness :
  exists r,
    @_detect_and_extract_appointments basic_latin 0
      (page_of (lit "<html></html>") []) (lit "s") (lit "c") = Ok r
    /\ status r = lit "unknown"
    /\ CheckStatus_of (status r) = Ok UNKNOWN
    /\ status r <> lit "no_appointments"
    /\ CheckStatus_of (status r) <> Ok NO_APPOINTMENTS
    /\ available r = false
    /\ appointments r = [].
Proof.
  apply (@no_headers_is_unknown basic_latin 0 (page_of (lit "<html></html>") [])
           (lit "s") (lit "c") (lit "<html></html>")).
  - reflexivity.
  - intros phrase Hin. simpl in Hin.
    repeat (destruct Hin as [<-|Hin]; [vm_compute; reflexivity|]).
    contradiction.
  - reflexivity.
Defined.

(** ** One probe (appointment_checker.py) *)

Section ProbeFacts.
Context {U : Unicode}.

Ltac walk_attempt e :=
  unfold attempt_body;
  destruct (playwright_start e); simpl; auto;
  destruct (launch e); simpl; auto;
  destruct (new_page e); simpl; auto;
  destruct (navigate e); simpl; auto;
  destruct (networkidle e); simpl; auto;
  destruct (_detect_and_extract_appointments _ _ _ _); simpl; auto.

(** [page] is assigned only after [browser]. *)
Lemma page_bound_browser_bound (e : Session) (category service : str) :
  page_bound (snd (attempt_body e category service)) = true ->
  browser_bound (snd (attempt_body e category service)) = true.
Proof. walk_attempt e. Qed.

(** The [finally] clause: a browser that was launched is closed on every
    way out of [check_appointments]. *)
Lemma browser_closed_on_every_path
      (e : Session) (category service : str) (quantity : Z) :
  let a := check_appointments e category service quantity in
  browser_closed a = browser_launched a
  /\ (browser_launched a = true <-> playwright_start e = Ok tt /\ launch e = Ok tt).
Proof.
  unfold check_appointments.
  destruct (attempt_body e category service) as [r l] eqn:E.
  assert (Hl : browser_bound l = true
               <-> playwright_start e = Ok tt /\ launch e = Ok tt).
  { replace l with (snd (attempt_body e category service)) by now rewrite E.
    clear E. unfold attempt_body.
    destruct (playwright_start e) as [[]|];
      [|simpl; split; [discriminate|intros [H _]; discriminate]].
    destruct (launch e) as [[]|];
      [|simpl; split; [discriminate|intros [_ H]; discriminate]].
    destruct (new_page e); simpl; [|tauto].
    destruct (navigate e); simpl; [|tauto].
    destruct (networkidle e); simpl; [|tauto].
    destruct (_detect_and_extract_appointments _ _ _ _); simpl; tauto. }
  destruct (browser_bound l); simpl; split; auto.
Qed.

(** Once [page] is assigned, whatever the attempt raises comes back as a
    result with status [error], provided closing the browser does not
    raise. *)
Lemma check_appointments_error_result
      (e : Session) (category service : str) (quantity : Z) (x : exn) :
  fst (attempt_body e category service) = Raise x ->
  page_bound (snd (attempt_body e category service)) = true ->
  close e = Ok tt ->
  exists r,
    returned (check_appointments e category service quantity) = Ok r
    /\ status r = lit "error" /\ available r = false
    /\ appointments r = [] /\ error_message r <> None.
Proof.
  intros Hr Hp Hc.
  pose proof (page_bound_browser_bound e category service Hp) as Hb.
  unfold check_appointments.
  destruct (attempt_body e category service) as [r l]. simpl in *.
  subst r. rewrite Hb. simpl. rewrite Hc.
  unfold attempt_handlers. rewrite Hp.
  destruct x; eexists; (split; [reflexivity|]); simpl;
    repeat split; discriminate.
Qed.

End ProbeFacts.

(** C8: at a session whose browser launch raises, [check_appointments] does
    not return an [error] result: the handler reads the unassigned local
    [page] and the [UnboundLocalError] leaves the call.  No browser was
    allocated, so none is closed. *)
Theorem check_appointments_launch_failure_propagates :
  let a := @check_appointments basic_latin launch_fails (lit "c") (lit "s") 1 in
  returned a = Raise (UnboundLocalError (lit "page"))
  /\ browser_launched a = false /\ browser_closed a = false.
Proof. vm_compute. repeat split. Qed.

(** ** After a probe (check_service.py) *)

Section CheckServiceFacts.
Context {U : Unicode}.

(** When the checker returns a result, of whatever status, the probed
    subscription's [last_checked_at] becomes the result's [checked_at]. *)
Lemma returned_result_advances_last_checked_at
      (env : ProbeEnv) (db db' : DB) (id : Z) (check : Check) :
  run_subscription_check_body (session env) db id = Ok (db', Some check) ->
  length (subscriptions db') = length (subscriptions db)
  /\ forall sub, In sub (subscriptions db') -> sub_id sub = id ->
                 last_checked_at sub = Some (check_checked_at check).
Proof.
  unfold run_subscription_check_body.
  destruct (find _ (subscriptions db)) as [subscription|] eqn:Hfind;
    [|discriminate].
  apply find_some in Hfind as [Hin Hid].
  apply andb_true_iff in Hid as [Hid _]. apply Z.eqb_eq in Hid.
  destruct (find _ (services db)) as [service|]; [|discriminate].
  destruct (find _ (users db)) as [user|]; [|discriminate].
  destruct (returned _) as [result|]; [|discriminate].
  destruct (CheckStatus_of _) as [st|]; [|discriminate].
  intros H. injection H as <- Hc. simpl.
  split; [apply update_where_length|].
  assert (Hat : check_checked_at check = checked_at result).
  { apply find_some in Hc as [Hc1 Hc2]. apply Z.eqb_eq in Hc2.
    simpl in Hc1, Hc2.
    apply in_app_or in Hc1 as [Hold|[<-|[]]]; [|reflexivity].
    apply (next_pk_fresh check_id) in Hold. lia. }
  intros sub Hsub Hsid.
  apply update_where_In in Hsub as (r0 & Hr0 & [[Hne ->]|[_ ->]]).
  - congruence.
  - simpl. now rewrite Hat.
Qed.

(** When something raises inside the [with] block, an [ERROR] check is
    stored and the subscriptions are left as they were: [last_checked_at]
    is not written in this branch. *)
Lemma raised_probe_keeps_last_checked_at
      (env : ProbeEnv) (db : DB) (id : Z) (e : exn) :
  run_subscription_check_body (session env) db id = Raise e ->
  let '(db', r) := run_subscription_check env db id in
  subscriptions db' = subscriptions db
  /\ exists check, r = Ok (Some check)
                   /\ checks db' = checks db ++ [check]
                   /\ check_status check = ERROR
                   /\ subscription_id check = id.
Proof.
  intros H. unfold run_subscription_check. rewrite H. simpl.
  split; [reflexivity|]. eexists. repeat split.
Qed.

End CheckServiceFacts.

(** C3: at a probe during which the browser launch raises, the error branch
    of [run_subscription_check] stores an [ERROR] check stamped with the
    clock but leaves [last_checked_at] unset, so the subscription, whose
    interval is one hour, is due again one microsecond later. *)
Theorem failed_probe_leaves_last_checked_at :
  let env := {| session := launch_fails; handler_clock := 1000 |} in
  let '(db', r) := @run_subscription_check basic_latin env one_watch_db 1 in
  (exists check, r = Ok (Some check)
                 /\ checks db' = [check]
                 /\ check_status check = ERROR
                 /\ check_checked_at check = 1000)
  /\ map last_checked_at (subscriptions db') = [None]
  /\ get_subscriptions_due_for_check 1001 db' = [watch 1 None].
Proof.
  vm_compute. split; [|split; reflexivity].
  eexists. repeat split.
Qed.

(** ** One tick (scheduler.py) *)

Section TickFacts.

(** With the settings of the code a row handed back by a service cannot
    be read. *)
Lemma attribute_detached {A B : Type} (column : A -> B) (row : A) :
  exists e, attribute SessionLocal column row = Raise e.
Proof. eexists. reflexivity. Qed.

(** The first turn of the loop ends it: reading [subscription.id] raises in
    the [try] block and again in its handler, before any check is run. *)
Lemma check_loop_detached (run_check : DB -> Z -> DB * outcome (option Check))
      (subscription : Subscription) (rest : list Subscription) (db : DB) :
  exists e,
    check_loop SessionLocal run_check (subscription :: rest) db
    = (db, [], Some e).
Proof. eexists. reflexivity. Qed.

(** Were the rows still loaded, the loop would take one turn per due
    subscription, in order, whatever the check of each does, raise
    included: the checks are run one after the other on the store the
    former left, no exception leaves the loop, and each turn logs its
    subscription. *)
Lemma check_loop_loaded (settings : SessionSettings)
      (run_check : DB -> Z -> DB * outcome (option Check))
      (due : list Subscription) (db : DB) :
  expire_on_commit settings = false ->
  let '(db', log, raised) := check_loop settings run_check due db in
  db' = fold_left (fun d s => fst (run_check d (sub_id s))) due db
  /\ map logged_id log = map sub_id due
  /\ raised = None.
Proof.
  intros Hs. revert db. induction due as [|s due IH]; intros db.
  - simpl. auto.
  - cbn [check_loop fold_left]. unfold turn, turn_body, attribute.
    rewrite Hs. destruct (run_check db (sub_id s)) as [db1 r]. cbn [fst].
    specialize (IH db1).
    destruct (check_loop settings run_check due db1) as [[db2 log] raised].
    destruct IH as (Hdb & Hlog & Hraised).
    destruct r as [[c|]|e]; cbn;
      [destruct (check_available c); cbn| |]; rewrite Hlog; auto.
Qed.

Context {U : Unicode}.
Variable env : Z -> ProbeEnv.

Local Abbreviation probe := (probe env).

Lemma find_probe_keys (id : Z) (l1 l2 : list Subscription) :
  map (fun s => (sub_id s, active s)) l1 = map (fun s => (sub_id s, active s)) l2 ->
  find (fun s => (sub_id s =? id) && active s) l1 = None ->
  find (fun s => (sub_id s =? id) && active s) l2 = None.
Proof.
  revert l2. induction l1 as [|a l1 IH]; intros [|b l2]; simpl; try discriminate; auto.
  intros H. injection H as H1 H2 H3. rewrite H1, H2.
  destruct ((sub_id b =? id) && active b); [discriminate|]. now apply IH.
Qed.

Lemma probe_keeps_keys (db : DB) (id : Z) :
  probe_keys (fst (probe db id)) = probe_keys db.
Proof.
  unfold probe, run_subscription_check, run_subscription_check_body.
  destruct (find _ (subscriptions db)) as [subscription|]; [|reflexivity].
  destruct (find _ (services db)) as [service|]; [|reflexivity].
  destruct (find _ (users db)) as [user|]; [|reflexivity].
  destruct (returned _) as [result|]; [|reflexivity].
  destruct (CheckStatus_of _) as [st|]; [|reflexivity].
  unfold probe_keys. simpl. apply update_where_map. reflexivity.
Qed.

(** A check of an active subscription stores exactly one check for it. *)
Lemma probe_stores_one_check (db : DB) (sub : Subscription) :
  In (sub_id sub, true) (probe_keys db) ->
  exists check, checks (fst (probe db (sub_id sub))) = checks db ++ [check]
                /\ subscription_id check = sub_id sub.
Proof.
  intros Hin.
  unfold probe, run_subscription_check, run_subscription_check_body.
  destruct (find _ (subscriptions db)) as [subscription|] eqn:Hfind.
  - apply find_some in Hfind as [_ Hid].
    apply andb_true_iff in Hid as [Hid _]. apply Z.eqb_eq in Hid.
    destruct (find _ (services db)) as [service|];
      [|simpl; eexists; split; reflexivity].
    destruct (find _ (users db)) as [user|];
      [|simpl; eexists; split; reflexivity].
    destruct (returned _) as [result|];
      [|simpl; eexists; split; reflexivity].
    destruct (CheckStatus_of _) as [st|];
      [|simpl; eexists; split; reflexivity].
    simpl. eexists; split; [reflexivity|exact Hid].
  - exfalso. unfold probe_keys in Hin.
    apply in_map_iff in Hin as (s & Hs & Hin). injection Hs as Hs1 Hs2.
    apply (find_none _ _ Hfind) in Hin.
    rewrite Hs1, Hs2, Z.eqb_refl in Hin. discriminate.
Qed.

Lemma fold_probe_checks (due : list Subscription) (db : DB) :
  (forall sub, In sub due -> In (sub_id sub, true) (probe_keys db)) ->
  exists new,
    checks (fold_left (fun d s => fst (probe d (sub_id s))) due db)
    = checks db ++ new
    /\ map subscription_id new = map sub_id due.
Proof.
  revert db. induction due as [|s due IH]; intros db Hdue; simpl.
  - exists []. now rewrite app_nil_r.
  - destruct (probe_stores_one_check db s (Hdue s (or_introl eq_refl)))
      as (c & Hc & Hid).
    pose proof (probe_keeps_keys db (sub_id s)) as Hk.
    destruct (IH (fst (probe db (sub_id s)))) as (new & Hnew & Hids).
    { intros sub Hsub. rewrite Hk. apply Hdue. now right. }
    exists (c :: new). rewrite Hnew, Hc, <- app_assoc. simpl.
    split; [reflexivity|]. now rewrite Hid, Hids.
Qed.

End TickFacts.

(** What the loop is written for: with rows that stay loaded every due
    subscription gets its turn, in order, whatever the checks of the others
    did, and with [run_subscription_check] as the check the tick stores
    exactly one check per due subscription. *)
Lemma loaded_rows_isolate_faults
      (U : Unicode) (settings : SessionSettings) (env : Z -> ProbeEnv)
      (now : Z) (db : DB) :
  expire_on_commit settings = false ->
  let '(db', log, raised) :=
    _check_all_due_subscriptions settings (probe env) now db in
  raised = None
  /\ map logged_id log = map sub_id (get_subscriptions_due_for_check now db)
  /\ exists new,
       checks db' = checks db ++ new
       /\ map subscription_id new
          = map sub_id (get_subscriptions_due_for_check now db).
Proof.
  intros Hs. unfold _check_all_due_subscriptions.
  destruct (get_subscriptions_due_for_check now db) as [|s l] eqn:E.
  - repeat split. exists []. now rewrite app_nil_r.
  - rewrite <- E.
    pose proof (@check_loop_loaded settings (probe env)
                  (get_subscriptions_due_for_check now db) db Hs) as H.
    destruct (check_loop settings (probe env) _ db) as [[db' log] raised].
    destruct H as (-> & Hlog & Hleft).
    split; [exact Hleft|]. split; [exact Hlog|].
    apply fold_probe_checks. intros sub Hsub.
    unfold get_subscriptions_due_for_check in Hsub.
    rewrite !filter_In in Hsub. destruct Hsub as [[Hin Hact] _].
    unfold probe_keys. apply in_map_iff. exists sub. rewrite Hact. auto.
Qed.

(** C7 does not hold of the code.  The due subscriptions reach the loop
    after the session that loaded them was committed and closed; with the
    settings of [SessionLocal] they are expired by then, and reading
    [subscription.id] raises in the [try] block of the first turn and again
    in its handler.  So whenever a subscription is due the tick ends in
    its outer handler: no check is run, not one turn is completed, and the
    store is as it was. *)
Theorem tick_ends_at_first_due_row
        (run_check : DB -> Z -> DB * outcome (option Check))
        (now : Z) (db : DB) :
  get_subscriptions_due_for_check now db <> [] ->
  exists e,
    _check_all_due_subscriptions SessionLocal run_check now db
    = (db, [], Some e).
Proof.
  intros Hdue. unfold _check_all_due_subscriptions.
  destruct (get_subscriptions_due_for_check now db) as [|s l];
    [contradiction|].
  apply check_loop_detached.
Qed.

(** Three due watches, the second of which would throw during navigation:
    none of the three is checked. *)
Lemma tick_ends_at_first_due_row_witness :
  map sub_id (get_subscriptions_due_for_check 0 three_watch_db) = [1; 2; 3]
  /\ exists e,
       _check_all_due_subscriptions SessionLocal
         (@probe basic_latin three_watch_env) 0 three_watch_db
       = (three_watch_db, [], Some e).
Proof.
  split; [reflexivity|].
  apply (@tick_ends_at_first_due_row (@probe basic_latin three_watch_env)
           0 three_watch_db).
  vm_compute. discriminate.
Defined.

(** The same three watches with rows that stay loaded: the first and the
    third complete although the second throws during navigation, and all
    three checks are stored. *)
Example second_of_three_throws :
  let '(db', log, raised) :=
    _check_all_due_subscriptions kept_loaded
      (@probe basic_latin three_watch_env) 0 three_watch_db in
  map (fun c => (subscription_id c, check_status c)) (checks db')
  = [(1, NO_APPOINTMENTS); (2, ERROR); (3, APPOINTMENTS_FOUND)]
  /\ map last_checked_at (subscriptions db') = [Some 10; Some 20; Some 30]
  /\ log = [LogNoAppointments 1; LogNoAppointments 2; LogFound 3 1]
  /\ raised = None.
Proof. vm_compute. repeat split. Qed.

(** The same when the second probe raises instead of returning: the turn
    of the third watch is still taken, and the second keeps its
    [last_checked_at]. *)
Example second_of_three_raises :
  let '(db', log, raised) :=
    _check_all_due_subscriptions kept_loaded
      (@probe basic_latin second_cannot_launch) 0 three_watch_db in
  map (fun c => (subscription_id c, check_status c)) (checks db')
  = [(1, NO_APPOINTMENTS); (2, ERROR); (3, APPOINTMENTS_FOUND)]
  /\ map last_checked_at (subscriptions db') = [Some 10; None; Some 30]
  /\ raised = None.
Proof. vm_compute. repeat split. Qed.

(** ** Notifications (notification_service.py) *)

(** C5 does not hold of the code: a slot that was already sent to the chat
    is forwarded again when the same outcome is processed a second time. *)
Lemma resend_forwards_again :
  let '(db1, outbox1, _) := sent_once in
  In (lit "2025-11-18", lit "14:00") (notified_pairs 1001 outbox1)
  /\ ~ forwards_only_new always_delivers 50 db1 outbox1
         sample_user sample_check [sample_appointment]
  /\ notified_pairs 1001
       (snd (fst (send_appointment_notification always_delivers 50 db1 outbox1
                    sample_user sample_check [sample_appointment])))
     = [(lit "2025-11-18", lit "14:00"); (lit "2025-11-18", lit "14:00")].
Proof.
  vm_compute. split; [left; reflexivity|]. split; [discriminate|reflexivity].
Qed.

Lemma numbered_pairs (l : list Appointment) (n : nat) :
  map (fun '(_, d, t) => (d, t)) (numbered n l)
  = map (fun a => (appointment_date a, appointment_time a)) l.
Proof.
  revert n. induction l as [|a l IH]; intros n; simpl; [reflexivity|].
  now rewrite IH.
Qed.

(** C5 as the code has it: when the service of the check resolves and the
    transport accepts the message, exactly one message goes to the user's
    chat; it counts all the appointments handed in and lists the first 15 in
    order, whatever was sent before, and the appointment rows and their
    [notified] marks are left as they were. *)
Theorem notification_forwards_all
        (send_message : Z -> Message -> outcome unit) (now : Z)
        (db : DB) (outbox : Outbox)
        (user : User) (check : Check) (appointments0 : list Appointment)
        (service : Service) :
  service_of_check db check = Some service ->
  send_message (telegram_id user) (render service check appointments0) = Ok tt ->
  let '(db', outbox', _) :=
    send_appointment_notification send_message now db outbox user check appointments0 in
  outbox' = outbox ++ [(telegram_id user, render service check appointments0)]
  /\ msg_found (render service check appointments0) = length appointments0
  /\ map (fun '(_, d, t) => (d, t)) (msg_lines (render service check appointments0))
     = map (fun a => (appointment_date a, appointment_time a))
           (firstn 15 appointments0)
  /\ appointment_rows db' = appointment_rows db.
Proof.
  intros Hs Hsend. unfold send_appointment_notification. rewrite Hs, Hsend.
  simpl. split; [reflexivity|]. split; [reflexivity|]. split; [|reflexivity].
  apply numbered_pairs.
Qed.

Lemma notification_forwards_all_witness :
  let '(db', outbox', _) :=
    send_appointment_notification always_delivers 50 (fst (fst sent_once))
      (snd (fst sent_once)) sample_user sample_check [sample_appointment] in
  outbox' = snd (fst sent_once)
            ++ [(telegram_id sample_user,
                 render sample_service sample_check [sample_appointment])]
  /\ msg_found (render sample_service sample_check [sample_appointment])
     = length [sample_appointment]
  /\ map (fun '(_, d, t) => (d, t))
         (msg_lines (render sample_service sample_check [sample_appointment]))
     = map (fun a => (appointment_date a, appointment_time a))
           (firstn 15 [sample_appointment])
  /\ appointment_rows db' = appointment_rows (fst (fst sent_once)).
Proof.
  apply (@notification_forwards_all always_delivers 50 (fst (fst sent_once))
           (snd (fst sent_once)) sample_user sample_check [sample_appointment]
           sample_service); reflexivity.
Defined.

(* ================================================================== *)
(** * Further properties of the code                                   *)
(* ================================================================== *)

(** ** Cancelling and finding subscriptions (subscription_service.py) *)

Lemma subscription_by_id_some (id : Z) (l : list Subscription) (s : Subscription) :
  subscription_by_id id l = Some s -> In s l /\ sub_id s = id.
Proof.
  unfold subscription_by_id. intros H. apply find_some in H as [Hin Hid].
  apply Z.eqb_eq in Hid. auto.
Qed.

Lemma subscription_by_id_none (id : Z) (l : list Subscription) :
  subscription_by_id id l = None <-> ~ In id (map sub_id l).
Proof.
  unfold subscription_by_id. split.
  - intros H Hin. apply in_map_iff in Hin as (s & Hs & Hin).
    apply (find_none _ _ H) in Hin. rewrite Hs, Z.eqb_refl in Hin. discriminate.
  - intros H. destruct (find _ l) as [s|] eqn:E; [|reflexivity].
    exfalso. apply H. apply find_some in E as [Hin Hid].
    apply Z.eqb_eq in Hid. rewrite <- Hid. now apply in_map.
Qed.

Lemma subscription_by_id_unique (l : list Subscription) (s : Subscription) :
  NoDup (map sub_id l) -> In s l -> subscription_by_id (sub_id s) l = Some s.
Proof.
  intros Hnd Hin. unfold subscription_by_id.
  apply (@find_unique_key _ _ sub_id _ (sub_id s)); auto.
  intros r. apply Z.eqb_eq.
Qed.


Lemma deleted_rows_inactive (db : DB) (id : Z) (s : Subscription) :
  In s (subscriptions (fst (delete_subscription db id))) ->
  sub_id s = id -> active s = false.
Proof.
  unfold delete_subscription.
  destruct (subscription_by_id id (subscriptions db)) as [sub|] eqn:E; simpl.
  - apply subscription_by_id_some in E as [_ Hid]. rewrite Hid.
    intros Hs Hsid.
    apply update_where_In in Hs as (r0 & Hr0 & [[Hne ->]|[_ ->]]);
      [congruence|reflexivity].
  - apply subscription_by_id_none in E. intros Hs Hsid.
    exfalso. apply E. rewrite <- Hsid. now apply in_map.
Qed.

Lemma inactive_is_not_checked {U : Unicode} (env : ProbeEnv) (db : DB) (id : Z) :
  (forall s, In s (subscriptions db) -> sub_id s = id -> active s = false) ->
  run_subscription_check env db id = (db, Ok None).
Proof.
  intros H. unfold run_subscription_check, run_subscription_check_body.
  destruct (find _ (subscriptions db)) as [s|] eqn:E; [|reflexivity].
  apply find_some in E as [Hin Hs]. apply andb_true_iff in Hs as [Hid Hact].
  apply Z.eqb_eq in Hid. rewrite (H s Hin Hid) in Hact. discriminate.
Qed.

(** X2: once [delete_subscription] was called for an id, no subscription
    with that id is selected as due, at any time, and a check asked for that
    id answers [None] and leaves the store untouched. *)
Theorem deleted_subscription_is_left_alone
        (U : Unicode) (env : ProbeEnv) (db : DB) (id now : Z) :
  let db' := fst (delete_subscription db id) in
  (forall s, In s (get_subscriptions_due_for_check now db') -> sub_id s <> id)
  /\ run_subscription_check env db' id = (db', Ok None).
Proof.
  intros db'. split.
  - intros s Hs Hid. unfold get_subscriptions_due_for_check in Hs.
    rewrite !filter_In in Hs. destruct Hs as [[Hin Hact] _].
    rewrite (@deleted_rows_inactive db id s Hin Hid) in Hact. discriminate.
  - apply inactive_is_not_checked. intros s. apply (@deleted_rows_inactive db id s).
Qed.




Lemma find_snoc_fresh {A} (p : A -> bool) (l : list A) (x : A) :
  (forall r, In r l -> p r = false) -> p x = true -> find p (l ++ [x]) = Some x.
Proof.
  intros Hl Hx. induction l as [|a l IH]; simpl.
  - now rewrite Hx.
  - rewrite (Hl a (or_introl eq_refl)). apply IH. intros r Hr. apply Hl. now right.
Qed.

Lemma references_exist_spec (db : DB) (u s : Z) :
  references_exist db u s = true
  <-> In u (map user_pk (users db)) /\ In s (map service_pk (services db)).
Proof.
  unfold references_exist. rewrite andb_true_iff, !existsb_exists. split.
  - intros [(x & Hx & Ex) (y & Hy & Ey)].
    apply Z.eqb_eq in Ex. apply Z.eqb_eq in Ey. subst.
    split; now apply in_map.
  - intros [Hu Hs]. apply in_map_iff in Hu as (x & <- & Hx).
    apply in_map_iff in Hs as (y & <- & Hy).
    split; eexists; (split; [eassumption|apply Z.eqb_refl]).
Qed.

(** X4: under the primary key, [create_subscription] answers with a
    subscription exactly when the pair has a row already or both the user
    and the service exist; otherwise the insert is refused by the foreign
    keys, the answer is [None] and the store is left as it was.  The
    subscription it answers with is an active one of the user for the
    service, which [get_subscription] finds by its id and
    [get_user_subscriptions] lists; when the pair had no row before, it is
    due at once, whatever the time. *)
Theorem created_subscription_is_found
        (db : DB) (u s interval qty : Z) (notify : bool) :
  subscriptions_pk db ->
  let '(db', r) := create_subscription db u s interval qty notify in
  match r with
  | Some sub =>
      user_id sub = u /\ service_id sub = s /\ active sub = true
      /\ get_subscription db' (sub_id sub) = Some sub
      /\ In sub (get_user_subscriptions db' u true)
      /\ ((forall o, In o (subscriptions db) -> user_id o = u ->
                     service_id o <> s) ->
          In u (map user_pk (users db))
          /\ In s (map service_pk (services db))
          /\ forall now, In sub (get_subscriptions_due_for_check now db'))
  | None =>
      db' = db
      /\ (forall o, In o (subscriptions db) -> user_id o = u ->
                    service_id o <> s)
      /\ ~ (In u (map user_pk (users db))
            /\ In s (map service_pk (services db)))
  end.
Proof.
  intros Hpk. unfold create_subscription.
  destruct (find _ (subscriptions db)) as [found|] eqn:Hfind.
  - pose proof (find_some _ _ Hfind) as [Hin Hkey].
    apply andb_true_iff in Hkey as [Hu Hs].
    apply Z.eqb_eq in Hu. apply Z.eqb_eq in Hs.
    destruct (active found) eqn:Hact; cbn [negb fst snd].
    + rewrite (@subscription_by_id_unique _ _ Hpk Hin).
      unfold get_subscription.
      rewrite (@subscription_by_id_unique _ _ Hpk Hin).
      repeat split; auto.
      * unfold get_user_subscriptions. rewrite !filter_In, Hu, Z.eqb_refl. auto.
      * exfalso. apply (H found Hin Hu Hs).
      * exfalso. apply (H found Hin Hu Hs).
      * exfalso. apply (H found Hin Hu Hs).
    + assert (Hre : subscription_by_id (sub_id found)
                      (update_where sub_id (sub_id found)
                         (reactivate interval qty notify) (subscriptions db))
                    = Some (reactivate interval qty notify found))
        by (apply refetch_updated; auto).
      cbn [subscriptions set_subscriptions]. rewrite Hre.
      unfold get_subscription. cbn [subscriptions set_subscriptions sub_id reactivate].
      rewrite Hre.
      repeat split; auto.
      * unfold get_user_subscriptions. cbn [subscriptions set_subscriptions].
        rewrite !filter_In.
        apply subscription_by_id_some in Hre as [Hre _].
        cbn [user_id active reactivate]. rewrite Hu, Z.eqb_refl. auto.
      * exfalso. apply (H found Hin Hu Hs).
      * exfalso. apply (H found Hin Hu Hs).
      * exfalso. apply (H found Hin Hu Hs).
  - assert (Hnone : forall o, In o (subscriptions db) -> user_id o = u ->
                              service_id o <> s).
    { intros o Ho Hou Hos. apply (find_none _ _ Hfind) in Ho.
      rewrite Hou, Hos, !Z.eqb_refl in Ho. discriminate. }
    destruct (references_exist db u s) eqn:Href.
    + apply references_exist_spec in Href as [Hru Hrs].
      set (new := {| sub_id := next_pk sub_id (subscriptions db); user_id := u;
                     service_id := s; active := true; interval_hours := interval;
                     quantity := qty; notify_telegram := notify;
                     last_checked_at := None |}).
      assert (Hnew : subscription_by_id (sub_id new)
                       (subscriptions
                          (set_subscriptions db (subscriptions db ++ [new])))
                     = Some new).
      { unfold subscription_by_id, set_subscriptions.
        cbn [subscriptions sub_id new]. apply find_snoc_fresh.
        - intros r Hr. apply Z.eqb_neq.
          pose proof (next_pk_fresh sub_id _ _ Hr). lia.
        - simpl. apply Z.eqb_refl. }
      cbv zeta. fold new. rewrite Hnew.
      unfold get_subscription. rewrite Hnew.
      repeat split; auto.
      * unfold get_user_subscriptions, set_subscriptions.
        cbn [subscriptions].
        rewrite !filter_In.
        cbn [user_id active new]. rewrite Z.eqb_refl. repeat split; auto.
        apply in_or_app. right. now left.
      * intros now. unfold get_subscriptions_due_for_check, set_subscriptions.
        cbn [subscriptions].
        rewrite !filter_In. repeat split; auto.
        apply in_or_app. right. now left.
    + split; [reflexivity|]. split; [exact Hnone|].
      intros H. apply references_exist_spec in H. congruence.
Qed.

Lemma created_subscription_is_found_witness :
  let '(db', r) := create_subscription two_user_db 2 1 3 1 true in
  match r with
  | Some sub =>
      user_id sub = 2 /\ service_id sub = 1 /\ active sub = true
      /\ get_subscription db' (sub_id sub) = Some sub
      /\ In sub (get_user_subscriptions db' 2 true)
      /\ ((forall o, In o (subscriptions two_user_db) -> user_id o = 2 ->
                     service_id o <> 1) ->
          In 2 (map user_pk (users two_user_db))
          /\ In 1 (map service_pk (services two_user_db))
          /\ forall now, In sub (get_subscriptions_due_for_check now db'))
  | None =>
      db' = two_user_db
      /\ (forall o, In o (subscriptions two_user_db) -> user_id o = 2 ->
                    service_id o <> 1)
      /\ ~ (In 2 (map user_pk (users two_user_db))
            /\ In 1 (map service_pk (services two_user_db)))
  end.
Proof.
  apply (@created_subscription_is_found two_user_db 2 1 3 1 true).
  unfold subscriptions_pk. simpl. constructor; [intros []|constructor].
Defined.

(** The subscription of the second user is stored, and a subscription to
    a service that does not exist is refused. *)
Example create_subscription_references :
  map sub_id (subscriptions (fst (create_subscription two_user_db 2 1 3 1 true)))
  = [1; 2]
  /\ create_subscription two_user_db 2 9 3 1 true = (two_user_db, None).
Proof. vm_compute. split; reflexivity. Qed.

(** ** What a probe hands back (appointment_checker.py) *)

Ltac status_cases :=
  repeat split; simpl; auto; try tauto; try discriminate;
  try (intros H; vm_compute in H; try discriminate; try tauto;
       destruct H as [H|H]; vm_compute in H; discriminate);
  try (intros [H|H]; vm_compute in H; discriminate).

Lemma detected_result_invariant {U : Unicode}
      (now : Z) (page : Page) (service category : str) (r : CheckResult) :
  _detect_and_extract_appointments now page service category = Ok r ->
  result_invariant service category r /\ status r <> lit "error".
Proof.
  unfold _detect_and_extract_appointments, result_invariant.
  destruct (content page) as [html|]; [|discriminate].
  destruct (no_appointment_pattern _ html).
  - intros H. injection H as <-. status_cases.
  - destruct (_extract_appointment_slots page) eqn:E;
      intros H; injection H as <-; status_cases.
Qed.

Lemma with_screenshot_invariant (service category : str) (r : CheckResult)
      (p : option str) :
  result_invariant service category r ->
  result_invariant service category (with_screenshot r p).
Proof. unfold result_invariant. simpl. tauto. Qed.

Lemma handled_result_invariant {U : Unicode}
      (e : Session) (x : exn) (l : Locals) (category service : str)
      (r : CheckResult) :
  attempt_handlers e x l category service = Ok r ->
  result_invariant service category r /\ screenshot_path r <> None
  /\ status r = lit "error".
Proof.
  unfold attempt_handlers, result_invariant.
  destruct (page_bound l); [|discriminate].
  destruct x; intros H; injection H as <-; status_cases.
Qed.

Lemma returned_result_invariant {U : Unicode}
      (e : Session) (category service : str) (quantity : Z) (r : CheckResult) :
  returned (check_appointments e category service quantity) = Ok r ->
  result_invariant service category r /\ screenshot_path r <> None.
Proof.
  unfold check_appointments.
  destruct (attempt_body e category service) as [o l] eqn:E.
  assert (Ho : match o with
               | Ok r0 => result_invariant service category r0
                          /\ screenshot_path r0 <> None
               | Raise _ => True
               end).
  { revert E. unfold attempt_body.
    destruct (playwright_start e); [|intros H; injection H as <- <-; exact I].
    destruct (launch e); [|intros H; injection H as <- <-; exact I].
    destruct (new_page e); [|intros H; injection H as <- <-; exact I].
    destruct (navigate e); [|intros H; injection H as <- <-; exact I].
    destruct (networkidle e); [|intros H; injection H as <- <-; exact I].
    destruct (_detect_and_extract_appointments _ _ _ _) as [r0|] eqn:D;
      [|intros H; injection H as <- <-; exact I].
    intros H. injection H as <- <-.
    apply detected_result_invariant in D as [D _].
    split; [now apply with_screenshot_invariant|discriminate]. }
  assert (Hh : forall h, match o with
                         | Ok result => Ok result
                         | Raise x => attempt_handlers e x l category service
                         end = Ok h ->
                         result_invariant service category h
                         /\ screenshot_path h <> None).
  { intros h. destruct o as [r0|x].
    - intros H. injection H as <-. exact Ho.
    - intros H. apply handled_result_invariant in H. tauto. }
  destruct (browser_bound l); simpl.
  - destruct (close e); [apply Hh|discriminate].
  - apply Hh.
Qed.

Lemma invariant_status_valid (service category : str) (r : CheckResult) :
  result_invariant service category r ->
  exists st, CheckStatus_of (status r) = Ok st
             /\ (st = APPOINTMENTS_FOUND <-> status r = lit "appointments_found")
             /\ st <> SUCCESS /\ st <> TIMEOUT.
Proof.
  intros (Hs & _). simpl in Hs.
  destruct Hs as [<-|[<-|[<-|[<-|[]]]]]; eexists;
    (split; [vm_compute; reflexivity|]); status_cases.
Qed.

(** X5: every result that [check_appointments] returns has one of the four
    statuses [no_appointments], [appointments_found], [unknown] and [error];
    it is [available] exactly when the status is [appointments_found], which
    is exactly when it carries appointments; it has an error message exactly
    for [error] and [unknown]; it names the service and category asked for,
    has a screenshot path, and its status is a value of [CheckStatus] (never
    [success] or [timeout]). *)
Theorem check_result_is_classified
        (U : Unicode) (e : Session) (category service : str) (quantity : Z)
        (r : CheckResult) :
  returned (check_appointments e category service quantity) = Ok r ->
  result_invariant service category r
  /\ screenshot_path r <> None
  /\ exists st, CheckStatus_of (status r) = Ok st
                /\ (st = APPOINTMENTS_FOUND <-> status r = lit "appointments_found")
                /\ st <> SUCCESS /\ st <> TIMEOUT.
Proof.
  intros H. apply returned_result_invariant in H as [Hi Hp].
  split; [exact Hi|]. split; [exact Hp|].
  now apply (invariant_status_valid Hi).
Qed.

Lemma check_result_is_classified_witness :
  let r := error_result timeout_session
             (lit "Timeout: " ++ lit "Timeout 10000ms exceeded")
             (Some (lit "error_timeout.png")) (lit "c") (lit "s") in
  result_invariant (lit "s") (lit "c") r
  /\ screenshot_path r <> None
  /\ exists st, CheckStatus_of (status r) = Ok st
                /\ (st = APPOINTMENTS_FOUND <-> status r = lit "appointments_found")
                /\ st <> SUCCESS /\ st <> TIMEOUT.
Proof.
  apply (@check_result_is_classified basic_latin timeout_session
           (lit "c") (lit "s") 1).
  reflexivity.
Defined.

(** X6: once the browser is launched and the page is created, and closing
    the browser does not raise, [check_appointments] returns a result on
    every path and the browser is closed.  A failure of the navigation gives
    the status [error] with no appointments; a Playwright timeout is reported
    as "Timeout: " followed by its text; when navigation, the wait for the
    page and the reading of its content all succeed, the status is not
    [error]. *)
Theorem probe_returns_once_page_exists
        (U : Unicode) (e : Session) (category service : str) (quantity : Z) :
  playwright_start e = Ok tt -> launch e = Ok tt -> new_page e = Ok tt ->
  close e = Ok tt ->
  let a := check_appointments e category service quantity in
  browser_closed a = true
  /\ exists r,
      returned a = Ok r
      /\ (forall x, navigate e = Raise x ->
                    status r = lit "error" /\ available r = false
                    /\ appointments r = [])
      /\ (forall msg, navigate e = Raise (PlaywrightTimeout msg) ->
                      error_message r = Some (lit "Timeout: " ++ msg))
      /\ (forall html, navigate e = Ok tt -> networkidle e = Ok tt ->
                       content (terminal e) = Ok html ->
                       status r <> lit "error").
Proof.
  intros Hs Hl Hn Hc. unfold check_appointments, attempt_body.
  rewrite Hs, Hl, Hn.
  destruct (navigate e) as [[]|x] eqn:Hnav.
  - destruct (networkidle e) as [[]|y] eqn:Hidle.
    + destruct (_detect_and_extract_appointments _ _ _ _) as [r0|z] eqn:D.
      * simpl. rewrite Hc. split; [reflexivity|]. eexists.
        split; [reflexivity|]. split; [discriminate|]. split; [discriminate|].
        intros html _ _ _. simpl.
        now apply detected_result_invariant in D as [_ D].
      * simpl. rewrite Hc. split; [reflexivity|].
        unfold _detect_and_extract_appointments in D.
        destruct z; eexists; (split; [reflexivity|]);
          (split; [discriminate|]); (split; [discriminate|]);
          intros html _ _ Hcontent; rewrite Hcontent in D;
          destruct (no_appointment_pattern _ html);
          try discriminate D;
          destruct (_extract_appointment_slots (terminal e)); discriminate D.
    + simpl. rewrite Hc. split; [reflexivity|].
      destruct y; eexists; (split; [reflexivity|]);
        (split; [discriminate|]); (split; [discriminate|]);
        intros html _ Hfalse; discriminate Hfalse.
  - simpl. rewrite Hc. split; [reflexivity|].
    destruct x; eexists; (split; [reflexivity|]);
      (split; [intros x0 _; repeat split|]);
      (split; [intros msg0 H; injection H as <- || discriminate H; reflexivity|]);
      intros html Hfalse; discriminate Hfalse.
Qed.

Lemma probe_returns_once_page_exists_witness :
  let e := timeout_session in
  let a := @check_appointments basic_latin e (lit "c") (lit "s") 1 in
  browser_closed a = true
  /\ exists r,
      returned a = Ok r
      /\ (forall x, navigate e = Raise x ->
                    status r = lit "error" /\ available r = false
                    /\ appointments r = [])
      /\ (forall msg, navigate e = Raise (PlaywrightTimeout msg) ->
                      error_message r = Some (lit "Timeout: " ++ msg))
      /\ (forall html, navigate e = Ok tt -> networkidle e = Ok tt ->
                       content (terminal e) = Ok html ->
                       status r <> lit "error").
Proof.
  apply (@probe_returns_once_page_exists basic_latin timeout_session
           (lit "c") (lit "s") 1); reflexivity.
Defined.

(** X7: the browser is closed on every way out of [check_appointments]
    exactly when it was launched, that is when Playwright started and the
    launch succeeded; and when closing it raises, that exception is what the
    call raises, in place of any result. *)
Theorem session_teardown
        (U : Unicode) (e : Session) (category service : str) (quantity : Z) :
  let a := check_appointments e category service quantity in
  browser_closed a = browser_launched a
  /\ (browser_launched a = true
      <-> playwright_start e = Ok tt /\ launch e = Ok tt)
  /\ (forall x, browser_launched a = true -> close e = Raise x ->
                returned a = Raise x).
Proof.
  intros a.
  destruct (browser_closed_on_every_path e category service quantity) as [H1 H2].
  split; [exact H1|]. split; [exact H2|].
  intros x. subst a. unfold check_appointments.
  destruct (attempt_body e category service) as [r l].
  destruct (browser_bound l); simpl; [|discriminate].
  intros _ ->. reflexivity.
Qed.

(** ** What a check stores (check_service.py) *)

Section StoredCheck.
Context {U : Unicode}.

(** The [with] block of [run_subscription_check], taken apart. *)
Lemma run_subscription_check_body_inv
      (e : Session) (db db' : DB) (id : Z) (check : Check) :
  run_subscription_check_body e db id = Ok (db', Some check) ->
  exists subscription service result st,
    In subscription (subscriptions db) /\ sub_id subscription = id
    /\ active subscription = true
    /\ In service (services db) /\ service_pk service = service_id subscription
    /\ returned (check_appointments e (category service) (service_name_of service)
                   (quantity subscription)) = Ok result
    /\ CheckStatus_of (status result) = Ok st
    /\ check = {| check_id := next_pk check_id (checks db);
                  subscription_id := id;
                  check_status := st;
                  check_available := available result;
                  appointment_count := Z.of_nat (length (appointments result));
                  check_screenshot_path := screenshot_path result;
                  check_error_message := error_message result;
                  check_checked_at := checked_at result |}
    /\ users db' = users db /\ notifications db' = notifications db
    /\ checks db' = checks db ++ [check]
    /\ appointment_rows db'
       = appointment_rows db
         ++ appointment_records (check_id check)
              (next_pk appointment_id (appointment_rows db)) (appointments result)
    /\ subscriptions db'
       = update_where sub_id id (set_last_checked_at (checked_at result))
                      (subscriptions db)
    /\ services db'
       = update_where service_pk (service_pk service)
                      (count_check (available result) (checked_at result))
                      (services db).
Proof.
  unfold run_subscription_check_body.
  destruct (find _ (subscriptions db)) as [subscription|] eqn:Hfind;
    [|discriminate].
  apply find_some in Hfind as [Hin Hid].
  apply andb_true_iff in Hid as [Hid Hact]. apply Z.eqb_eq in Hid.
  destruct (find _ (services db)) as [service|] eqn:Hsvc; [|discriminate].
  apply find_some in Hsvc as [Hsin Hspk]. apply Z.eqb_eq in Hspk.
  destruct (find _ (users db)) as [user|]; [|discriminate].
  destruct (returned _) as [result|] eqn:Hret; [|discriminate].
  destruct (CheckStatus_of _) as [st|] eqn:Hst; [|discriminate].
  intros H. injection H as <- Hc. simpl in Hc.
  rewrite find_snoc_fresh in Hc.
  - injection Hc as <-. rewrite Hid.
    exists subscription, service, result, st. simpl. rewrite Hid.
    repeat split; auto.
  - intros r Hr. apply Z.eqb_neq. simpl.
    pose proof (next_pk_fresh check_id _ _ Hr). lia.
  - simpl. apply Z.eqb_refl.
Qed.

Lemma appointment_records_spec (ck next : Z) (slots : list AppointmentSlot) :
  length (appointment_records ck next slots) = length slots
  /\ map appointment_id (appointment_records ck next slots)
     = map (fun i => next + Z.of_nat i) (seq 0 (length slots))
  /\ forall a, In a (appointment_records ck next slots) ->
               appointment_check_id a = ck /\ notified a = false.
Proof.
  revert next. induction slots as [|s slots IH]; intros next; simpl.
  - repeat split; auto; contradiction.
  - destruct (IH (next + 1)) as (Hl & Hm & Ha). split; [now rewrite Hl|]. split.
    + f_equal; [lia|]. rewrite Hm, <- seq_shift, map_map.
      apply map_ext. intros i. lia.
    + intros a [<-|Hin]; [simpl; auto|now apply Ha].
Qed.

End StoredCheck.

(** X8: whenever [run_subscription_check] answers with a check, that check
    is the one row added to [checks], under a fresh id and for the requested
    subscription; the appointment rows added are exactly
    [appointment_count] many, all point to the check and are not yet
    notified; and there are such rows exactly when the check is [available],
    which is exactly when its status is [APPOINTMENTS_FOUND]. *)
Theorem stored_check_matches_its_appointments
        (U : Unicode) (env : ProbeEnv) (db db' : DB) (id : Z) (check : Check) :
  run_subscription_check env db id = (db', Ok (Some check)) ->
  checks db' = checks db ++ [check]
  /\ subscription_id check = id
  /\ ~ In (check_id check) (map check_id (checks db))
  /\ exists new,
      appointment_rows db' = appointment_rows db ++ new
      /\ Z.of_nat (length new) = appointment_count check
      /\ (forall a, In a new -> appointment_check_id a = check_id check
                                /\ notified a = false)
      /\ (check_available check = true <-> new <> [])
      /\ (check_status check = APPOINTMENTS_FOUND <-> new <> []).
Proof.
  unfold run_subscription_check.
  destruct (run_subscription_check_body (session env) db id)
    as [[db1 r]|x] eqn:E.
  - intros H. injection H as <- ->.
    apply run_subscription_check_body_inv in E
      as (sub & svc & result & st & _ & _ & _ & _ & _ & Hret & Hst & Hck
          & _ & _ & Hchecks & Hrows & _ & _).
    apply returned_result_invariant in Hret as [Hinv _].
    destruct (invariant_status_valid Hinv) as (st' & Hst' & Hfound & _).
    rewrite Hst in Hst'. injection Hst' as <-.
    destruct Hinv as (_ & Hav & Happ & _).
    split; [exact Hchecks|]. split; [now rewrite Hck|]. split.
    { rewrite Hck. simpl. apply next_pk_not_in. }
    eexists. split; [exact Hrows|].
    destruct (appointment_records_spec (check_id check)
                (next_pk appointment_id (appointment_rows db))
                (appointments result)) as (Hl & _ & Ha).
    assert (Hne : appointment_records (check_id check)
                    (next_pk appointment_id (appointment_rows db))
                    (appointments result) <> []
                  <-> appointments result <> []).
    { destruct (appointments result); simpl; split; congruence. }
    split; [rewrite Hl, Hck; reflexivity|]. split; [exact Ha|].
    rewrite Hne, Hck. simpl. split; [exact Happ|].
    rewrite Hfound, <- Hav. exact Happ.
  - intros H. injection H as <- <-. simpl.
    split; [reflexivity|]. split; [reflexivity|].
    split; [apply next_pk_not_in|].
    exists []. rewrite app_nil_r. repeat split; try contradiction;
      try discriminate; intros H; now elim H.
Qed.

Lemma stored_check_matches_its_appointments_witness :
  let db' := fst (@run_subscription_check basic_latin (three_watch_env 3)
                    three_watch_db 3) in
  checks db' = checks three_watch_db ++ [slot_check]
  /\ subscription_id slot_check = 3
  /\ ~ In (check_id slot_check) (map check_id (checks three_watch_db))
  /\ exists new,
      appointment_rows db' = appointment_rows three_watch_db ++ new
      /\ Z.of_nat (length new) = appointment_count slot_check
      /\ (forall a, In a new -> appointment_check_id a = check_id slot_check
                                /\ notified a = false)
      /\ (check_available slot_check = true <-> new <> [])
      /\ (check_status slot_check = APPOINTMENTS_FOUND <-> new <> []).
Proof.
  apply (@stored_check_matches_its_appointments basic_latin (three_watch_env 3)
           three_watch_db _ 3 slot_check).
  vm_compute. reflexivity.
Defined.

Lemma appointment_records_ids (ck next : Z) (slots : list AppointmentSlot) :
  NoDup (map appointment_id (appointment_records ck next slots))
  /\ forall a, In a (appointment_records ck next slots) -> next <= appointment_id a.
Proof.
  revert next. induction slots as [|s slots IH]; intros next; simpl.
  - split; [constructor|contradiction].
  - destruct (IH (next + 1)) as [Hnd Hge]. split.
    + constructor; [|exact Hnd]. intros Hin.
      apply in_map_iff in Hin as (a & Ha & Hin). apply Hge in Hin. lia.
    + intros a [<-|Hin]; [simpl; lia|]. apply Hge in Hin. lia.
Qed.

Lemma run_subscription_check_body_cases {U : Unicode}
      (e : Session) (db db' : DB) (id : Z) (r : option Check) :
  run_subscription_check_body e db id = Ok (db', r) ->
  (db' = db /\ r = None) \/ exists check, r = Some check.
Proof.
  unfold run_subscription_check_body.
  destruct (find _ (subscriptions db)) as [subscription|];
    [|intros H; injection H as <- <-; auto].
  destruct (find _ (services db)) as [service|]; [|discriminate].
  destruct (find _ (users db)) as [user|]; [|discriminate].
  destruct (returned _) as [result|]; [|discriminate].
  destruct (CheckStatus_of _) as [st|]; [|discriminate].
  intros H. injection H as <- <-. right. simpl.
  rewrite find_snoc_fresh; eauto.
  - intros r Hr. apply Z.eqb_neq. simpl.
    pose proof (next_pk_fresh check_id _ _ Hr). lia.
  - simpl. apply Z.eqb_refl.
Qed.

(** X9: [run_subscription_check] keeps the primary keys of [checks] and of
    [appointments] free of duplicates, on every path. *)
Theorem check_keys_stay_unique
        (U : Unicode) (env : ProbeEnv) (db : DB) (id : Z) :
  NoDup (map check_id (checks db)) ->
  NoDup (map appointment_id (appointment_rows db)) ->
  let db' := fst (run_subscription_check env db id) in
  NoDup (map check_id (checks db'))
  /\ NoDup (map appointment_id (appointment_rows db')).
Proof.
  intros Hc Ha. unfold run_subscription_check.
  destruct (run_subscription_check_body (session env) db id)
    as [[db1 r]|x] eqn:E; simpl.
  - destruct (run_subscription_check_body_cases _ _ _ E) as [[-> _]|[check ->]];
      [auto|].
    apply run_subscription_check_body_inv in E
      as (sub & svc & result & st & _ & _ & _ & _ & _ & _ & _ & Hck
          & _ & _ & Hchecks & Hrows & _ & _).
    rewrite Hchecks, Hrows, !map_app. split.
    + simpl. apply NoDup_snoc; [exact Hc|].
      rewrite Hck. simpl. apply next_pk_not_in.
    + destruct (appointment_records_ids (check_id check)
                  (next_pk appointment_id (appointment_rows db))
                  (appointments result)) as [Hnd Hge].
      apply NoDup_app; [exact Ha|exact Hnd|].
      intros k Hold Hnew.
      apply in_map_iff in Hold as (a & <- & Hold).
      apply in_map_iff in Hnew as (b & Hb & Hnew).
      apply Hge in Hnew. apply (next_pk_fresh appointment_id) in Hold. lia.
  - split; [|exact Ha]. rewrite map_app. simpl.
    apply NoDup_snoc; [exact Hc|apply next_pk_not_in].
Qed.

Lemma check_keys_stay_unique_witness :
  let db' := fst (@run_subscription_check basic_latin (three_watch_env 3)
                    checked_db 1) in
  NoDup (map check_id (checks db'))
  /\ NoDup (map appointment_id (appointment_rows db')).
Proof.
  apply (@check_keys_stay_unique basic_latin (three_watch_env 3) checked_db 1);
    simpl; (constructor; [intros []|constructor]).
Defined.

(** X10: when the [with] block of [run_subscription_check] completes with a
    check, every subscription with the checked id is selected as due at a
    later time exactly when it is active and the time since the check's
    [checked_at] is at least its interval. *)
Theorem checked_subscription_waits
        (U : Unicode) (env : ProbeEnv) (db db' : DB) (id : Z) (check : Check)
        (now : Z) (sub : Subscription) :
  run_subscription_check_body (session env) db id = Ok (db', Some check) ->
  In sub (subscriptions db') -> sub_id sub = id ->
  (In sub (get_subscriptions_due_for_check now db')
   <-> active sub = true
       /\ now - check_checked_at check >= timedelta_hours (interval_hours sub)).
Proof.
  intros Hbody Hin Hid.
  destruct (returned_result_advances_last_checked_at env db id Hbody) as [_ Hlast].
  specialize (Hlast sub Hin Hid).
  unfold get_subscriptions_due_for_check. rewrite !filter_In.
  unfold is_due. rewrite Hlast. rewrite Z.geb_le. split.
  - intros [[_ Hact] Hge]. split; [exact Hact|lia].
  - intros [Hact Hge]. repeat split; auto. lia.
Qed.

Lemma checked_subscription_waits_witness :
  let db' := fst (@run_subscription_check basic_latin (three_watch_env 3)
                    three_watch_db 3) in
  In (watch 3 (Some 30)) (get_subscriptions_due_for_check 3600000029 db')
  <-> active (watch 3 (Some 30)) = true
      /\ 3600000029 - check_checked_at slot_check
         >= timedelta_hours (interval_hours (watch 3 (Some 30))).
Proof.
  apply (@checked_subscription_waits basic_latin (three_watch_env 3)
           three_watch_db _ 3 slot_check 3600000029 (watch 3 (Some 30))).
  - vm_compute. reflexivity.
  - vm_compute. right. right. left. reflexivity.
  - reflexivity.
Defined.




(** ** What the extractor gathers (appointment_checker.py) *)

Section ExtractedSlots.
Context {U : Unicode}.

Lemma time_buttons_loop_adds (parsed_date date_text : str)
      (buttons : list Button) (acc : list AppointmentSlot) :
  exists new,
    fst (time_buttons_loop parsed_date date_text buttons acc) = acc ++ new
    /\ forall s, In s new ->
                 slot_date s = Some parsed_date
                 /\ (exists h mi, time_shape h mi
                                  /\ slot_time s = Some (h ++ 58%N :: mi))
                 /\ slot_location s = None.
Proof.
  revert acc. induction buttons as [|b buttons IH]; intros acc; simpl.
  - exists []. rewrite app_nil_r. split; [reflexivity|contradiction].
  - destruct (button_text_content b) as [[[|c raw]|]|e]; simpl;
      try apply IH.
    + destruct (snd (_parse_datetime_from_text (strip (c :: raw))))
        as [[|t0 t]|] eqn:Ht; simpl; try apply IH.
      match goal with
      | |- context [time_buttons_loop _ _ _ ?a] =>
          destruct (IH a) as (new & Hnew & Hall)
      end.
      eexists. rewrite Hnew, <- app_assoc. split; [reflexivity|].
      intros s [<-|Hs]; [|now apply Hall]. simpl.
      split; [reflexivity|]. split; [|reflexivity].
      apply parsed_time_is_verbatim in Ht as (pre & h & mi & post & _ & -> & Hs & _).
      eauto.
    + exists []. rewrite app_nil_r. split; [reflexivity|contradiction].
Qed.

Lemma headers_loop_adds (page : Page) (headers : list Header)
      (acc : list AppointmentSlot) :
  exists new,
    fst (headers_loop page headers acc) = acc ++ new
    /\ forall s, In s new -> slot_well_formed s.
Proof.
  revert acc. induction headers as [|h headers IH]; intros acc; simpl.
  - exists []. rewrite app_nil_r. split; [reflexivity|contradiction].
  - assert (Hstop : exists new : list AppointmentSlot,
               acc = acc ++ new /\ forall s, In s new -> slot_well_formed s).
    { exists []. rewrite app_nil_r. split; [reflexivity|contradiction]. }
    destruct (header_text_content h) as [[[|c raw]|]|e]; simpl;
      try apply IH; try exact Hstop.
    destruct (_parse_german_date (strip (c :: raw))) as [[|p0 p]|] eqn:Hd;
      try apply IH.
    destruct (aria_controls h) as [panel_id|e]; simpl; try exact Hstop.
    destruct (panel_of page h panel_id) as [buttons|e]; simpl; try exact Hstop.
    destruct (time_buttons_loop_adds (p0 :: p) (strip (c :: raw)) buttons acc)
      as (new1 & Hnew1 & Hall1).
    assert (Hwf : forall s, In s new1 -> slot_well_formed s).
    { intros s Hs. destruct (Hall1 s Hs) as (Hdate & Htime & Hloc).
      split; [|split; assumption].
      apply parse_german_date_Some in Hd
        as (pre & d & m & y & post & _ & Hshape & Hiso & _).
      exists d, m, y. split; [exact Hshape|]. now rewrite Hdate, Hiso. }
    destruct (time_buttons_loop (p0 :: p) (strip (c :: raw)) buttons acc)
      as [acc' [e|]]; simpl in *.
    + exists new1. auto.
    + destruct (IH acc') as (new2 & Hnew2 & Hall2).
      exists (new1 ++ new2). rewrite Hnew2, Hnew1, app_assoc.
      split; [reflexivity|].
      intros s Hs. apply in_app_or in Hs as [Hs|Hs]; auto.
Qed.

(** A header whose text cannot be read ends the extraction with what was
    gathered before it. *)
Lemma headers_loop_stops_at_raise (page : Page) (before after : list Header)
      (h : Header) (e : exn) (acc : list AppointmentSlot) :
  header_text_content h = Raise e ->
  fst (headers_loop page (before ++ h :: after) acc)
  = fst (headers_loop page before acc).
Proof.
  intros Hh. revert acc. induction before as [|b before IH]; intros acc.
  - simpl. now rewrite Hh.
  - simpl.
    destruct (header_text_content b) as [[[|c raw]|]|e0]; simpl;
      try apply IH; try reflexivity.
    destruct (_parse_german_date (strip (c :: raw))) as [[|p0 p]|];
      try apply IH.
    destruct (aria_controls b) as [panel_id|e0]; simpl; try reflexivity.
    destruct (panel_of page b panel_id) as [buttons|e0]; simpl; try reflexivity.
    destruct (time_buttons_loop (p0 :: p) (strip (c :: raw)) buttons acc)
      as [acc' [e0|]]; simpl; [reflexivity|apply IH].
Qed.

End ExtractedSlots.

(** X12: every slot that [_extract_appointment_slots] returns carries a date
    read by the date pattern in the form year-month-day with month and day
    padded to two digits, a time token of one or two digits, a colon and two
    digits exactly as it stands on the button, and no location. *)
Theorem extracted_slots_are_well_formed
        (U : Unicode) (page : Page) (s : AppointmentSlot) :
  In s (_extract_appointment_slots page) -> slot_well_formed s.
Proof.
  unfold _extract_appointment_slots.
  destruct (date_headers page) as [[|h headers]|e]; try contradiction.
  destruct (headers_loop_adds page (h :: headers) []) as (new & Hnew & Hall).
  rewrite Hnew. simpl. auto.
Qed.

Lemma extracted_slots_are_well_formed_witness :
  @slot_well_formed basic_latin
    {| slot_date := Some (lit "2026-03-05"); slot_time := Some (lit "9:05");
       slot_location := None; slot_raw_text := lit "5.3.2026 9:05" |}.
Proof.
  apply (@extracted_slots_are_well_formed basic_latin
           (one_button_page (lit "5.3.2026") (lit "9:05"))).
  vm_compute. left. reflexivity.
Defined.

(** X13: when reading the text of a date header raises, the extraction
    returns what it gathered from the headers before it: the result is the
    same as if the page ended there, and the headers after it are not
    read. *)
Theorem extraction_keeps_what_it_has
        (U : Unicode) (page : Page) (before after : list Header)
        (h : Header) (e : exn) :
  header_text_content h = Raise e ->
  date_headers page = Ok (before ++ h :: after) ->
  _extract_appointment_slots page = fst (headers_loop page before []).
Proof.
  intros Hh Hp. unfold _extract_appointment_slots. rewrite Hp.
  destruct (before ++ h :: after) eqn:E; [now destruct before|].
  rewrite <- E. now apply headers_loop_stops_at_raise with (e := e).
Qed.

Lemma extraction_keeps_what_it_has_witness :
  let page := page_of [] [stray_header; unreadable_header; stray_header] in
  @_extract_appointment_slots basic_latin page
  = fst (@headers_loop basic_latin page [stray_header] []).
Proof.
  cbv zeta.
  apply (@extraction_keeps_what_it_has basic_latin
           (page_of [] [stray_header; unreadable_header; stray_header])
           [stray_header] [stray_header] unreadable_header
           (PlaywrightTimeout (lit "Timeout 30000ms exceeded")));
    reflexivity.
Defined.

(* ------------------------------------------------------------------ *)
(** ** Driving the booking form                                        *)
(* ------------------------------------------------------------------ *)

Lemma perform_extends (site : Site) (a : Action) : extends (perform site a).
Proof. intros tr. exists [a]. reflexivity. Qed.

Lemma perform_stops (site : Site) (a : Action) :
  stops_at_failure site (perform site a).
Proof.
  intros tr tr' e H. unfold perform in H. inversion H; subst.
  exists [], a. rewrite app_nil_r. split; reflexivity.
Qed.

Lemma and_then_extends {A B} (m : Step A) (k : A -> Step B) :
  extends m -> (forall a, extends (k a)) -> extends (and_then m k).
Proof.
  intros Hm Hk tr. unfold and_then.
  destruct (Hm tr) as [c1 H1].
  destruct (m tr) as [tr1 [a | e]]; simpl in H1; subst tr1.
  - destruct (Hk a (tr ++ c1)) as [c2 H2]. exists (c1 ++ c2).
    rewrite H2. now rewrite app_assoc.
  - exists c1. reflexivity.
Qed.

Lemma and_then_stops (site : Site) {A B} (m : Step A) (k : A -> Step B) :
  extends m -> stops_at_failure site m ->
  (forall a, stops_at_failure site (k a)) ->
  stops_at_failure site (and_then m k).
Proof.
  intros He Hm Hk tr tr' e H. unfold and_then in H.
  destruct (He tr) as [c1 H1].
  destruct (m tr) as [tr1 [a | e1]] eqn:E; simpl in H1; subst tr1.
  - destruct (Hk a _ _ _ H) as (c2 & x & -> & Hx).
    exists (c1 ++ c2), x. rewrite !app_assoc in *. split; [reflexivity | assumption].
  - inversion H; subst. apply (Hm _ _ _ E).
Qed.

Lemma consent_loop_ok (site : Site) (buttons : list str) (tr : list Action) :
  snd (consent_loop site buttons tr) = Ok tt.
Proof.
  revert tr. induction buttons as [| b rest IH]; intros tr; simpl; [reflexivity |].
  unfold and_then, perform.
  destruct (react site tr _) as [[] | e]; [| apply IH].
  destruct (react site (tr ++ _) _) as [[] | e]; [reflexivity | apply IH].
Qed.

Lemma consent_loop_extends (site : Site) (buttons : list str) :
  extends (consent_loop site buttons).
Proof.
  induction buttons as [| b rest IH]; intros tr; simpl.
  - exists []. now rewrite app_nil_r.
  - unfold and_then, perform.
    destruct (react site tr _) as [[] | e].
    + destruct (react site (tr ++ _) _) as [[] | e].
      * eexists. simpl. rewrite <- app_assoc. reflexivity.
      * destruct (IH ((tr ++ [ClickRole b (Some 3000)]) ++ [WaitForTimeout 500]))
          as [c Hc].
        eexists. rewrite Hc, <- !app_assoc. reflexivity.
    + destruct (IH (tr ++ [ClickRole b (Some 3000)])) as [c Hc].
      eexists. rewrite Hc, <- !app_assoc. reflexivity.
Qed.

Lemma popup_loop_ok (site : Site) (selectors : list str) (tr : list Action) :
  snd (popup_loop site selectors tr) = Ok tt.
Proof.
  revert tr. induction selectors as [| s rest IH]; intros tr; simpl; [reflexivity |].
  unfold count.
  destruct (matches site tr s) as [n | e]; [| apply IH].
  destruct (0 <? n)%nat; [| apply IH].
  unfold and_then, perform.
  destruct (react site _ _) as [[] | e]; [| apply IH].
  destruct (react site _ _) as [[] | e]; [reflexivity | apply IH].
Qed.

Lemma popup_loop_extends (site : Site) (selectors : list str) :
  extends (popup_loop site selectors).
Proof.
  induction selectors as [| s rest IH]; intros tr; simpl.
  - exists []. now rewrite app_nil_r.
  - unfold count.
    assert (Hrest : forall calls,
               exists c, fst (popup_loop site rest (tr ++ calls)) = tr ++ c).
    { intros calls. destruct (IH (tr ++ calls)) as [c Hc].
      exists (calls ++ c). now rewrite Hc, app_assoc. }
    destruct (matches site tr s) as [n | e]; [| apply Hrest].
    destruct (0 <? n)%nat; [| apply Hrest].
    unfold and_then, perform.
    destruct (react site _ _) as [[] | e].
    + destruct (react site _ _) as [[] | e].
      * eexists. simpl. rewrite <- !app_assoc. reflexivity.
      * rewrite <- !app_assoc. apply Hrest.
    + rewrite <- !app_assoc. apply Hrest.
Qed.

Lemma never_raises_stops (site : Site) {A} (m : Step A) :
  (forall tr, exists a, snd (m tr) = Ok a) -> stops_at_failure site m.
Proof.
  intros H tr tr' e E. destruct (H tr) as [a Ha]. rewrite E in Ha. discriminate.
Qed.

Lemma and_then_ok {A B} (m : Step A) (k : A -> Step B) tr tr' (b : B) :
  and_then m k tr = (tr', Ok b) ->
  exists tr1 a, m tr = (tr1, Ok a) /\ k a tr1 = (tr', Ok b).
Proof.
  unfold and_then. destruct (m tr) as [tr1 [a | e]]; intros H.
  - exists tr1, a. split; [reflexivity | assumption].
  - discriminate.
Qed.

Lemma perform_ok (site : Site) (a : Action) tr tr' (x : unit) :
  perform site a tr = (tr', Ok x) -> tr' = tr ++ [a] /\ react site tr a = Ok tt.
Proof.
  unfold perform. intros H. destruct x. injection H as H1 H2.
  split; [now symmetry | assumption].
Qed.

Lemma set_quantity_extends (site : Site) (q : Z) : extends (_set_quantity site q).
Proof.
  unfold _set_quantity.
  repeat (apply and_then_extends; [apply perform_extends | intros _]).
  apply perform_extends.
Qed.

Lemma set_quantity_stops (site : Site) (q : Z) :
  stops_at_failure site (_set_quantity site q).
Proof.
  unfold _set_quantity.
  repeat (apply and_then_stops;
          [apply perform_extends | apply perform_stops | intros _]).
  apply perform_stops.
Qed.

(** X14: The two optional steps of the form, the cookie banner and the
    confirmation popup, never raise, whatever the site does: every failure
    inside them is passed over. *)
Theorem optional_steps_never_raise (site : Site) (tr : list Action) :
  snd (_handle_cookie_consent site tr) = Ok tt
  /\ snd (_handle_popup site tr) = Ok tt.
Proof.
  split; [apply consent_loop_ok | apply popup_loop_ok].
Qed.

(** X15: Once a cookie button has been clicked and the wait after it has
    passed, [_handle_cookie_consent] makes no further call: the first
    button that works ends the search. *)
Theorem first_cookie_button_wins
        (site : Site) (buttons : list str) (tr before after : list Action)
        (name : str) (timeout : option Z) (ms : Z) :
  fst (consent_loop site buttons tr)
  = tr ++ before ++ ClickRole name timeout :: WaitForTimeout ms :: after ->
  react site (tr ++ before) (ClickRole name timeout) = Ok tt ->
  react site (tr ++ before ++ [ClickRole name timeout]) (WaitForTimeout ms)
  = Ok tt ->
  after = [].
Proof.
  revert tr before.
  induction buttons as [| b rest IH]; intros tr before Htr Hclick Hwait.
  - simpl in Htr. rewrite <- (app_nil_r tr) in Htr at 1.
    apply app_inv_head in Htr. destruct before; discriminate.
  - simpl in Htr. unfold and_then, perform in Htr.
    destruct (react site tr (ClickRole b (Some 3000))) as [[] | e] eqn:E1.
    + destruct (react site (tr ++ [ClickRole b (Some 3000)]) (WaitForTimeout 500))
        as [[] | e] eqn:E2.
      * simpl in Htr. rewrite <- app_assoc in Htr. apply app_inv_head in Htr.
        destruct before as [| x [| y before]]; simpl in Htr.
        -- now inversion Htr.
        -- inversion Htr.
        -- inversion Htr. destruct before; discriminate.
      * destruct before as [| x [| y before]].
        -- destruct (consent_loop_extends site rest
                       ((tr ++ [ClickRole b (Some 3000)]) ++ [WaitForTimeout 500]))
             as [c Hc].
           rewrite Hc, <- !app_assoc in Htr. apply app_inv_head in Htr.
           simpl in Htr. inversion Htr; subst.
           rewrite app_nil_r in Hclick. simpl in Hwait.
           rewrite Hwait in E2. discriminate.
        -- destruct (consent_loop_extends site rest
                       ((tr ++ [ClickRole b (Some 3000)]) ++ [WaitForTimeout 500]))
             as [c Hc].
           rewrite Hc, <- !app_assoc in Htr. apply app_inv_head in Htr.
           simpl in Htr. inversion Htr.
        -- destruct (consent_loop_extends site rest
                       ((tr ++ [ClickRole b (Some 3000)]) ++ [WaitForTimeout 500]))
             as [c Hc].
           assert (Hxy : x = ClickRole b (Some 3000) /\ y = WaitForTimeout 500).
           { rewrite Hc, <- !app_assoc in Htr. apply app_inv_head in Htr.
             simpl in Htr. inversion Htr. split; reflexivity. }
           destruct Hxy as [-> ->].
           apply (IH ((tr ++ [ClickRole b (Some 3000)]) ++ [WaitForTimeout 500])
                     before).
           ++ rewrite Htr, <- !app_assoc. reflexivity.
           ++ rewrite <- Hclick, <- !app_assoc. reflexivity.
           ++ rewrite <- Hwait, <- !app_assoc. reflexivity.
    + destruct (consent_loop_extends site rest (tr ++ [ClickRole b (Some 3000)]))
        as [c Hc].
      destruct before as [| x before].
      * rewrite Hc, <- !app_assoc in Htr. apply app_inv_head in Htr.
        simpl in Htr. inversion Htr; subst.
        rewrite app_nil_r in Hclick. rewrite Hclick in E1. discriminate.
      * assert (Hx : x = ClickRole b (Some 3000)).
        { rewrite Hc, <- !app_assoc in Htr. apply app_inv_head in Htr.
          simpl in Htr. now inversion Htr. }
        subst x.
        apply (IH (tr ++ [ClickRole b (Some 3000)]) before).
        -- rewrite Htr, <- !app_assoc. reflexivity.
        -- rewrite <- Hclick, <- !app_assoc. reflexivity.
        -- rewrite <- Hwait, <- !app_assoc. reflexivity.
Qed.

Lemma first_cookie_button_wins_witness :
  fst (consent_loop banner_site cookie_buttons [])
  = [ClickRole (lit "Akzeptieren") (Some 3000);
     ClickRole (lit "Alle akzeptieren") (Some 3000); WaitForTimeout 500]
  /\ @nil Action = [].
Proof.
  split; [reflexivity |].
  apply (@first_cookie_button_wins banner_site cookie_buttons []
           [ClickRole (lit "Akzeptieren") (Some 3000)] []
           (lit "Alle akzeptieren") (Some 3000) 500);
    vm_compute; reflexivity.
Defined.

(** X16: [_handle_popup] clicks only what it has counted: every click on
    the first element of a selector comes right after the count of that
    selector, and that count was positive. *)
Theorem popup_clicks_only_what_it_found
        (site : Site) (selectors : list str) (tr before after : list Action)
        (selector : str) :
  fst (popup_loop site selectors tr)
  = tr ++ before ++ ClickFirst selector :: after ->
  exists before' n,
    before = before' ++ [Count selector]
    /\ matches site (tr ++ before') selector = Ok n /\ (0 < n)%nat.
Proof.
  revert tr before.
  induction selectors as [|s rest IH]; intros tr before Htr.
  - simpl in Htr. rewrite <- (app_nil_r tr) in Htr at 1.
    apply app_inv_head in Htr. destruct before; discriminate.
  - assert (Hlater : forall calls before2,
               before = calls ++ before2 ->
               fst (popup_loop site rest (tr ++ calls))
               = tr ++ before ++ ClickFirst selector :: after ->
               exists before' n,
                 before = before' ++ [Count selector]
                 /\ matches site (tr ++ before') selector = Ok n /\ (0 < n)%nat).
    { intros calls before2 -> H.
      destruct (IH (tr ++ calls) before2) as (b' & n & -> & Hm & Hn).
      - rewrite H, <- !app_assoc. reflexivity.
      - exists (calls ++ b'), n. rewrite <- !app_assoc in *. auto. }
    assert (Hcut : forall calls,
               fst (popup_loop site rest (tr ++ calls))
               = tr ++ before ++ ClickFirst selector :: after ->
               exists tail, before ++ ClickFirst selector :: after
                            = calls ++ tail).
    { intros calls H.
      destruct (popup_loop_extends site rest (tr ++ calls)) as [c Hc].
      rewrite Hc, <- app_assoc in H. apply app_inv_head in H. eauto. }
    assert (Hhere : forall n, matches site tr s = Ok n -> (0 <? n)%nat = true ->
               exists before' n0,
                 [Count s] = before' ++ [Count s]
                 /\ matches site (tr ++ before') s = Ok n0 /\ (0 < n0)%nat).
    { intros n Hm Hn. exists [], n. rewrite app_nil_r.
      apply Nat.ltb_lt in Hn. auto. }
    simpl in Htr. unfold count in Htr.
    destruct (matches site tr s) as [n|e] eqn:Em.
    + destruct (0 <? n)%nat eqn:En.
      * unfold and_then, perform in Htr.
        destruct (react site (tr ++ [Count s]) (ClickFirst s)) as [[]|e1].
        -- destruct (react site ((tr ++ [Count s]) ++ [ClickFirst s])
                       (WaitForTimeout 500)) as [[]|e2].
           ++ simpl in Htr. rewrite <- !app_assoc in Htr.
              apply app_inv_head in Htr. simpl in Htr.
              destruct before as [|x [|y [|z before]]]; simpl in Htr;
                inversion Htr; subst.
              ** now apply Hhere with (n := n).
              ** destruct before; discriminate.
           ++ rewrite <- !app_assoc in Htr. simpl in Htr.
              destruct (Hcut _ Htr) as [tail Ht].
              destruct before as [|x [|y [|z before]]]; simpl in Ht;
                inversion Ht; subst.
              ** now apply Hhere with (n := n).
              ** apply (Hlater [Count s; ClickFirst s; WaitForTimeout 500]
                               before eq_refl Htr).
        -- rewrite <- !app_assoc in Htr. simpl in Htr.
           destruct (Hcut _ Htr) as [tail Ht].
           destruct before as [|x [|y before]]; simpl in Ht;
             inversion Ht; subst.
           ++ now apply Hhere with (n := n).
           ++ apply (Hlater [Count s; ClickFirst s] before eq_refl Htr).
      * destruct (Hcut _ Htr) as [tail Ht].
        destruct before as [|x before]; simpl in Ht; inversion Ht; subst.
        apply (Hlater [Count s] before eq_refl Htr).
    + destruct (Hcut _ Htr) as [tail Ht].
      destruct before as [|x before]; simpl in Ht; inversion Ht; subst.
      apply (Hlater [Count s] before eq_refl Htr).
Qed.

Lemma popup_clicks_only_what_it_found_witness :
  exists before' n,
    [Count (lit "button:has-text('OK')");
     Count (lit "button:has-text('Fortfahren')")]
    = before' ++ [Count (lit "button:has-text('Fortfahren')")]
    /\ matches popup_site ([] ++ before') (lit "button:has-text('Fortfahren')")
       = Ok n
    /\ (0 < n)%nat.
Proof.
  apply (@popup_clicks_only_what_it_found popup_site popup_buttons []
           [Count (lit "button:has-text('OK')");
            Count (lit "button:has-text('Fortfahren')")]
           [WaitForTimeout 500] (lit "button:has-text('Fortfahren')")).
  vm_compute. reflexivity.
Defined.

(** X17: When [_navigate_to_service] raises, the call that raised is the
    last one made on the page: no later step of the form is tried, and the
    exception is that call's own. *)
Theorem navigation_stops_at_first_failure
        (site : Site) (url category0 service0 : str) (quantity0 : Z)
        (tr tr' : list Action) (e : exn) :
  _navigate_to_service site url category0 service0 quantity0 tr
  = (tr', Raise e) ->
  exists calls a,
    tr' = tr ++ calls ++ [a] /\ react site (tr ++ calls) a = Raise e.
Proof.
  revert tr tr' e.
  change (stops_at_failure site
            (_navigate_to_service site url category0 service0 quantity0)).
  unfold _navigate_to_service.
  repeat (apply and_then_stops;
          [first [apply perform_extends | apply consent_loop_extends
                 | apply popup_loop_extends | apply set_quantity_extends]
          |first [apply perform_stops | apply set_quantity_stops
                 | apply never_raises_stops; intros tr0; exists tt;
                   first [apply consent_loop_ok | apply popup_loop_ok]]
          | intros _]).
  apply perform_stops.
Qed.

Lemma navigation_stops_at_first_failure_witness :
  exists calls a,
    fst (_navigate_to_service site_without_category
           (lit "https://termine.duesseldorf.de/select2?md=3")
           (lit "Meldeangelegenheiten") (lit "Anmeldung") 1 [])
    = [] ++ calls ++ [a]
    /\ react site_without_category ([] ++ calls) a
       = Raise (PlaywrightTimeout (lit "Timeout 10000ms exceeded")).
Proof.
  apply (@navigation_stops_at_first_failure site_without_category
           (lit "https://termine.duesseldorf.de/select2?md=3")
           (lit "Meldeangelegenheiten") (lit "Anmeldung") 1 []).
  vm_compute. reflexivity.
Defined.

(** X18: When [_navigate_to_service] returns, the calls it made are, in
    this order: the load of the base URL, those of the cookie banner, the
    click on the category and on the service row, the quantity field
    cleared, typed with [str(quantity)] and left with Tab, the first
    "Weiter", those of the popup, and the second "Weiter"; the cookie
    banner was handled right after the load, and the load and the click on
    the category succeeded. *)
Theorem navigation_calls_in_order
        (site : Site) (url category0 service0 : str) (quantity0 : Z)
        (tr tr' : list Action) :
  _navigate_to_service site url category0 service0 quantity0 tr
  = (tr', Ok tt) ->
  exists consent popup,
    tr' = tr ++ form_calls url category0 service0 quantity0 consent popup
    /\ fst (_handle_cookie_consent site (tr ++ [Goto url]))
       = (tr ++ [Goto url]) ++ consent
    /\ react site tr (Goto url) = Ok tt
    /\ react site ((tr ++ [Goto url]) ++ consent) (ClickText category0 10000)
       = Ok tt.
Proof.
  intros H. unfold _navigate_to_service, _set_quantity in H.
  repeat match goal with
         | Hx : and_then _ _ _ = (_, Ok _) |- _ =>
             let tr1 := fresh "tr" in
             let a := fresh "a" in
             let Hm := fresh "Hm" in
             apply and_then_ok in Hx as (tr1 & a & Hm & Hx)
         end.
  repeat match goal with
         | Hp : perform _ _ _ = (_, Ok _) |- _ =>
             apply perform_ok in Hp as [? ?]
         end.
  destruct (consent_loop_extends site cookie_buttons tr0) as [consent Hc].
  fold (_handle_cookie_consent site) in Hc. 
  match goal with
  | Hp : _handle_popup _ ?t = _ |- _ =>
      destruct (popup_loop_extends site popup_buttons t) as [popup Hpp];
      fold (_handle_popup site) in Hpp; rewrite Hp in Hpp; simpl in Hpp
  end.
  rewrite Hm0 in Hc. simpl in Hc.
  exists consent, popup. subst.
  unfold form_calls. rewrite <- !app_assoc. simpl.
  repeat split; try assumption.
  - rewrite Hm0. rewrite <- !app_assoc. reflexivity.
  - rewrite <- !app_assoc in *. assumption.
Qed.

Lemma navigation_calls_in_order_witness :
  let url := lit "https://termine.duesseldorf.de/select2?md=3" in
  let run := _navigate_to_service plain_site url
               (lit "Meldeangelegenheiten") (lit "Anmeldung") 1 [] in
  exists consent popup,
    fst run
    = [] ++ form_calls url (lit "Meldeangelegenheiten") (lit "Anmeldung") 1
              consent popup
    /\ fst (_handle_cookie_consent plain_site ([] ++ [Goto url]))
       = ([] ++ [Goto url]) ++ consent
    /\ react plain_site [] (Goto url) = Ok tt
    /\ react plain_site (([] ++ [Goto url]) ++ consent)
         (ClickText (lit "Meldeangelegenheiten") 10000)
       = Ok tt.
Proof.
  cbv zeta.
  apply (@navigation_calls_in_order plain_site
           (lit "https://termine.duesseldorf.de/select2?md=3")
           (lit "Meldeangelegenheiten") (lit "Anmeldung") 1 []).
  vm_compute. reflexivity.
Defined.

(* ------------------------------------------------------------------ *)
(** ** The manual check, start and stop (scheduler.py)                *)
(* ------------------------------------------------------------------ *)

(** X20: A manual check does not look at the schedule: for every active
    subscription, checked a moment ago or never, [check_subscription_now]
    runs the check and answers with the check that was stored for it, and
    that is the one row added to [checks]. *)
Theorem manual_check_ignores_schedule
        (U : Unicode) (env : ProbeEnv) (db : DB) (sub : Subscription) :
  In sub (subscriptions db) -> active sub = true ->
  let '(db', r) :=
    check_subscription_now (run_subscription_check env) db (sub_id sub) in
  exists check,
    r = Some check
    /\ checks db' = checks db ++ [check]
    /\ subscription_id check = sub_id sub.
Proof.
  intros Hin Hact. unfold check_subscription_now, run_subscription_check.
  destruct (run_subscription_check_body (session env) db (sub_id sub))
    as [[db' r]|e] eqn:E.
  - unfold run_subscription_check_body in E.
    destruct (find _ (subscriptions db)) as [subscription|] eqn:Hfind.
    + apply find_some in Hfind as [_ Hid].
      apply andb_true_iff in Hid as [Hid _]. apply Z.eqb_eq in Hid.
      destruct (find _ (services db)) as [service|]; [|discriminate].
      destruct (find _ (users db)) as [user|]; [|discriminate].
      destruct (returned _) as [result|]; [|discriminate].
      destruct (CheckStatus_of _) as [st|]; [|discriminate].
      injection E as <- <-. cbn [checks check_id].
      rewrite find_snoc_fresh.
      * eexists. split; [reflexivity|]. split; [reflexivity|exact Hid].
      * intros c Hc. apply (next_pk_fresh check_id) in Hc.
        apply Z.eqb_neq. lia.
      * apply Z.eqb_refl.
    + exfalso. apply (find_none _ _ Hfind) in Hin.
      rewrite Z.eqb_refl, Hact in Hin. discriminate.
  - simpl. eexists. repeat split.
Qed.

Lemma manual_check_ignores_schedule_witness :
  is_due 100 (watch 2 (Some 95)) = false
  /\ let '(db', r) :=
       check_subscription_now
         (@run_subscription_check basic_latin
            {| session := session_with (Ok tt) stale_page 100;
               handler_clock := 101 |})
         mixed_watch_db (sub_id (watch 2 (Some 95))) in
     exists check,
       r = Some check
       /\ checks db' = checks mixed_watch_db ++ [check]
       /\ subscription_id check = sub_id (watch 2 (Some 95)).
Proof.
  split; [reflexivity|].
  apply (@manual_check_ignores_schedule basic_latin
           {| session := session_with (Ok tt) stale_page 100;
              handler_clock := 101 |}
           mixed_watch_db (watch 2 (Some 95))).
  - simpl. right. left. reflexivity.
  - reflexivity.
Defined.

Lemma replay_app (calls more : list SchedulerCall) (started : bool) :
  replay started (calls ++ more)
  = match replay started calls with
    | Some b => replay b more
    | None => None
    end.
Proof.
  revert started. induction calls as [|c calls IH]; intros started; simpl.
  - reflexivity.
  - destruct c; [apply IH| |]; destruct started; auto.
Qed.

Lemma run_command_alternates (st : SchedulerState) (c : SchedulerCommand) :
  replay false (scheduler_calls st) = Some (running st) ->
  replay false (scheduler_calls (run_command st c))
  = Some (running (run_command st c)).
Proof.
  intros H. destruct c; simpl; unfold start, stop;
    destruct (running st) eqn:R; simpl; rewrite ?R; try assumption;
    rewrite replay_app, H; reflexivity.
Qed.

(** X21: However [start] and [stop] are called on a new scheduler service,
    in any order and any number of times, the calls that reach the
    scheduler alternate between starting and shutting down, beginning with
    a start, every start is preceded by the registration of the job
    [check_subscriptions], and [running] tells whether the scheduler is
    started; a second [start] or [stop] in a row does nothing. *)
Theorem start_and_stop_alternate (commands : list SchedulerCommand) :
  let st := fold_left run_command commands new_scheduler in
  replay false (scheduler_calls st) = Some (running st)
  /\ start (start st) = start st
  /\ stop (stop st) = stop st
  /\ running (start st) = true /\ running (stop st) = false
  /\ forall before after,
       scheduler_calls st = before ++ Start :: after ->
       exists before', before = before' ++ [AddJob (lit "check_subscriptions")].
Proof.
  cbv zeta.
  assert (Inv : forall st,
             (replay false (scheduler_calls st) = Some (running st)
              /\ forall before after,
                   scheduler_calls st = before ++ Start :: after ->
                   exists before',
                     before = before' ++ [AddJob (lit "check_subscriptions")]) ->
             replay false (scheduler_calls (fold_left run_command commands st))
             = Some (running (fold_left run_command commands st))
             /\ forall before after,
                  scheduler_calls (fold_left run_command commands st)
                  = before ++ Start :: after ->
                  exists before',
                    before = before' ++ [AddJob (lit "check_subscriptions")]).
  { induction commands as [|c commands IH]; intros st [H1 H2]; simpl.
    - split; assumption.
    - apply IH. split; [now apply run_command_alternates|].
      intros before after E.
      destruct c; simpl in E; unfold start, stop in E;
        destruct (running st); simpl in E; eauto.
      + apply app_eq_app in E as [l [[Hst Hl]|[Hb Hl]]].
        * destruct l as [|x l]; [discriminate|].
          injection Hl as <- _. eauto.
        * destruct l as [|x [|y l]]; try discriminate.
          -- injection Hl as <- _. eauto.
          -- injection Hl as _ Hl. destruct l; discriminate.
      + apply app_eq_app in E as [l [[Hst Hl]|[Hb Hl]]].
        * destruct l as [|x l]; [discriminate|].
          injection Hl as <- _. eauto.
        * destruct l as [|x l]; [discriminate|].
          injection Hl as _ Hl. destruct l; discriminate. }
  destruct (Inv new_scheduler) as [H1 H2].
  { split; [reflexivity|]. intros [|? ?] after E; discriminate. }
  split; [assumption|].
  unfold start, stop.
  destruct (running (fold_left run_command commands new_scheduler)) eqn:R;
    simpl; rewrite ?R; simpl; auto 10.
Qed.

(* ------------------------------------------------------------------ *)
(** ** Notifications (notification_service.py)                         *)
(* ------------------------------------------------------------------ *)

Lemma numbered_indices (l : list Appointment) (n : nat) :
  map (fun '(idx, _, _) => idx) (numbered n l) = seq n (length l).
Proof.
  revert n. induction l as [|a l IH]; intros n; simpl; [reflexivity|].
  now rewrite IH.
Qed.

(** X23: [send_appointment_notification] never answers [True] and never
    stores a notification row, also when the transport accepted the
    message: the row it builds has no [notification_type], which the table
    declares [nullable=False], so the commit fails and the answer is
    [False].  The outbox grows by at most the one message. *)
Theorem notification_is_never_recorded
        (send_message : Z -> Message -> outcome unit) (now : Z)
        (db : DB) (outbox : Outbox)
        (user : User) (check : Check) (appointments0 : list Appointment) :
  let '(db', outbox', ok) :=
    send_appointment_notification send_message now db outbox user check
                                  appointments0 in
  ok = false /\ db' = db
  /\ (outbox' = outbox
      \/ exists service,
           service_of_check db check = Some service
           /\ send_message (telegram_id user)
                           (render service check appointments0) = Ok tt
           /\ outbox' = outbox ++ [(telegram_id user,
                                    render service check appointments0)]).
Proof.
  unfold send_appointment_notification.
  destruct (service_of_check db check) as [service|]; [|auto].
  destruct (send_message _ _) as [[]|[m|m|m|m]] eqn:E; simpl; auto.
  split; [reflexivity|]. split; [reflexivity|]. right.
  exists service. auto.
Qed.

(** X24: The message of [send_appointment_notification] lists
    [min(15, n)] of the [n] appointments it was given, numbered from 1 in
    steps of one; it announces the rest exactly when there are more than
    15, and the listed and the announced ones add up to the number it
    reports as found. *)
Theorem message_lists_first_fifteen
        (service : Service) (check : Check) (appointments0 : list Appointment) :
  let m := render service check appointments0 in
  let n := length appointments0 in
  msg_found m = n
  /\ length (msg_lines m) = Nat.min 15 n
  /\ map (fun '(idx, _, _) => idx) (msg_lines m) = seq 1 (Nat.min 15 n)
  /\ (msg_more m <> None <-> (15 < n)%nat)
  /\ (length (msg_lines m) + left_out m = msg_found m)%nat.
Proof.
  cbv zeta. unfold render, left_out. cbn [msg_found msg_lines msg_more].
  assert (Hl : length (numbered 1 (firstn 15 appointments0))
               = Nat.min 15 (length appointments0)).
  { rewrite <- (length_map (fun '(idx, _, _) => idx)), numbered_indices,
      length_seq. apply length_firstn. }
  split; [reflexivity|]. split; [exact Hl|].
  split; [now rewrite numbered_indices, length_firstn|].
  rewrite Hl.
  destruct (15 <? length appointments0)%nat eqn:E.
  - apply Nat.ltb_lt in E. split; [split; [auto|discriminate]|lia].
  - apply Nat.ltb_ge in E. split; [split; [congruence|lia]|lia].
Qed.

(* ------------------------------------------------------------------ *)
(** ** Keyboards and callbacks of the bot (bot/handlers.py)            *)
(* ------------------------------------------------------------------ *)







Section CallbackFacts.
Variable int : str -> outcome Z.


Lemma srv_data_routes (x : str) :
  button_callback int (lit "srv_" ++ x) = with_int int x CreateSubscription.
Proof. destruct x; reflexivity. Qed.

Lemma unsub_data_routes (x : str) :
  button_callback int (lit "unsub_" ++ x) = with_int int x HandleUnsubscribe.
Proof. destruct x; reflexivity. Qed.

End CallbackFacts.



(** X26: Every service on the keyboard of [_show_services_in_category]
    has a button whose callback, when [int] reads back the id written by
    [str], leads to [_create_subscription] for that service; the keyboard
    has at most 20 services and ends with the button "Back", whose
    callback [back_categories] is taken by no branch of
    [button_callback]. *)
Theorem service_button_creates_subscription
        (int : str -> outcome Z) (services0 : list Service) (c : str)
        (s : Service) :
  In s (firstn 20 (services_of_category c services0)) ->
  int (str_of_int (service_pk s)) = Ok (service_pk s) ->
  exists keyboard,
    _show_services_in_category services0 c = SelectService c keyboard
    /\ In (firstn 60 (service_name_of s),
           lit "srv_" ++ str_of_int (service_pk s)) keyboard
    /\ button_callback int (lit "srv_" ++ str_of_int (service_pk s))
       = Ok (CreateSubscription (service_pk s))
    /\ (length keyboard <= 21)%nat
    /\ exists buttons,
         keyboard = buttons ++ [(back_text, lit "back_categories")]
         /\ button_callback int (lit "back_categories") = Ok NoHandler.
Proof.
  intros Hs Hint. unfold _show_services_in_category.
  destruct (services_of_category c services0) as [|s0 l] eqn:E;
    [destruct Hs|]. rewrite <- E in *.
  eexists. split; [reflexivity|]. split.
  { apply in_or_app. left. apply in_map_iff. exists s. auto. }
  split.
  { rewrite srv_data_routes. unfold with_int. now rewrite Hint. }
  split.
  { rewrite length_app, length_map, length_firstn. cbn [length].
    pose proof (Nat.le_min_l 20 (length (services_of_category c services0))).
    lia. }
  eexists. split; reflexivity.
Qed.

Lemma service_button_creates_subscription_witness :
  exists keyboard,
    _show_services_in_category [sample_service; long_category_service]
                               (lit "Abholung")
    = SelectService (lit "Abholung") keyboard
    /\ In (firstn 60 (service_name_of sample_service),
           lit "srv_" ++ str_of_int (service_pk sample_service)) keyboard
    /\ button_callback ascii_int
         (lit "srv_" ++ str_of_int (service_pk sample_service))
       = Ok (CreateSubscription (service_pk sample_service))
    /\ (length keyboard <= 21)%nat
    /\ exists buttons,
         keyboard = buttons ++ [(back_text, lit "back_categories")]
         /\ button_callback ascii_int (lit "back_categories") = Ok NoHandler.
Proof.
  apply (@service_button_creates_subscription ascii_int
           [sample_service; long_category_service] (lit "Abholung")
           sample_service).
  - vm_compute. left. reflexivity.
  - vm_compute. reflexivity.
Defined.

(** X27: a callback with the data [unsub_] followed by the id of an
    active subscription of a user, as [str] writes it, is passed to
    [_handle_unsubscribe] with that id when [int] reads it back;
    [_handle_unsubscribe] then answers that the subscription was
    cancelled, and afterwards the active subscriptions of the user are the
    former ones without it. *)
Theorem unsubscribe_button_cancels
        (int : str -> outcome Z) (db : DB) (user : Z) (sub : Subscription) :
  In sub (get_user_subscriptions db user true) ->
  int (str_of_int (sub_id sub)) = Ok (sub_id sub) ->
  button_callback int (lit "unsub_" ++ str_of_int (sub_id sub))
  = Ok (HandleUnsubscribe (sub_id sub))
  /\ let '(db', reply) := _handle_unsubscribe db (sub_id sub) in
     reply = SubscriptionCancelled
     /\ ~ In sub (get_user_subscriptions db' user true)
     /\ forall s,
          In s (get_user_subscriptions db' user true)
          <-> In s (get_user_subscriptions db user true)
              /\ sub_id s <> sub_id sub.
Proof.
  intros Hin Hint. split.
  - rewrite unsub_data_routes. unfold with_int. now rewrite Hint.
  - unfold _handle_unsubscribe, delete_subscription.
    assert (Hsub : In sub (subscriptions db)).
    { unfold get_user_subscriptions in Hin.
      apply filter_In in Hin as [Hin _]. now apply filter_In in Hin as [Hin _]. }
    destruct (subscription_by_id (sub_id sub) (subscriptions db)) as [found|] eqn:E.
    + apply subscription_by_id_some in E as [_ Hid]. rewrite Hid.
      assert (Hall : forall s,
                 In s (get_user_subscriptions
                         (set_subscriptions db
                            (update_where sub_id (sub_id sub) deactivate
                                          (subscriptions db))) user true)
                 <-> In s (get_user_subscriptions db user true)
                     /\ sub_id s <> sub_id sub).
      { intros s. unfold get_user_subscriptions.
        cbn [subscriptions set_subscriptions].
        rewrite !filter_In. split.
        * intros [[Hs Hu] Ha].
          apply update_where_In in Hs as (r0 & Hr0 & [[Hne ->]|[_ ->]]).
          -- auto.
          -- discriminate.
        * intros [[[Hs Hu] Ha] Hne]. split; [split|]; auto.
          pose proof (@update_where_In_row _ sub_id (sub_id sub) deactivate
                        _ _ Hs) as H.
          apply Z.eqb_neq in Hne. now rewrite Hne in H. }
      split; [reflexivity|]. split; [|exact Hall].
      intros H. apply Hall in H as [_ H]. now apply H.
    + exfalso. apply subscription_by_id_none in E. apply E.
      now apply in_map.
Qed.

Lemma unsubscribe_button_cancels_witness :
  button_callback ascii_int (lit "unsub_" ++ str_of_int 1)
  = Ok (HandleUnsubscribe 1)
  /\ let '(db', reply) := _handle_unsubscribe mixed_watch_db 1 in
     reply = SubscriptionCancelled
     /\ ~ In (watch 1 None) (get_user_subscriptions db' 1 true)
     /\ forall s,
          In s (get_user_subscriptions db' 1 true)
          <-> In s (get_user_subscriptions mixed_watch_db 1 true)
              /\ sub_id s <> 1.
Proof.
  apply (@unsubscribe_button_cancels ascii_int mixed_watch_db 1 (watch 1 None)).
  - vm_compute. left. reflexivity.
  - vm_compute. reflexivity.
Defined.

(* ------------------------------------------------------------------ *)
(** ** Users (user_service.py)                                         *)
(* ------------------------------------------------------------------ *)

Lemma find_by_telegram_id (rows : list UserRow) (tid : Z) (u : UserRow) :
  NoDup (map row_telegram_id rows) -> In u rows -> row_telegram_id u = tid ->
  find (fun r => row_telegram_id r =? tid) rows = Some u.
Proof.
  intros Hnd Hin Htid.
  apply (@find_unique_key _ _ row_telegram_id _ tid); auto.
  intros r. apply Z.eqb_eq.
Qed.

(** X28: Under the primary key and the unique [telegram_id] of [users],
    [create_or_update_user] keeps both, adds at most one row, and answers
    with a row of the given [telegram_id] that [get_user_by_telegram_id]
    finds afterwards.  For a known user the id, the plan and the [active]
    flag are left as they were, a name that is not given (or empty) keeps
    its old value, and a second call with the same arguments changes
    nothing. *)
Theorem user_upsert
        (rows : list UserRow) (tid : Z) (un fn ln : option str) :
  users_unique rows ->
  let '(rows', user) := create_or_update_user rows tid un fn ln in
  users_unique rows'
  /\ row_telegram_id user = tid
  /\ get_user_by_telegram_id rows' tid = Some user
  /\ (length rows' <= S (length rows))%nat
  /\ create_or_update_user rows' tid un fn ln = (rows', user)
  /\ forall old,
       get_user_by_telegram_id rows tid = Some old ->
       length rows' = length rows
       /\ row_id user = row_id old /\ plan user = plan old
       /\ user_active user = user_active old
       /\ username user = or_else un (username old)
       /\ (falsy un = true -> username user = username old).
Proof.
  intros [Hpk Htid]. unfold create_or_update_user, get_user_by_telegram_id.
  destruct (find _ rows) as [old|] eqn:E.
  - pose proof E as E0. apply find_some in E as [Hin Hid]. apply Z.eqb_eq in Hid.
    set (f := refresh_names un fn ln).
    set (rows' := update_where row_id (row_id old) f rows).
    assert (Hk1 : map row_id rows' = map row_id rows)
      by (apply update_where_map; reflexivity).
    assert (Hk2 : map row_telegram_id rows' = map row_telegram_id rows)
      by (apply update_where_map; reflexivity).
    assert (Hin' : In (f old) rows').
    { pose proof (@update_where_In_row _ row_id (row_id old) f _ _ Hin) as H.
      now rewrite Z.eqb_refl in H. }
    assert (Hfind : find (fun r => row_telegram_id r =? tid) rows' = Some (f old)).
    { apply find_by_telegram_id; [now rewrite Hk2|assumption|exact Hid]. }
    split; [split; [now rewrite Hk1|now rewrite Hk2]|].
    split; [exact Hid|]. split; [exact Hfind|].
    split; [unfold rows'; rewrite update_where_length; lia|].
    split.
    + rewrite Hfind. cbn [row_id f refresh_names].
      assert (Hff : forall r, f (f r) = f r).
      { intros r. unfold f, refresh_names, or_else; cbn.
        destruct un as [[|]|], fn as [[|]|], ln as [[|]|]; cbn;
          destruct (username r) as [[|]|], (first_name r) as [[|]|],
                   (last_name r) as [[|]|]; reflexivity. }
      rewrite Hff. f_equal.
      unfold rows', update_where. rewrite map_map. apply map_ext.
      intros r. destruct (row_id r =? row_id old) eqn:Er.
      * cbn [f refresh_names row_id]. rewrite Er. apply Hff.
      * now rewrite Er.
    + intros old' H. injection H as <-.
      split; [apply update_where_length|]. repeat split.
      unfold f, refresh_names, or_else. cbn. intros ->. reflexivity.
  - set (user := {| row_id := next_pk row_id rows; row_telegram_id := tid;
                    username := un; first_name := fn; last_name := ln;
                    plan := FREE; user_active := true |}).
    assert (Hnew : forall r, In r rows -> (row_telegram_id r =? tid) = false)
      by (intros r; apply (find_none _ _ E)).
    assert (Hfind : find (fun r => row_telegram_id r =? tid) (rows ++ [user])
                    = Some user).
    { apply find_snoc_fresh; [exact Hnew|apply Z.eqb_refl]. }
    split.
    { split; rewrite map_app; apply NoDup_snoc; auto.
      - apply next_pk_not_in.
      - cbn. intros Hin. apply in_map_iff in Hin as (r & Hr & Hin).
        apply Hnew in Hin. rewrite Hr, Z.eqb_refl in Hin. discriminate. }
    split; [reflexivity|]. split; [exact Hfind|].
    split; [rewrite length_app; simpl; lia|].
    split; [|discriminate].
    rewrite Hfind. cbn [row_id user].
    assert (Hf : refresh_names un fn ln user = user).
    { unfold user, refresh_names, or_else. cbn.
      destruct un as [[|]|], fn as [[|]|], ln as [[|]|]; reflexivity. }
    rewrite Hf. f_equal.
    unfold update_where. rewrite map_app. cbn [map row_id user].
    rewrite Z.eqb_refl. fold user. rewrite Hf. f_equal.
    rewrite <- (map_id rows) at 2. apply map_ext_in.
    intros r Hr. apply (next_pk_fresh row_id) in Hr.
    destruct (row_id r =? next_pk row_id rows) eqn:Er; [|reflexivity].
    apply Z.eqb_eq in Er. lia.
Qed.

Lemma user_upsert_witness :
  let '(rows', user) :=
    create_or_update_user [sample_account] 1001 None (Some (lit "Anne")) None in
  users_unique rows'
  /\ row_telegram_id user = 1001
  /\ get_user_by_telegram_id rows' 1001 = Some user
  /\ (length rows' <= S (length [sample_account]))%nat
  /\ create_or_update_user rows' 1001 None (Some (lit "Anne")) None
     = (rows', user)
  /\ forall old,
       get_user_by_telegram_id [sample_account] 1001 = Some old ->
       length rows' = length [sample_account]
       /\ row_id user = row_id old /\ plan user = plan old
       /\ user_active user = user_active old
       /\ username user = or_else None (username old)
       /\ (falsy None = true -> username user = username old).
Proof.
  apply (@user_upsert [sample_account] 1001 None (Some (lit "Anne")) None).
  split; simpl; repeat constructor; simpl; tauto.
Defined.

(** X29: A user that [deactivate_user] switched off stays switched off
    when [create_or_update_user] is called for the same [telegram_id]
    again: the call answers with the same row, still inactive, and no row
    of that [telegram_id] is active afterwards. *)
Theorem deactivated_user_stays_inactive
        (rows : list UserRow) (u : UserRow) (un fn ln : option str) :
  users_unique rows -> In u rows ->
  let '(rows1, ok) := deactivate_user rows (row_telegram_id u) in
  let '(rows2, user) :=
    create_or_update_user rows1 (row_telegram_id u) un fn ln in
  ok = true
  /\ row_id user = row_id u
  /\ user_active user = false
  /\ forall r, In r rows2 -> row_telegram_id r = row_telegram_id u ->
               user_active r = false.
Proof.
  intros [Hpk Htid] Hin. unfold deactivate_user.
  rewrite (@find_by_telegram_id rows _ u Htid Hin eq_refl).
  set (rows1 := update_where row_id (row_id u) (set_user_active false) rows).
  assert (Hk1 : map row_id rows1 = map row_id rows)
    by (apply update_where_map; reflexivity).
  assert (Hk2 : map row_telegram_id rows1 = map row_telegram_id rows)
    by (apply update_where_map; reflexivity).
  assert (Hin1 : In (set_user_active false u) rows1).
  { pose proof (@update_where_In_row _ row_id (row_id u)
                  (set_user_active false) _ _ Hin) as H.
    now rewrite Z.eqb_refl in H. }
  unfold create_or_update_user.
  rewrite (@find_by_telegram_id rows1 (row_telegram_id u)
             (set_user_active false u));
    [|now rewrite Hk2|assumption|reflexivity].
  cbn [row_id set_user_active]. repeat split.
  intros r Hr Hrt.
  apply update_where_In in Hr as (r1 & Hr1 & Hcase).
  assert (Hr1' : row_telegram_id r1 = row_telegram_id u).
  { destruct Hcase as [[_ ->]|[_ ->]]; [assumption|exact Hrt]. }
  assert (Hact : user_active r1 = false).
  { apply update_where_In in Hr1 as (r0 & Hr0 & [[Hne ->]|[_ ->]]);
      [|reflexivity].
    exfalso. apply Hne. 
    assert (E : find (fun x => row_telegram_id x =? row_telegram_id u) rows
                = Some r0)
      by (apply find_by_telegram_id; assumption).
    rewrite (@find_by_telegram_id rows _ u Htid Hin eq_refl) in E. now injection E as <-. }
  destruct Hcase as [[_ ->]|[_ ->]]; [assumption|exact Hact].
Qed.

Lemma deactivated_user_stays_inactive_witness :
  let '(rows1, ok) := deactivate_user [sample_account] 1001 in
  let '(rows2, user) :=
    create_or_update_user rows1 1001 (Some (lit "anna")) None None in
  ok = true
  /\ row_id user = 1
  /\ user_active user = false
  /\ forall r, In r rows2 -> row_telegram_id r = 1001 -> user_active r = false.
Proof.
  apply (@deactivated_user_stays_inactive [sample_account] sample_account
           (Some (lit "anna")) None None).
  - split; simpl; repeat constructor; simpl; tauto.
  - simpl. left. reflexivity.
Defined.

(* ------------------------------------------------------------------ *)
(** ** File names of the service tester (tests/test_all_services.py)   *)
(* ------------------------------------------------------------------ *)

Lemma safe_char_underscore : safe_char 95 = true.
Proof. reflexivity. Qed.

Lemma forallb_firstn {A} (p : A -> bool) (n : nat) (l : list A) :
  forallb p l = true -> forallb p (firstn n l) = true.
Proof.
  revert n. induction l as [|x l IH]; intros [|n]; simpl; auto.
  rewrite !andb_true_iff. intros [Hx Hl]. auto.
Qed.

Lemma map_safe_id (l : str) :
  forallb safe_char l = true ->
  map (fun c => if safe_char c then c else 95%N) l = l.
Proof.
  induction l as [|c l IH]; simpl; [reflexivity|].
  rewrite andb_true_iff. intros [Hc Hl]. now rewrite Hc, IH.
Qed.

(** X30: The file name [_sanitize_filename] makes of a service name has
    the length of the name, but at most 100, consists of ASCII letters,
    digits, [_] and [-] only, and agrees with the name at every position
    where the name has such a character; sanitising it again gives the
    same file name, and a name is returned unchanged exactly when it is
    at most 100 long and made of such characters. *)
Theorem sanitized_filename_is_safe (name : str) :
  let safe := _sanitize_filename name in
  forallb safe_char safe = true
  /\ length safe = Nat.min 100 (length name)
  /\ (forall i c, nth_error name i = Some c -> (i < 100)%nat ->
                  nth_error safe i = Some (if safe_char c then c else 95%N))
  /\ _sanitize_filename safe = safe
  /\ (safe = name
      <-> forallb safe_char name = true /\ (length name <= 100)%nat).
Proof.
  cbv zeta. unfold _sanitize_filename.
  set (sub := map (fun c => if safe_char c then c else 95%N) name).
  assert (Hsub : forallb safe_char sub = true).
  { unfold sub. apply forallb_forall. intros x Hx.
    apply in_map_iff in Hx as (c & <- & _).
    destruct (safe_char c) eqn:E; [exact E|reflexivity]. }
  assert (Hsafe : forallb safe_char (firstn 100 sub) = true)
    by now apply forallb_firstn.
  split; [exact Hsafe|].
  split; [unfold sub; now rewrite length_firstn, length_map|].
  split.
  { intros i c Hi Hlt. rewrite nth_error_firstn.
    destruct (i <? 100)%nat eqn:E; [|apply Nat.ltb_ge in E; lia].
    unfold sub. rewrite nth_error_map, Hi. reflexivity. }
  split.
  { rewrite (map_safe_id _ Hsafe). rewrite firstn_firstn. reflexivity. }
  split.
  - intros H. split.
    + rewrite <- H. exact Hsafe.
    + apply (f_equal (@length N)) in H. unfold sub in H.
      rewrite length_firstn, length_map in H. lia.
  - intros [Hs Hl]. unfold sub. rewrite (map_safe_id _ Hs).
    now apply firstn_all2.
Qed.
